(** * Audio gear catalog: authentication gate, catalog queries, cart and
      admin services

    A shallow embedding of the FastAPI backend under [backend/app]:
    [models.py] and [schemas.py] (records), [auth.py] (module [Auth]),
    [routes/catalog.py] ([Catalog]), [routes/cart.py] ([Cart]) and
    [routes/admin.py] ([Admin]).

    Conventions.
    - A Python [int] is a [Z]; a Python [float] (and an SQLite REAL) is a
      primitive binary64 [float].
    - A Python [str] is a [string]; a character is read as a code point
      below 256.
    - A table is the list of its rows in rowid order.  A statement
      [select(T).where(p)] is [filter p]; [scalar_one_or_none] raises
      [MultipleResultsFound] on more than one row, as SQLAlchemy does.
    - A handler that writes returns the store as it is after the request
      together with its outcome: what it did before a raise that precedes
      the commit is lost with the session, and a raise after the commit
      leaves the committed store.
    - The database is SQLite behind the [sqlite3] driver: an integer a
      request supplies is bound as a signed 64-bit value or refused; a REAL
      is stored without a NaN and without a negative zero; [LIKE] and
      [length] read a text up to its first NUL character.
    - A handler is given the arguments FastAPI hands it, which have passed
      the declared types and bounds ([page >= 1] and
      [1 <= page_size <= 1000] for the listings); the handlers are not
      called with other arguments, and the definitions are not meant for
      them. *)

From Stdlib Require Import List ZArith String Ascii Bool Lia Floats.
From Stdlib Require Import Sorted Permutation.
Import ListNotations.

Open Scope string_scope.
Open Scope Z_scope.

(** ** Exceptions and the handler monad *)

Inductive exn : Type :=
| HTTPException (status_code : Z) (detail : string)
| MultipleResultsFound
| IntegrityError
| OverflowError
| OperationalError.

Inductive outcome (A : Type) : Type :=
| Return (a : A)
| Raise (e : exn).

Arguments Return {A} a.
Arguments Raise {A} e.

Definition bind {A B : Type} (m : outcome A) (k : A -> outcome B) : outcome B :=
  match m with
  | Return a => k a
  | Raise e => Raise e
  end.

Notation "x <- m ;; k" := (bind m (fun x => k))
  (at level 61, m at next level, right associativity).

(** ** Python strings *)

(** [str.isspace] of one character, for the code points below 256: the
    ASCII controls 9-13 and 28-31, the space, NEL and the no-break space. *)
Definition isspace (ch : ascii) : bool :=
  let n := N_of_ascii ch in
  ((9 <=? n) && (n <=? 13) || (28 <=? n) && (n <=? 32)
   || (n =? 133) || (n =? 160))%N.

Fixpoint lstrip (s : string) : string :=
  match s with
  | EmptyString => EmptyString
  | String ch rest => if isspace ch then lstrip rest else s
  end.

Fixpoint rstrip (s : string) : string :=
  match s with
  | EmptyString => EmptyString
  | String ch rest =>
      match rstrip rest with
      | EmptyString => if isspace ch then EmptyString else String ch EmptyString
      | r => String ch r
      end
  end.

(** [s.strip()] *)
Definition strip (s : string) : string := rstrip (lstrip s).

Fixpoint any_isspace (s : string) : bool :=
  match s with
  | EmptyString => false
  | String ch rest => isspace ch || any_isspace rest
  end.

Fixpoint map_chars (f : ascii -> ascii) (s : string) : string :=
  match s with
  | EmptyString => EmptyString
  | String ch rest => String (f ch) (map_chars f rest)
  end.

Definition shift_case (ch : ascii) : ascii :=
  ascii_of_N (N_of_ascii ch + 32).

(** [str.lower] of one character: A-Z and the Latin-1 capitals 192-222
    (the multiplication sign 215 apart) move up by 32. *)
Definition py_lower_char (ch : ascii) : ascii :=
  let n := N_of_ascii ch in
  if ((65 <=? n) && (n <=? 90)
      || (192 <=? n) && (n <=? 222) && negb (n =? 215))%N
  then shift_case ch else ch.

Definition py_lower : string -> string := map_chars py_lower_char.

(** SQLite's [lower()] folds the ASCII letters only. *)
Definition sql_lower_char (ch : ascii) : ascii :=
  let n := N_of_ascii ch in
  if ((65 <=? n) && (n <=? 90))%N then shift_case ch else ch.

Definition sql_lower : string -> string := map_chars sql_lower_char.

(** [bool(s)] of a string *)
Definition nonempty (s : string) : bool :=
  match s with
  | EmptyString => false
  | String _ _ => true
  end.

(** ** Python numbers *)

(** [float(n)] as the product [price * quantity] takes it: the integer
    rounded to the nearest binary64, ties to even.  (Python raises
    OverflowError where this gives an infinity, beyond the range of the
    64-bit INTEGER column the quantity is read from.) *)
Definition float_of_int (n : Z) : float :=
  SF2Prim (binary_normalize prec emax n 0 false).

(** ** models.py *)

Inductive Category : Type := microphone | headphones | interface.

Definition Category_eqb (a b : Category) : bool :=
  match a, b with
  | microphone, microphone | headphones, headphones | interface, interface => true
  | _, _ => false
  end.

Module UserORM.
Record t : Type := mk {
  id : Z;
  username : string;
  hashed_password : string;
  is_admin : bool;
  created_at : Z
}.
End UserORM.

(** The column [category] is a String(50); every write path validates it
    against the [Category] literal, so a row holds one of its three values. *)
Module GearItemORM.
Record t : Type := mk {
  id : Z;
  name : string;
  category : Category;
  brand : string;
  price : float;
  in_stock : bool;
  rating : option float;
  description : option string;
  image_url : option string;
  created_at : Z
}.
End GearItemORM.

Module CartItemORM.
Record t : Type := mk {
  id : Z;
  user_id : Z;
  gear_item_id : Z;
  quantity : Z;
  created_at : Z
}.

Definition with_quantity (q : Z) (r : t) : t :=
  mk (id r) (user_id r) (gear_item_id r) q (created_at r).
End CartItemORM.

(** The store: the three tables. *)
Record DB : Type := mkDB {
  users : list UserORM.t;
  gear_items : list GearItemORM.t;
  cart_items : list CartItemORM.t
}.

(** ** The session operations the handlers use *)

Definition scalar_one_or_none {A : Type} (rows : list A) : outcome (option A) :=
  match rows with
  | [] => Return None
  | [r] => Return (Some r)
  | _ :: _ :: _ => Raise MultipleResultsFound
  end.

(** The values of SQLite's INTEGER: the signed 64-bit integers. *)
Definition in_int64 (i : Z) : bool :=
  (-9223372036854775808 <=? i) && (i <=? 9223372036854775807).

(** A Python [int] bound as a parameter of a statement: the driver raises
    [OverflowError] on one that is no signed 64-bit integer, before the
    statement runs. *)
Definition bind_int (i : Z) : outcome Z :=
  if in_int64 i then Return i else Raise OverflowError.

Definition list_max (l : list Z) (d : Z) : Z := fold_left Z.max l d.

(** The rowid SQLite gives to an inserted row: one more than the largest
    in the table, 1 in an empty table. *)
Definition next_rowid (ids : list Z) : Z :=
  match ids with
  | [] => 1
  | i :: rest => list_max rest i + 1
  end.

(** A unit of work: the writes up to the commit, then the response built
    from the committed store.  Work that raises commits nothing. *)
Definition committed {A : Type} (db : DB) (work : outcome DB)
  (respond : DB -> outcome A) : DB * outcome A :=
  match work with
  | Return db' => (db', respond db')
  | Raise e => (db, Raise e)
  end.

(** The same, for a handler whose response is built from the row it wrote
    rather than from a new read of the store. *)
Definition committed_with {A B : Type} (db : DB) (work : outcome (DB * B))
  (respond : B -> outcome A) : DB * outcome A :=
  match work with
  | Return (db', b) => (db', respond b)
  | Raise e => (db, Raise e)
  end.

(** The primary keys are unique and [users.username] carries a unique
    index: the constraints the schema of [models.py] declares. *)
Fixpoint distinct {A : Type} (eqb : A -> A -> bool) (l : list A) : bool :=
  match l with
  | [] => true
  | x :: rest => negb (existsb (eqb x) rest) && distinct eqb rest
  end.

Definition constraints (db : DB) : bool :=
  distinct Z.eqb (map UserORM.id (users db))
  && distinct String.eqb (map UserORM.username (users db))
  && distinct Z.eqb (map GearItemORM.id (gear_items db))
  && distinct Z.eqb (map CartItemORM.id (cart_items db)).

(** ** schemas.py *)

Module User.
Record t : Type := mk {
  username : string;
  is_admin : bool;
  id : option Z
}.
End User.

Module GearItem.
Record t : Type := mk {
  id : Z;
  name : string;
  category : Category;
  brand : string;
  price : float;
  in_stock : bool;
  rating : option float;
  description : option string;
  image_url : option string
}.
End GearItem.

Module PagedResponse.
Record t : Type := mk {
  items : list GearItem.t;
  total : Z;
  page : Z;
  page_size : Z;
  pages : Z
}.
End PagedResponse.

Module CartItemAdd.
Record t : Type := mk { gear_item_id : Z; quantity : Z }.
End CartItemAdd.

Module CartItemUpdate.
Record t : Type := mk { quantity : Z }.
End CartItemUpdate.

Module CartItemResponse.
Record t : Type := mk {
  id : Z;
  gear_item_id : Z;
  quantity : Z;
  gear_item : GearItem.t
}.
End CartItemResponse.

Module CartResponse.
Record t : Type := mk {
  items : list CartItemResponse.t;
  total : float
}.
End CartResponse.

Module RegisterRequest.
Record t : Type := mk { username : string; password : string }.
End RegisterRequest.

Module UserInDB.
Record t : Type := mk {
  username : string;
  is_admin : bool;
  hashed_password : string
}.
End UserInDB.

Module GearItemCreate.
Record t : Type := mk {
  name : string;
  category : Category;
  brand : string;
  price : float;
  in_stock : bool;
  rating : option float;
  description : option string;
  image_url : option string
}.
End GearItemCreate.

(** Every field is optional and defaults to [None]; the handler reads the
    request with [exclude_unset], so the model keeps, for each field, whether
    the request set it (the outer option) and to what (the inner value, which
    may be [None]). *)
Module GearItemUpdate.
Record t : Type := mk {
  name : option (option string);
  category : option (option Category);
  brand : option (option string);
  price : option (option float);
  in_stock : option (option bool);
  rating : option (option float);
  description : option (option string);
  image_url : option (option string)
}.
End GearItemUpdate.

Module UserInfo.
Record t : Type := mk {
  id : Z;
  username : string;
  is_admin : bool
}.
End UserInfo.

Module PagedUsersResponse.
Record t : Type := mk {
  items : list UserInfo.t;
  total : Z;
  page : Z;
  page_size : Z;
  pages : Z
}.
End PagedUsersResponse.

(** The schema object built from a catalog row, field by field. *)
Definition to_schema (m : GearItemORM.t) : GearItem.t :=
  GearItem.mk (GearItemORM.id m) (GearItemORM.name m) (GearItemORM.category m)
    (GearItemORM.brand m) (GearItemORM.price m) (GearItemORM.in_stock m)
    (GearItemORM.rating m) (GearItemORM.description m) (GearItemORM.image_url m).

(** The lookup every cart handler starts with. *)
Definition user_by_username (db : DB) (name : string)
  : outcome (option UserORM.t) :=
  scalar_one_or_none
    (filter (fun u => String.eqb (UserORM.username u) name) (users db)).

(** [select(GearItemORM).where(GearItemORM.id == i)] with [i] bound. *)
Definition select_gear (db : DB) (i : Z) : outcome (option GearItemORM.t) :=
  scalar_one_or_none
    (filter (fun g => GearItemORM.id g =? i) (gear_items db)).

(** The same lookup by an id the request supplies, which is bound first. *)
Definition gear_by_id (db : DB) (i : Z) : outcome (option GearItemORM.t) :=
  i <- bind_int i ;;
  select_gear db i.

(** ** routes/cart.py *)

Module Cart.

(** The body of the loop of [get_cart], over the rows still to visit.  The
    id each lookup binds was read from an INTEGER column, which holds
    nothing but signed 64-bit values, so this bind cannot fail. *)
Fixpoint get_cart_loop (db : DB) (rows : list CartItemORM.t)
  (items_response : list CartItemResponse.t) (total : float)
  : outcome CartResponse.t :=
  match rows with
  | [] => Return (CartResponse.mk items_response total)
  | cart_item :: rest =>
      gear <- select_gear db (CartItemORM.gear_item_id cart_item) ;;
      match gear with
      | Some gear =>
          get_cart_loop db rest
            (items_response ++
               [CartItemResponse.mk (CartItemORM.id cart_item)
                  (CartItemORM.gear_item_id cart_item)
                  (CartItemORM.quantity cart_item) (to_schema gear)])
            (total + GearItemORM.price gear
                     * float_of_int (CartItemORM.quantity cart_item))%float
      | None => get_cart_loop db rest items_response total
      end
  end.

Definition get_cart (current_user : User.t) (db : DB)
  : outcome CartResponse.t :=
  user <- user_by_username db (User.username current_user) ;;
  match user with
  | None => Raise (HTTPException 404 "User not found")
  | Some user =>
      let rows :=
        filter (fun c => CartItemORM.user_id c =? UserORM.id user)
          (cart_items db) in
      get_cart_loop db rows [] 0%float
  end.

Definition with_cart_items (db : DB) (rows : list CartItemORM.t) : DB :=
  mkDB (users db) (gear_items db) rows.

(** [db.delete(row)] then commit: the row with that primary key goes. *)
Definition delete_cart_item (db : DB) (row : CartItemORM.t) : DB :=
  with_cart_items db
    (filter (fun c => negb (CartItemORM.id c =? CartItemORM.id row))
       (cart_items db)).

(** The store after the UPDATE of one row's quantity: the row with that
    primary key is rewritten. *)
Definition quantity_written (db : DB) (row : CartItemORM.t) (q : Z) : DB :=
  with_cart_items db
    (map (fun c => if CartItemORM.id c =? CartItemORM.id row
                   then CartItemORM.with_quantity q c else c)
       (cart_items db)).

(** An attribute assignment on a loaded row then commit: the flush binds
    the new quantity, and a quantity no INTEGER holds makes the commit
    raise, with nothing written. *)
Definition set_quantity (db : DB) (row : CartItemORM.t) (q : Z) : outcome DB :=
  q <- bind_int q ;;
  Return (quantity_written db row q).

(** The store after the INSERT of a cart row; [now] is the server clock
    that fills [created_at]. *)
Definition cart_item_added (db : DB) (now uid gid q : Z) : DB :=
  with_cart_items db
    (cart_items db ++
       [CartItemORM.mk (next_rowid (map CartItemORM.id (cart_items db)))
          uid gid q now]).

(** [db.add(CartItemORM(...))] then commit: the flush binds the quantity
    the request gave. *)
Definition insert_cart_item (db : DB) (now uid gid q : Z) : outcome DB :=
  q <- bind_int q ;;
  Return (cart_item_added db now uid gid q).

Definition add_to_cart (now : Z) (payload : CartItemAdd.t)
  (current_user : User.t) (db : DB) : DB * outcome CartResponse.t :=
  committed db
    (user <- user_by_username db (User.username current_user) ;;
     match user with
     | None => Raise (HTTPException 404 "User not found")
     | Some user =>
         gear <- gear_by_id db (CartItemAdd.gear_item_id payload) ;;
         match gear with
         | None => Raise (HTTPException 404 "Gear item not found")
         | Some _ =>
             existing <- scalar_one_or_none
               (filter (fun c =>
                          (CartItemORM.user_id c =? UserORM.id user)
                          && (CartItemORM.gear_item_id c
                              =? CartItemAdd.gear_item_id payload))
                  (cart_items db)) ;;
             match existing with
             | Some existing =>
                 set_quantity db existing
                   (CartItemORM.quantity existing
                    + CartItemAdd.quantity payload)
             | None =>
                 insert_cart_item db now (UserORM.id user)
                   (CartItemAdd.gear_item_id payload)
                   (CartItemAdd.quantity payload)
             end
         end
     end)
    (get_cart current_user).

(** The lookup of [update_cart_item] and [remove_from_cart]: by the cart
    item id of the request, bound first, and by the caller's own user id. *)
Definition own_cart_item (db : DB) (cart_item_id : Z) (user : UserORM.t)
  : outcome (option CartItemORM.t) :=
  cart_item_id <- bind_int cart_item_id ;;
  scalar_one_or_none
    (filter (fun c => (CartItemORM.id c =? cart_item_id)
                      && (CartItemORM.user_id c =? UserORM.id user))
       (cart_items db)).

Definition update_cart_item (cart_item_id : Z) (payload : CartItemUpdate.t)
  (current_user : User.t) (db : DB) : DB * outcome CartResponse.t :=
  committed db
    (user <- user_by_username db (User.username current_user) ;;
     match user with
     | None => Raise (HTTPException 404 "User not found")
     | Some user =>
         cart_item <- own_cart_item db cart_item_id user ;;
         match cart_item with
         | None => Raise (HTTPException 404 "Cart item not found")
         | Some cart_item =>
             if CartItemUpdate.quantity payload <=? 0
             then Return (delete_cart_item db cart_item)
             else set_quantity db cart_item
                    (CartItemUpdate.quantity payload)
         end
     end)
    (get_cart current_user).

Definition remove_from_cart (cart_item_id : Z) (current_user : User.t)
  (db : DB) : DB * outcome CartResponse.t :=
  committed db
    (user <- user_by_username db (User.username current_user) ;;
     match user with
     | None => Raise (HTTPException 404 "User not found")
     | Some user =>
         cart_item <- own_cart_item db cart_item_id user ;;
         match cart_item with
         | None => Raise (HTTPException 404 "Cart item not found")
         | Some cart_item => Return (delete_cart_item db cart_item)
         end
     end)
    (get_cart current_user).

Definition clear_cart_endpoint (current_user : User.t) (db : DB)
  : DB * outcome CartResponse.t :=
  committed db
    (user <- user_by_username db (User.username current_user) ;;
     match user with
     | None => Raise (HTTPException 404 "User not found")
     | Some user =>
         let rows :=
           filter (fun c => CartItemORM.user_id c =? UserORM.id user)
             (cart_items db) in
         Return (fold_left delete_cart_item rows db)
     end)
    (fun _ => Return (CartResponse.mk [] 0%float)).

End Cart.

(** ** The SQL the listing queries are built from *)

(** An ORDER BY term, and a list of them read left to right. *)
Definition ordering (A : Type) : Type := A -> A -> comparison.

(** SQLite orders REAL values numerically.  It stores a NaN as NULL, so no
    REAL it compares is one; here a NaN sorts below every number, as the
    NULL it would have become. *)
Definition real_compare (x y : float) : comparison :=
  match (x ?= y)%float with
  | FEq => Eq
  | FLt => Lt
  | FGt => Gt
  | FNotComparable =>
      if is_nan x then (if is_nan y then Eq else Lt) else Gt
  end.

(** What a REAL column gives back for a number written to it: SQLite keeps
    a REAL of integer value as an integer, so a negative zero comes back as
    the positive one; every other number comes back as it was. *)
Definition real_value (v : float) : float :=
  if (v =? 0)%float then 0%float else v.

(** What a nullable REAL column holds after a float is bound to it: a NaN
    becomes NULL. *)
Definition stored_real (x : option float) : option float :=
  match x with
  | Some v => if is_nan v then None else Some (real_value v)
  | None => None
  end.

(** A NULL sorts below every value. *)
Definition nullable_compare {K : Type} (cmp : K -> K -> comparison)
  (x y : option K) : comparison :=
  match x, y with
  | None, None => Eq
  | None, Some _ => Lt
  | Some _, None => Gt
  | Some a, Some b => cmp a b
  end.

Definition asc {A K : Type} (cmp : K -> K -> comparison) (key : A -> K)
  : ordering A :=
  fun a b => cmp (key a) (key b).

Definition desc {A K : Type} (cmp : K -> K -> comparison) (key : A -> K)
  : ordering A :=
  fun a b => cmp (key b) (key a).

Fixpoint lex {A : Type} (terms : list (ordering A)) (a b : A) : comparison :=
  match terms with
  | [] => Eq
  | t :: rest =>
      match t a b with
      | Eq => lex rest a b
      | c => c
      end
  end.

Fixpoint insert_row {A : Type} (cmp : ordering A) (x : A) (l : list A)
  : list A :=
  match l with
  | [] => [x]
  | y :: rest =>
      match cmp x y with
      | Gt => y :: insert_row cmp x rest
      | _ => x :: l
      end
  end.

(** [query.order_by(t1, ..., tn)]: the rows sorted by the terms.  SQLite
    leaves the order of rows the terms do not tell apart open; here they
    keep their table order. *)
Definition order_by {A : Type} (terms : list (ordering A)) (rows : list A)
  : list A :=
  fold_right (insert_row (lex terms)) [] rows.

(** A text as the C string functions of SQLite read it: up to its first
    NUL character. *)
Fixpoint c_str (s : string) : string :=
  match s with
  | EmptyString => EmptyString
  | String ch rest =>
      if Ascii.eqb ch Ascii.zero then EmptyString else String ch (c_str rest)
  end.

(** The matcher of [LIKE] without an escape character: in the pattern [%]
    stands for any run of characters and [_] for any one; other characters
    match regardless of ASCII case. *)
Fixpoint like_match (pattern s : string) : bool :=
  match pattern with
  | EmptyString =>
      match s with
      | EmptyString => true
      | String _ _ => false
      end
  | String p pattern' =>
      if Ascii.eqb p "%"
      then (fix any_run (s : string) : bool :=
              like_match pattern' s
              || match s with
                 | EmptyString => false
                 | String _ s' => any_run s'
                 end) s
      else
        match s with
        | EmptyString => false
        | String ch s' =>
            (Ascii.eqb p "_"
             || Ascii.eqb (sql_lower_char p) (sql_lower_char ch))
            && like_match pattern' s'
        end
  end.

(** The value of [X LIKE P]: the matcher reads both the pattern and the
    text as C strings. *)
Definition like (pattern s : string) : bool :=
  like_match (c_str pattern) (c_str s).

(** The length in bytes of the UTF-8 encoding of a string of code points
    below 256. *)
Fixpoint utf8_length (s : string) : N :=
  match s with
  | EmptyString => 0%N
  | String ch rest =>
      ((if N_of_ascii ch <? 128 then 1 else 2) + utf8_length rest)%N
  end.

(** SQLite refuses a LIKE pattern of more than 50000 bytes (its default
    [SQLITE_MAX_LIKE_PATTERN_LENGTH]), whatever the pattern holds. *)
Definition like_refused (pattern : string) : bool :=
  (50000 <? utf8_length pattern)%N.

(** [X LIKE P] as a row evaluates it: the statement fails with 'LIKE or
    GLOB pattern too complex' on a refused pattern. *)
Definition sql_like (pattern s : string) : outcome bool :=
  if like_refused pattern then Raise OperationalError
  else Return (like pattern s).

(** [length(X)] of a text: the characters before its first NUL. *)
Definition sql_length (s : string) : Z :=
  Z.of_nat (String.length (c_str s)).

(** The rows of a table a WHERE clause keeps, the clause evaluated row by
    row in table order; an error of the clause on a row is the error of the
    statement. *)
Fixpoint select_where {A : Type} (clause : A -> outcome bool) (rows : list A)
  : outcome (list A) :=
  match rows with
  | [] => Return []
  | r :: rest =>
      keep <- clause r ;;
      kept <- select_where clause rest ;;
      Return (if keep then r :: kept else kept)
  end.

(** [instr(X, Y)]: the position, from 1, of the first occurrence of [Y] in
    [X], and 0 when there is none. *)
Definition instr (x y : string) : Z :=
  match index 0 y x with
  | Some n => Z.of_nat n + 1
  | None => 0
  end.

Definition sort_is (sort : option string) (key : string) : bool :=
  match sort with
  | Some s => String.eqb s key
  | None => false
  end.

(** [(q or "").strip().lower()] *)
Definition normalise_q (q : option string) : string :=
  py_lower (strip (match q with Some s => s | None => "" end)).

(** The pattern of the search: [f"%{q_norm}%"]. *)
Definition search_pattern (q_norm : string) : string :=
  "%" ++ q_norm ++ "%".

Definition in_category (category : option Category) (m : GearItemORM.t)
  : bool :=
  match category with
  | Some c => Category_eqb (GearItemORM.category m) c
  | None => true
  end.

(** The WHERE clause shared by the listing query and its count, on one
    row: [category = ? AND lower(name) LIKE ?], each part there only when
    the request has it, and the LIKE reached only by a row of the
    category. *)
Definition gear_where (category : option Category) (q_norm : string)
  (m : GearItemORM.t) : outcome bool :=
  if in_category category m
  then if nonempty q_norm
       then sql_like (search_pattern q_norm) (sql_lower (GearItemORM.name m))
       else Return true
  else Return false.

(** [query.offset(start).limit(page_size)], for the start and the size of
    a listing, neither of them negative. *)
Definition offset_limit {A : Type} (start size : Z) (rows : list A) : list A :=
  firstn (Z.to_nat size) (skipn (Z.to_nat start) rows).

Definition lower_name (m : GearItemORM.t) : string :=
  sql_lower (GearItemORM.name m).

(** ** routes/catalog.py *)

Module Catalog.

Definition list_categories : list Category :=
  [microphone; headphones; interface].

(** The ORDER BY of the statement [list_gear] executes for a sort key, as
    SQLite takes it.  The column attribute has a [nulls_last] method, so the
    [rating_desc] branch is the one that wraps [rating.nulls_last()] in
    [desc]; SQLAlchemy renders that as [rating NULLS LAST DESC], which
    SQLite's parser refuses, and the statement raises when it is executed. *)
Definition sort_terms (sort : option string) (q_norm : string)
  : outcome (list (ordering GearItemORM.t)) :=
  if sort_is sort "price_asc" then
    Return [asc real_compare GearItemORM.price; asc String.compare lower_name]
  else if sort_is sort "price_desc" then
    Return [desc real_compare GearItemORM.price; asc String.compare lower_name]
  else if sort_is sort "name_asc" then
    Return [asc String.compare lower_name]
  else if sort_is sort "rating_desc" then
    Raise OperationalError
  else if sort_is sort "in_stock" then
    Return [asc Bool.compare (fun m => negb (GearItemORM.in_stock m));
            asc real_compare GearItemORM.price]
  else if nonempty q_norm then
    Return [asc Z.compare (fun m => instr (lower_name m) q_norm);
            asc Z.compare (fun m => sql_length (GearItemORM.name m))]
  else
    Return [asc String.compare lower_name].

(** The count is executed first, then the listing query. *)
Definition list_gear (category : option Category) (q sort : option string)
  (page page_size : Z) (db : DB) : outcome PagedResponse.t :=
  let q_norm := normalise_q q in
  counted <- select_where (gear_where category q_norm) (gear_items db) ;;
  let total := Z.of_nat (List.length counted) in
  let pages := Z.max 1 ((total + page_size - 1) / page_size) in
  let page := if page >? pages then pages else page in
  let start := (page - 1) * page_size in
  terms <- sort_terms sort q_norm ;;
  rows <- select_where (gear_where category q_norm) (gear_items db) ;;
  let items := offset_limit start page_size (order_by terms rows) in
  Return (PagedResponse.mk (map to_schema items) total page page_size pages).

Definition get_gear_item (item_id : Z) (db : DB) : outcome GearItem.t :=
  m <- gear_by_id db item_id ;;
  match m with
  | None => Raise (HTTPException 404 "Item not found")
  | Some m => Return (to_schema m)
  end.

End Catalog.

(** ** routes/admin.py

    Every handler here depends on [get_current_admin]; the handler is
    given the identity that dependency resolved. *)

Module Admin.

Definition sort_terms (sort : option string) : list (ordering GearItemORM.t) :=
  if sort_is sort "name_desc" then
    [desc String.compare lower_name]
  else if sort_is sort "price_asc" then
    [asc real_compare GearItemORM.price; asc String.compare lower_name]
  else if sort_is sort "price_desc" then
    [desc real_compare GearItemORM.price; asc String.compare lower_name]
  else if sort_is sort "rating_desc" then
    [desc (nullable_compare real_compare) GearItemORM.rating;
     asc String.compare lower_name]
  else if sort_is sort "id_asc" then
    [asc Z.compare GearItemORM.id]
  else if sort_is sort "id_desc" then
    [desc Z.compare GearItemORM.id]
  else
    [asc String.compare lower_name].

Definition admin_list_gear (category : option Category)
  (q sort : option string) (page page_size : Z) (_ : User.t) (db : DB)
  : outcome PagedResponse.t :=
  let q_norm := normalise_q q in
  counted <- select_where (gear_where category q_norm) (gear_items db) ;;
  let total := Z.of_nat (List.length counted) in
  let pages := Z.max 1 ((total + page_size - 1) / page_size) in
  let page := if page >? pages then pages else page in
  let start := (page - 1) * page_size in
  rows <- select_where (gear_where category q_norm) (gear_items db) ;;
  let items := offset_limit start page_size (order_by (sort_terms sort) rows) in
  Return (PagedResponse.mk (map to_schema items) total page page_size pages).

(** The id of the request is bound by the first select. *)
Definition admin_delete_user (user_id : Z) (current_user : User.t) (db : DB)
  : DB * outcome unit :=
  committed db
    (user_id <- bind_int user_id ;;
     user_to_delete <- scalar_one_or_none
       (filter (fun u => UserORM.id u =? user_id) (users db)) ;;
     match user_to_delete with
     | None => Raise (HTTPException 404 "User not found")
     | Some user_to_delete =>
         if String.eqb (UserORM.username user_to_delete)
              (User.username current_user)
         then Raise (HTTPException 403 "Cannot delete your own account")
         else if String.eqb (UserORM.username user_to_delete) "admin"
                 && UserORM.is_admin user_to_delete
         then Raise (HTTPException 403
                       "Cannot delete the default admin account")
         else
           let rows :=
             filter (fun c => CartItemORM.user_id c =? user_id)
               (cart_items db) in
           let db1 := fold_left Cart.delete_cart_item rows db in
           Return
             (mkDB
                (filter (fun u => negb (UserORM.id u
                                        =? UserORM.id user_to_delete))
                   (users db1))
                (gear_items db1) (cart_items db1))
     end)
    (fun _ => Return tt).

Definition user_where (q_norm : string) (u : UserORM.t) : outcome bool :=
  if nonempty q_norm
  then sql_like (search_pattern q_norm) (sql_lower (UserORM.username u))
  else Return true.

Definition lower_username (u : UserORM.t) : string :=
  sql_lower (UserORM.username u).

Definition user_sort_terms (sort : option string)
  : list (ordering UserORM.t) :=
  if sort_is sort "username_desc" then
    [desc String.compare lower_username]
  else if sort_is sort "id_asc" then
    [asc Z.compare UserORM.id]
  else if sort_is sort "id_desc" then
    [desc Z.compare UserORM.id]
  else if sort_is sort "admin_first" then
    [desc Bool.compare UserORM.is_admin; asc Z.compare UserORM.id]
  else
    [asc String.compare lower_username].

Definition to_user_info (u : UserORM.t) : UserInfo.t :=
  UserInfo.mk (UserORM.id u) (UserORM.username u) (UserORM.is_admin u).

Definition admin_list_users (q sort : option string) (page page_size : Z)
  (_ : User.t) (db : DB) : outcome PagedUsersResponse.t :=
  let q_norm := normalise_q q in
  counted <- select_where (user_where q_norm) (users db) ;;
  let total := Z.of_nat (List.length counted) in
  let pages := Z.max 1 ((total + page_size - 1) / page_size) in
  let page := if page >? pages then pages else page in
  let start := (page - 1) * page_size in
  rows <- select_where (user_where q_norm) (users db) ;;
  let users := offset_limit start page_size (order_by (user_sort_terms sort) rows) in
  Return
    (PagedUsersResponse.mk (map to_user_info users) total page page_size pages).

Definition with_gear_items (db : DB) (rows : list GearItemORM.t) : DB :=
  mkDB (users db) rows (cart_items db).

(** A row built from the fields of the payload, added and committed:
    [price] is NOT NULL, so a NaN price, bound as NULL, is refused; the
    row holds the two REAL fields as the columns keep them; the response
    repeats the payload under the generated id. *)
Definition create_gear_item (now : Z) (payload : GearItemCreate.t)
  (_ : User.t) (db : DB) : DB * outcome GearItem.t :=
  committed_with db
    (if is_nan (GearItemCreate.price payload) then Raise IntegrityError
     else
       let m :=
         GearItemORM.mk (next_rowid (map GearItemORM.id (gear_items db)))
           (GearItemCreate.name payload) (GearItemCreate.category payload)
           (GearItemCreate.brand payload)
           (real_value (GearItemCreate.price payload))
           (GearItemCreate.in_stock payload)
           (stored_real (GearItemCreate.rating payload))
           (GearItemCreate.description payload)
           (GearItemCreate.image_url payload) now in
       Return (with_gear_items db (gear_items db ++ [m]), m))
    (fun m =>
       Return
         (GearItem.mk (GearItemORM.id m)
            (GearItemCreate.name payload) (GearItemCreate.category payload)
            (GearItemCreate.brand payload) (GearItemCreate.price payload)
            (GearItemCreate.in_stock payload) (GearItemCreate.rating payload)
            (GearItemCreate.description payload)
            (GearItemCreate.image_url payload))).

(** [setattr] of a field the request set, on a NOT NULL column: a [None]
    is refused at the commit. *)
Definition set_required {A : Type} (old : A) (v : option (option A))
  : outcome A :=
  match v with
  | None => Return old
  | Some (Some a) => Return a
  | Some None => Raise IntegrityError
  end.

Definition set_price (old : float) (v : option (option float))
  : outcome float :=
  match v with
  | None => Return old
  | Some (Some a) =>
      if is_nan a then Raise IntegrityError else Return (real_value a)
  | Some None => Raise IntegrityError
  end.

Definition set_nullable {A : Type} (old : option A) (v : option (option A))
  : option A :=
  match v with
  | None => old
  | Some a => a
  end.

(** The loop [for k, v in payload.model_dump(exclude_unset=True).items():
    setattr(m, k, v)] and what the commit and the refresh make of it: the
    row as the table holds it afterwards. *)
Definition patched (m : GearItemORM.t) (payload : GearItemUpdate.t)
  : outcome GearItemORM.t :=
  name <- set_required (GearItemORM.name m) (GearItemUpdate.name payload) ;;
  category <- set_required (GearItemORM.category m)
                (GearItemUpdate.category payload) ;;
  brand <- set_required (GearItemORM.brand m) (GearItemUpdate.brand payload) ;;
  price <- set_price (GearItemORM.price m) (GearItemUpdate.price payload) ;;
  in_stock <- set_required (GearItemORM.in_stock m)
                (GearItemUpdate.in_stock payload) ;;
  Return
    (GearItemORM.mk (GearItemORM.id m) name category brand price in_stock
       (match GearItemUpdate.rating payload with
        | None => GearItemORM.rating m
        | Some r => stored_real r
        end)
       (set_nullable (GearItemORM.description m)
          (GearItemUpdate.description payload))
       (set_nullable (GearItemORM.image_url m)
          (GearItemUpdate.image_url payload))
       (GearItemORM.created_at m)).

Definition update_gear_item (item_id : Z) (payload : GearItemUpdate.t)
  (_ : User.t) (db : DB) : DB * outcome GearItem.t :=
  committed_with db
    (m <- gear_by_id db item_id ;;
     match m with
     | None => Raise (HTTPException 404 "Item not found")
     | Some m =>
         m' <- patched m payload ;;
         Return
           (with_gear_items db
              (map (fun g => if GearItemORM.id g =? GearItemORM.id m
                             then m' else g)
                 (gear_items db)),
            m')
     end)
    (fun m' => Return (to_schema m')).

Definition delete_gear_item (item_id : Z) (_ : User.t) (db : DB)
  : DB * outcome unit :=
  committed db
    (m <- gear_by_id db item_id ;;
     match m with
     | None => Raise (HTTPException 404 "Item not found")
     | Some m =>
         Return
           (with_gear_items db
              (filter (fun g => negb (GearItemORM.id g =? GearItemORM.id m))
                 (gear_items db)))
     end)
    (fun _ => Return tt).

End Admin.

(** ** auth.py *)

Module Claims.
(** The payload of a token: the subject and the expiry, in seconds. *)
Record t : Type := mk { sub : option string; exp : option Z }.
End Claims.

Module Token.
Record t : Type := mk { access_token : string; token_type : string }.
End Token.

Module HTTPAuthorizationCredentials.
Record t : Type := mk { scheme : string; credentials : string }.
End HTTPAuthorizationCredentials.

Module OAuth2PasswordRequestForm.
Record t : Type := mk { username : string; password : string }.
End OAuth2PasswordRequestForm.

Module Auth.

Definition ACCESS_TOKEN_EXPIRE_MINUTES : Z := 60.

Section Primitives.

(** The password hashing context (the salt it draws is an argument) and
    the token library; [jwt_decode] answers [None] where the library raises
    [JWTError], and is given the time it checks the expiry against. *)
Variable pwd_hash : string -> string -> string.
Variable pwd_verify : string -> string -> bool.
Variable jwt_encode : Claims.t -> string.
Variable jwt_decode : Z -> string -> option Claims.t.

Definition verify_password (plain_password hashed_password : string) : bool :=
  pwd_verify plain_password hashed_password.

Definition authenticate_user (username password : string) (db : DB)
  : outcome (option UserInDB.t) :=
  user <- user_by_username db username ;;
  match user with
  | None => Return None
  | Some user =>
      if negb (verify_password password (UserORM.hashed_password user))
      then Return None
      else Return (Some (UserInDB.mk (UserORM.username user)
                           (UserORM.is_admin user)
                           (UserORM.hashed_password user)))
  end.

(** [data] is the dictionary with the one key ["sub"]; [expires_delta] is
    in seconds, and a zero one is false as a [timedelta] is. *)
Definition create_access_token (now : Z) (data_sub : string)
  (expires_delta : option Z) : string :=
  let delta :=
    match expires_delta with
    | Some d => if d =? 0 then ACCESS_TOKEN_EXPIRE_MINUTES * 60 else d
    | None => ACCESS_TOKEN_EXPIRE_MINUTES * 60
    end in
  jwt_encode (Claims.mk (Some data_sub) (Some (now + delta))).

Definition verify_token (now : Z) (token : string) : option string :=
  match jwt_decode now token with
  | Some payload => Claims.sub payload
  | None => None
  end.

Definition credentials_exception : exn :=
  HTTPException 401 "Could not validate credentials".

(** The token [get_current_user] goes on with: the OAuth2 one when it is a
    non-empty string, else the credentials of the bearer header. *)
Definition presented_token (oauth2_token : option string)
  (http_auth : option HTTPAuthorizationCredentials.t) : option string :=
  match oauth2_token with
  | Some (String c s) => Some (String c s)
  | _ =>
      match http_auth with
      | Some a => Some (HTTPAuthorizationCredentials.credentials a)
      | None => None
      end
  end.

Definition get_current_user (now : Z) (oauth2_token : option string)
  (http_auth : option HTTPAuthorizationCredentials.t) (db : DB)
  : outcome User.t :=
  match presented_token oauth2_token http_auth with
  | None | Some EmptyString => Raise credentials_exception
  | Some token =>
      match verify_token now token with
      | None | Some EmptyString => Raise credentials_exception
      | Some username =>
          user_in_db <- user_by_username db username ;;
          match user_in_db with
          | None => Raise credentials_exception
          | Some user_in_db =>
              Return (User.mk (UserORM.username user_in_db)
                        (UserORM.is_admin user_in_db) None)
          end
      end
  end.

Definition get_current_admin (current_user : User.t) : outcome User.t :=
  if negb (User.is_admin current_user)
  then Raise (HTTPException 403 "Admin access required")
  else Return current_user.

Definition login_for_access_token (now : Z)
  (form_data : OAuth2PasswordRequestForm.t) (db : DB) : outcome Token.t :=
  user <- authenticate_user (OAuth2PasswordRequestForm.username form_data)
            (OAuth2PasswordRequestForm.password form_data) db ;;
  match user with
  | None => Raise (HTTPException 401 "Incorrect username or password")
  | Some user =>
      Return (Token.mk (create_access_token now (UserInDB.username user) None)
                "bearer")
  end.

(** [db.add(user)] then commit: the unique index on [username] refuses a
    second row with the same name. *)
Definition insert_user (db : DB) (now : Z) (username hashed : string)
  : outcome DB :=
  if existsb (fun u => String.eqb (UserORM.username u) username) (users db)
  then Raise IntegrityError
  else Return
         (mkDB
            (users db ++
               [UserORM.mk (next_rowid (map UserORM.id (users db)))
                  username hashed false now])
            (gear_items db) (cart_items db)).

Definition register_user (now : Z) (salt : string)
  (payload : RegisterRequest.t) (db : DB) : DB * outcome string :=
  let username := strip (RegisterRequest.username payload) in
  let password := RegisterRequest.password payload in
  committed db
    (if ((String.length username <? 3) || (32 <? String.length username))%nat
     then Raise (HTTPException 422 "Username must be 3-32 characters")
     else if any_isspace username
     then Raise (HTTPException 422 "Username must not contain whitespace")
     else if ((String.length password <? 6)
              || (128 <? String.length password))%nat
     then Raise (HTTPException 422 "Password must be 6-128 characters")
     else
       existing <- scalar_one_or_none
         (filter (fun u => String.eqb (sql_lower (UserORM.username u))
                             (py_lower username))
            (users db)) ;;
       match existing with
       | Some _ => Raise (HTTPException 409 "Username already taken")
       | None => insert_user db now username (pwd_hash salt password)
       end)
    (fun _ => Return "registered").

End Primitives.

End Auth.

(** ** main.py: the fallback route of the bundled frontend *)

Module Main.



End Main.

(** ** Reference notions the statements below compare the code with *)

(** The least number of pages of [p] rows that hold [t] rows: ceil(t/p). *)
Definition ceil_div (t p : Z) : Z :=
  if t mod p =? 0 then t / p else t / p + 1.

(** Whether a catalog row is in the filtered and searched set of a listing
    request: it has the category, if one is asked for, and its lower-cased
    name is LIKE the pattern of the search term, if there is one. *)
Definition gear_matches (category : option Category) (q_norm : string)
  (m : GearItemORM.t) : bool :=
  in_category category m
  && (if nonempty q_norm
      then like (search_pattern q_norm) (sql_lower (GearItemORM.name m))
      else true).

(** The filtered and searched set of a listing request. *)
Definition matching_rows (category : option Category) (q : option string)
  (db : DB) : list GearItemORM.t :=
  filter (gear_matches category (normalise_q q)) (gear_items db).

(** The search of a request is one SQLite evaluates: its pattern is within
    the limit of LIKE. *)
Definition searchable (q : option string) : bool :=
  negb (like_refused (search_pattern (normalise_q q))).

(** Page [page], counted from 1, of rows cut into pages of [page_size]. *)
Definition page_slice {A : Type} (page page_size : Z) (rows : list A)
  : list A :=
  firstn (Z.to_nat page_size) (skipn (Z.to_nat ((page - 1) * page_size)) rows).

(** The catalog row a cart row points to, if it is still there. *)
Definition gear_of (db : DB) (c : CartItemORM.t) : option GearItemORM.t :=
  find (fun g => GearItemORM.id g =? CartItemORM.gear_item_id c)
    (gear_items db).

(** The cart rows of a user whose gear item still exists, each with it. *)
Fixpoint resolved (db : DB) (rows : list CartItemORM.t)
  : list (CartItemORM.t * GearItemORM.t) :=
  match rows with
  | [] => []
  | c :: rest =>
      match gear_of db c with
      | Some g => (c, g) :: resolved db rest
      | None => resolved db rest
      end
  end.

Definition cart_rows (db : DB) (uid : Z) : list CartItemORM.t :=
  filter (fun c => CartItemORM.user_id c =? uid) (cart_items db).

Definition line_price (l : CartItemORM.t * GearItemORM.t) : float :=
  (GearItemORM.price (snd l) * float_of_int (CartItemORM.quantity (fst l)))%float.

(** The sum of price x quantity over lines, accumulated from 0.0 in row
    order, in binary64. *)
Definition sum_prices (lines : list (CartItemORM.t * GearItemORM.t)) : float :=
  fold_left (fun acc l => (acc + line_price l)%float) lines 0%float.

Definition line_response (l : CartItemORM.t * GearItemORM.t)
  : CartItemResponse.t :=
  CartItemResponse.mk (CartItemORM.id (fst l)) (CartItemORM.gear_item_id (fst l))
    (CartItemORM.quantity (fst l)) (to_schema (snd l)).

(** ** Orders *)

(** [a] may come before [b] in a list sorted by [cmp]. *)
Definition precedes {A : Type} (cmp : ordering A) (a b : A) : Prop :=
  cmp a b <> Gt.

(** The laws of a three-way comparison of a total preorder. *)
Record order_laws {A : Type} (cmp : A -> A -> comparison) : Prop := {
  law_antisym : forall a b, cmp b a = CompOpp (cmp a b);
  law_eq : forall a b c, cmp a b = Eq -> cmp a c = cmp b c;
  law_lt : forall a b c, cmp a b = Lt -> cmp b c = Lt -> cmp a c = Lt
}.

(** The place of a binary64 value in SQLite's order of REAL values, as a
    triple compared left to right. *)
Definition rank (x : spec_float) : Z * (Z * Z) :=
  match x with
  | S754_nan => (0, (0, 0))
  | S754_infinity true => (1, (0, 0))
  | S754_finite true m e => (2, (- e, Zneg m))
  | S754_zero _ => (3, (0, 0))
  | S754_finite false m e => (4, (e, Zpos m))
  | S754_infinity false => (5, (0, 0))
  end.

Definition rank_compare : ordering (Z * (Z * Z)) :=
  lex [asc Z.compare fst; asc Z.compare (fun t => fst (snd t));
       asc Z.compare (fun t => snd (snd t))].

Definition by_name : ordering GearItem.t :=
  asc String.compare (fun i => sql_lower (GearItem.name i)).

Definition by_price : ordering GearItem.t :=
  asc real_compare GearItem.price.

(** [a] may be listed before [b] when the list is in rating order,
    descending, absent ratings last, ties left to [tie]. *)
Definition in_rating_order (tie : ordering GearItem.t) (a b : GearItem.t)
  : Prop :=
  match GearItem.rating a, GearItem.rating b with
  | Some x, Some y =>
      real_compare x y = Gt \/ (real_compare x y = Eq /\ tie a b <> Gt)
  | Some _, None => True
  | None, Some _ => False
  | None, None => tie a b <> Gt
  end.

(** ** Further notions the properties are stated with *)

(** Every character is below 128. *)
Fixpoint is_ascii (s : string) : bool :=
  match s with
  | EmptyString => true
  | String ch rest => (N_of_ascii ch <? 128)%N && is_ascii rest
  end.

(** No character of the string is a LIKE wildcard. *)
Fixpoint wildcard_free (t : string) : bool :=
  match t with
  | EmptyString => true
  | String ch rest =>
      negb (Ascii.eqb ch "%") && negb (Ascii.eqb ch "_") && wildcard_free rest
  end.

(** [s] has a run of characters equal to [t] up to the case of ASCII
    letters. *)
Definition contains_nocase (s t : string) : Prop :=
  exists a m b, s = a ++ m ++ b /\ sql_lower m = sql_lower t.

Definition by_price_desc : ordering GearItem.t :=
  desc real_compare GearItem.price.

Definition by_stock : ordering GearItem.t :=
  asc Bool.compare (fun i => negb (GearItem.in_stock i)).

Definition by_match (q_norm : string) : ordering GearItem.t :=
  asc Z.compare (fun i => instr (sql_lower (GearItem.name i)) q_norm).

Definition by_name_length : ordering GearItem.t :=
  asc Z.compare (fun i => sql_length (GearItem.name i)).

Definition by_name_desc : ordering GearItem.t :=
  desc String.compare (fun i => sql_lower (GearItem.name i)).

Definition by_id : ordering GearItem.t := asc Z.compare GearItem.id.

Definition by_id_desc : ordering GearItem.t := desc Z.compare GearItem.id.

(** What a statement on the order of a page says of the outcome of a
    listing: the page it returned is sorted by [R]; a listing that raised
    has no page, and then the error is that of a search pattern SQLite
    refuses. *)
Definition sorted_page (q : option string) (R : GearItem.t -> GearItem.t -> Prop)
  (result : outcome PagedResponse.t) : Prop :=
  match result with
  | Return r => StronglySorted R (PagedResponse.items r)
  | Raise e => e = OperationalError /\ searchable q = false
  end.

(** The sort keys each listing knows; any other value, or none, takes the
    last branch. *)
Definition public_sort_keys : list string :=
  ["price_asc"; "price_desc"; "name_asc"; "rating_desc"; "in_stock"].

Definition admin_sort_keys : list string :=
  ["name_desc"; "price_asc"; "price_desc"; "rating_desc"; "id_asc"; "id_desc"].

(** The users a listing request matches. *)
Definition user_matches (q_norm : string) (u : UserORM.t) : bool :=
  if nonempty q_norm
  then like (search_pattern q_norm) (sql_lower (UserORM.username u))
  else true.

Definition matching_users (q : option string) (db : DB) : list UserORM.t :=
  filter (user_matches (normalise_q q)) (users db).

(** [a] may be listed before [b] when admins come first and ids ascend
    within each group. *)
Definition admins_first (a b : UserInfo.t) : Prop :=
  (UserInfo.is_admin a = true /\ UserInfo.is_admin b = false)
  \/ (UserInfo.is_admin a = UserInfo.is_admin b
      /\ UserInfo.id a <= UserInfo.id b).

(** At most one cart row per user and gear item. *)
Definition pair_eqb (a b : Z * Z) : bool :=
  (fst a =? fst b) && (snd a =? snd b).

Definition cart_pair (c : CartItemORM.t) : Z * Z :=
  (CartItemORM.user_id c, CartItemORM.gear_item_id c).

Definition one_row_per_pair (db : DB) : bool :=
  distinct pair_eqb (map cart_pair (cart_items db)).

(** What a cart handler may have written: nothing, a new row of the
    caller, a new quantity on rows of the caller, or the removal of rows of
    the caller. *)
Inductive cart_write (uid : Z) (db : DB) : DB -> Prop :=
| write_nothing : cart_write uid db db
| write_insert now gid q :
    (forall c, In c (cart_items db) -> cart_pair c <> (uid, gid)) ->
    cart_write uid db (Cart.cart_item_added db now uid gid q)
| write_quantity row q :
    In row (cart_items db) -> CartItemORM.user_id row = uid ->
    cart_write uid db (Cart.quantity_written db row q)
| write_delete row :
    In row (cart_items db) -> CartItemORM.user_id row = uid ->
    cart_write uid db (Cart.delete_cart_item db row)
| write_clear :
    cart_write uid db (fold_left Cart.delete_cart_item (cart_rows db uid) db).

(** The patch that sets no field. *)
Definition empty_patch : GearItemUpdate.t :=
  GearItemUpdate.mk None None None None None None None None.

(** ** A small store to run the handlers on *)

Definition demo_users : list UserORM.t :=
  [UserORM.mk 1 "admin" "#admin" true 0;
   UserORM.mk 2 "user1" "#password1" false 0;
   UserORM.mk 3 "user2" "#password2" false 0;
   UserORM.mk 4 "testadmin" "#admin123" true 0].

Definition shure_sm58 : GearItemORM.t :=
  GearItemORM.mk 1 "Shure SM58" microphone "Shure" 429 true (Some 4.75%float)
    None None 0.

Definition ath_m50x : GearItemORM.t :=
  GearItemORM.mk 2 "Audio-Technica ATH-M50x" headphones "Audio-Technica" 649
    true (Some 4.5%float) None None 0.

Definition rode_nt1 : GearItemORM.t :=
  GearItemORM.mk 3 "Rode NT1 5th Gen" microphone "Rode" 1199 true
    (Some 4.5%float) None None 0.

Definition sony_mdr : GearItemORM.t :=
  GearItemORM.mk 4 "Sony MDR-7506" headphones "Sony" 449 true
    (Some 4.5%float) None None 0.

Definition ua_volt : GearItemORM.t :=
  GearItemORM.mk 5 "Universal Audio Volt 2" interface "Universal Audio" 749
    false None None None 0.

Definition demo_gear : list GearItemORM.t :=
  [shure_sm58; ath_m50x; rode_nt1; sony_mdr; ua_volt].

Definition demo_cart : list CartItemORM.t :=
  [CartItemORM.mk 1 2 1 2 0;
   CartItemORM.mk 2 3 2 1 0;
   CartItemORM.mk 3 3 99 4 0].

Definition demo_db : DB := mkDB demo_users demo_gear demo_cart.

Definition user1 : User.t := User.mk "user1" false None.
Definition user2 : User.t := User.mk "user2" false None.
Definition admin : User.t := User.mk "admin" true None.
Definition testadmin : User.t := User.mk "testadmin" true None.

(** A search term of 50000 letters. *)
Definition long_term : string := N.iter 50000 (String "a") EmptyString.

(** Stand-ins for the two libraries, enough to run the handlers: the hash
    of a password is the password, and a token is its subject. *)
Definition plain_hash (salt password : string) : string :=
  password.

Definition plain_verify (password hashed : string) : bool :=
  String.eqb password hashed.

Definition plain_encode (payload : Claims.t) : string :=
  match Claims.sub payload with
  | Some s => s
  | None => ""
  end.

Definition plain_decode (now : Z) (token : string) : option Claims.t :=
  Some (Claims.mk (Some token) None).

(** * Properties *)

(** ** The building blocks on small inputs *)

Example strip_both_ends : strip "  bob smith   " = "bob smith".
Proof. reflexivity. Qed.

Example lower_differs_beyond_ascii :
  let e_acute := String (ascii_of_N 201) "ric" in
  py_lower e_acute = String (ascii_of_N 233) "ric"
  /\ sql_lower e_acute = e_acute.
Proof. split; reflexivity. Qed.

Example like_wildcards :
  like "%s_n%" "sony mdr-7506" = true /\ like "%s_n%" "shure sm58" = false.
Proof. split; reflexivity. Qed.

Example like_stops_at_nul :
  let nul := String Ascii.zero "" in
  c_str ("ab" ++ nul ++ "cd") = "ab"
  /\ like ("%" ++ nul ++ "%") "shure sm58" = true
  /\ like "%cd%" ("ab" ++ nul ++ "cd") = false
  /\ sql_length ("a" ++ nul ++ "zzzz") = 1.
Proof. repeat split; reflexivity. Qed.

Example bind_int_range :
  bind_int 9223372036854775807 = Return 9223372036854775807
  /\ bind_int 9223372036854775808 = Raise OverflowError
  /\ bind_int (-9223372036854775809) = Raise OverflowError.
Proof. repeat split; reflexivity. Qed.

Example real_value_zero :
  real_value (-0)%float = 0%float /\ real_value (-2.5)%float = (-2.5)%float
  /\ stored_real (Some nan) = None.
Proof. repeat split; reflexivity. Qed.

Example instr_positions :
  instr "shure sm58" "sm" = 7 /\ instr "shure sm58" "x" = 0.
Proof. split; reflexivity. Qed.

Example next_rowid_values : next_rowid [] = 1 /\ next_rowid [3; 7; 5] = 8.
Proof. split; reflexivity. Qed.

Example search_finds_shure :
  Catalog.list_gear None (Some " Shure ") (Some "relevance") 1 12 demo_db
  = Return (PagedResponse.mk [to_schema shure_sm58] 1 1 12 1).
Proof. vm_compute. reflexivity. Qed.

Example add_two_then_three :
  let '(db1, _) := Cart.add_to_cart 1 (CartItemAdd.mk 1 2) admin demo_db in
  let '(db2, cart) := Cart.add_to_cart 2 (CartItemAdd.mk 1 3) admin db1 in
  cart_rows db2 1 = [CartItemORM.mk 4 1 1 5 1]
  /\ cart = Return (CartResponse.mk
                      [CartItemResponse.mk 4 1 5 (to_schema shure_sm58)]
                      2145%float).
Proof. vm_compute. split; reflexivity. Qed.

Example register_conflict_any_case :
  snd (Auth.register_user plain_hash 5 "salt"
         (RegisterRequest.mk "User1" "secret1") demo_db)
  = Raise (HTTPException 409 "Username already taken").
Proof. reflexivity. Qed.

(** ** What the WHERE clause of a listing selects *)

Lemma select_where_values {A : Type} (clause : A -> outcome bool)
  (value : A -> bool) (rows : list A) :
  (forall r, In r rows -> clause r = Return (value r)) ->
  select_where clause rows = Return (filter value rows).
Proof.
  induction rows as [| r rows IH]; intros H; simpl; [reflexivity |].
  rewrite (H r) by now left. simpl.
  rewrite IH by (intros x Hx; apply H; now right). reflexivity.
Qed.

Lemma select_where_error {A : Type} (clause : A -> outcome bool)
  (value : A -> bool) (e : exn) (rows : list A) :
  (forall r, In r rows -> clause r = Return (value r) \/ clause r = Raise e) ->
  (exists r, In r rows /\ clause r = Raise e) ->
  select_where clause rows = Raise e.
Proof.
  induction rows as [| r rows IH]; intros H (x & Hx & Ex); simpl;
    [destruct Hx |].
  destruct (H r ltac:(now left)) as [E | E]; rewrite E; simpl;
    [| reflexivity].
  rewrite IH; [reflexivity | intros y Hy; apply H; now right |].
  destruct Hx as [-> | Hx]; [congruence | eauto].
Qed.

Lemma gear_where_value (category : option Category) (q_norm : string)
  (m : GearItemORM.t) :
  like_refused (search_pattern q_norm) = false ->
  gear_where category q_norm m = Return (gear_matches category q_norm m).
Proof.
  intros H. unfold gear_where, gear_matches, sql_like. rewrite H.
  destruct (in_category category m), (nonempty q_norm); reflexivity.
Qed.

(** A refused pattern comes from a search term: without one the pattern
    is [%%]. *)
Lemma like_refused_nonempty (q_norm : string) :
  like_refused (search_pattern q_norm) = true -> nonempty q_norm = true.
Proof. destruct q_norm; [vm_compute; discriminate | reflexivity]. Qed.

(** What the WHERE clause of a gear listing selects: the statement fails on
    a refused pattern as soon as a row of the category is there to be
    matched against it, and gives the matching rows otherwise. *)
Lemma select_gear_where (category : option Category) (q_norm : string)
  (rows : list GearItemORM.t) :
  select_where (gear_where category q_norm) rows
  = if like_refused (search_pattern q_norm)
       && existsb (in_category category) rows
    then Raise OperationalError
    else Return (filter (gear_matches category q_norm) rows).
Proof.
  destruct (like_refused (search_pattern q_norm)) eqn:Hr; cbn [andb].
  - pose proof (like_refused_nonempty q_norm Hr) as Hq.
    destruct (existsb (in_category category) rows) eqn:Hex.
    + apply (select_where_error _ (fun _ => false)).
      * intros r _. unfold gear_where, sql_like. rewrite Hq, Hr.
        destruct (in_category category r); auto.
      * apply existsb_exists in Hex as (m & Hin & Hc). exists m.
        split; [exact Hin |].
        unfold gear_where, sql_like. now rewrite Hc, Hq, Hr.
    + apply select_where_values. intros r Hin.
      assert (Hc : in_category category r = false).
      { apply not_true_is_false. intros Hc.
        assert (existsb (in_category category) rows = true); [| congruence].
        apply existsb_exists. eauto. }
      unfold gear_where, gear_matches. now rewrite Hc.
  - apply select_where_values. intros r _. now apply gear_where_value.
Qed.

(** The rows a listing selects, for a search SQLite evaluates. *)
Lemma select_matching_rows (category : option Category) (q : option string)
  (db : DB) :
  searchable q = true ->
  select_where (gear_where category (normalise_q q)) (gear_items db)
  = Return (matching_rows category q db).
Proof.
  intros H. apply negb_true_iff in H. rewrite select_gear_where, H.
  reflexivity.
Qed.

(** A listing raises nothing but the error of a refused pattern, or it
    selects the matching rows. *)
Lemma select_gear_cases (category : option Category) (q : option string)
  (db : DB) :
  select_where (gear_where category (normalise_q q)) (gear_items db)
  = Return (matching_rows category q db)
  \/ (select_where (gear_where category (normalise_q q)) (gear_items db)
      = Raise OperationalError
      /\ searchable q = false).
Proof.
  rewrite select_gear_where. unfold searchable.
  destruct (like_refused _); simpl; [| now left].
  destruct (existsb _ _); [right | left]; auto.
Qed.

(** ** Pagination *)

Lemma ceil_div_pages (t p : Z) :
  0 <= t -> 1 <= p -> (t + p - 1) / p = ceil_div t p.
Proof.
  intros Ht Hp. unfold ceil_div.
  pose proof (Z.div_mod t p ltac:(lia)) as E.
  pose proof (Z.mod_pos_bound t p ltac:(lia)) as B.
  destruct (Z.eqb_spec (t mod p) 0) as [H0 | H0].
  - symmetry. apply Z.div_unique with (r := p - 1); lia.
  - symmetry. apply Z.div_unique with (r := t mod p - 1); lia.
Qed.

Lemma last_page_start (t p : Z) :
  0 < t -> 1 <= p -> (Z.max 1 ((t + p - 1) / p) - 1) * p < t.
Proof.
  intros Ht Hp.
  pose proof (Z.div_mod (t + p - 1) p ltac:(lia)) as E.
  pose proof (Z.mod_pos_bound (t + p - 1) p ltac:(lia)) as B.
  assert (1 <= (t + p - 1) / p) by (apply Z.div_le_lower_bound; lia).
  rewrite Z.max_r by lia. nia.
Qed.

Lemma insert_row_length {A : Type} (cmp : ordering A) (x : A) (l : list A) :
  List.length (insert_row cmp x l) = S (List.length l).
Proof.
  induction l as [| y l IH]; simpl; [reflexivity |].
  destruct (cmp x y); simpl; auto.
Qed.

Lemma order_by_length {A : Type} (terms : list (ordering A)) (rows : list A) :
  List.length (order_by terms rows) = List.length rows.
Proof.
  unfold order_by. induction rows as [| x rows IH]; simpl; [reflexivity |].
  now rewrite insert_row_length, IH.
Qed.

Lemma page_slice_length {A : Type} (page page_size : Z) (rows : list A) :
  1 <= page -> 1 <= page_size ->
  Z.of_nat (List.length (page_slice page page_size rows))
  = Z.max 0 (Z.min page_size
               (Z.of_nat (List.length rows) - (page - 1) * page_size)).
Proof.
  intros Hp Hs. unfold page_slice.
  rewrite length_firstn, length_skipn. nia.
Qed.

(** What the three listings do with the count and the sorted rows: the
    number of pages, the clamp, the slice. *)
Lemma paging_facts {A : Type} (sorted : list A) (total page page_size : Z) :
  total = Z.of_nat (List.length sorted) ->
  1 <= page -> 1 <= page_size ->
  let pages := Z.max 1 ((total + page_size - 1) / page_size) in
  let clamped := if page >? pages then pages else page in
  let shown := Z.min page (Z.max 1 (ceil_div total page_size)) in
  pages = Z.max 1 (ceil_div total page_size)
  /\ clamped = shown
  /\ offset_limit ((clamped - 1) * page_size) page_size sorted
     = page_slice shown page_size sorted
  /\ (0 < total -> page_slice shown page_size sorted <> [])
  /\ Z.of_nat (List.length (page_slice shown page_size sorted))
     = Z.min page_size (total - (shown - 1) * page_size).
Proof.
  intros Et Hp Hps pages clamped shown.
  assert (Ht : 0 <= total) by lia.
  assert (Epages : pages = Z.max 1 (ceil_div total page_size))
    by (unfold pages; now rewrite ceil_div_pages).
  assert (Hpages : 1 <= pages) by (unfold pages; lia).
  assert (Hc : clamped = shown).
  { unfold shown. rewrite <- Epages. unfold clamped.
    destruct (Z.gtb_spec page pages); lia. }
  assert (Hstart : 1 <= shown /\ (shown - 1) * page_size <= total).
  { rewrite <- Hc. split;
      [unfold clamped; destruct (Z.gtb_spec page pages); lia |].
    assert (clamped <= pages)
      by (unfold clamped; destruct (Z.gtb_spec page pages); lia).
    destruct (Z.eq_dec total 0) as [E0 | N0].
    - assert (pages = 1); [| nia].
      unfold pages. rewrite E0. rewrite Z.div_small by lia. lia.
    - pose proof (last_page_start total page_size ltac:(lia) Hps) as L.
      fold pages in L. nia. }
  assert (Hlen : Z.of_nat (List.length (page_slice shown page_size sorted))
                 = Z.min page_size (total - (shown - 1) * page_size)).
  { rewrite page_slice_length by lia. rewrite <- Et. lia. }
  split; [exact Epages |]. split; [exact Hc |].
  split; [now rewrite Hc |]. split; [| exact Hlen].
  intros Hpos E. rewrite E in Hlen. simpl in Hlen.
  pose proof (last_page_start total page_size Hpos Hps) as L.
  fold pages in L. rewrite <- Hc in Hlen.
  assert (clamped <= pages)
    by (unfold clamped; destruct (Z.gtb_spec page pages); lia).
  nia.
Qed.

(** The response of the public listing, for a search SQLite evaluates and
    a sort key whose statement it accepts. *)
Lemma list_gear_response (category : option Category) (q sort : option string)
  (page page_size : Z) (db : DB) (terms : list (ordering GearItemORM.t)) :
  searchable q = true ->
  Catalog.sort_terms sort (normalise_q q) = Return terms ->
  let rows := matching_rows category q db in
  let total := Z.of_nat (List.length rows) in
  let pages := Z.max 1 ((total + page_size - 1) / page_size) in
  let clamped := if page >? pages then pages else page in
  Catalog.list_gear category q sort page page_size db
  = Return (PagedResponse.mk
              (map to_schema
                 (offset_limit ((clamped - 1) * page_size) page_size
                    (order_by terms rows)))
              total clamped page_size pages).
Proof.
  intros Hq Ht. unfold Catalog.list_gear.
  rewrite (select_matching_rows category q db Hq). cbn [bind].
  rewrite Ht. reflexivity.
Qed.

Lemma admin_list_gear_response (category : option Category)
  (q sort : option string) (page page_size : Z) (who : User.t) (db : DB) :
  searchable q = true ->
  let rows := matching_rows category q db in
  let total := Z.of_nat (List.length rows) in
  let pages := Z.max 1 ((total + page_size - 1) / page_size) in
  let clamped := if page >? pages then pages else page in
  Admin.admin_list_gear category q sort page page_size who db
  = Return (PagedResponse.mk
              (map to_schema
                 (offset_limit ((clamped - 1) * page_size) page_size
                    (order_by (Admin.sort_terms sort) rows)))
              total clamped page_size pages).
Proof.
  intros Hq. unfold Admin.admin_list_gear.
  rewrite (select_matching_rows category q db Hq). reflexivity.
Qed.

(** Every outcome of the admin listing: a page cut from the sorted
    matching rows, or the error of a refused pattern. *)
Lemma admin_list_gear_cases (category : option Category)
  (q sort : option string) (page page_size : Z) (who : User.t) (db : DB) :
  (exists start total shown pages,
     Admin.admin_list_gear category q sort page page_size who db
     = Return (PagedResponse.mk
                 (map to_schema
                    (offset_limit start page_size
                       (order_by (Admin.sort_terms sort)
                          (matching_rows category q db))))
                 total shown page_size pages))
  \/ (Admin.admin_list_gear category q sort page page_size who db
      = Raise OperationalError
      /\ searchable q = false).
Proof.
  unfold Admin.admin_list_gear.
  destruct (select_gear_cases category q db) as [-> | [-> Hq]].
  - left. cbn [bind]. eexists _, _, _, _. reflexivity.
  - right. split; [reflexivity | exact Hq].
Qed.

(** Every outcome of the public listing: a page cut from the sorted
    matching rows, or an error of the database, which a refused pattern
    and the sort key [rating_desc] bring about. *)
Lemma list_gear_cases (category : option Category) (q sort : option string)
  (page page_size : Z) (db : DB) :
  (exists terms start total shown pages,
     Catalog.sort_terms sort (normalise_q q) = Return terms
     /\ Catalog.list_gear category q sort page page_size db
        = Return (PagedResponse.mk
                    (map to_schema
                       (offset_limit start page_size
                          (order_by terms (matching_rows category q db))))
                    total shown page_size pages))
  \/ (Catalog.list_gear category q sort page page_size db
      = Raise OperationalError
      /\ (searchable q = false
          \/ Catalog.sort_terms sort (normalise_q q)
             = Raise OperationalError)).
Proof.
  unfold Catalog.list_gear.
  destruct (select_gear_cases category q db) as [-> | [-> Hq]].
  - cbn [bind].
    destruct (Catalog.sort_terms sort (normalise_q q)) as [terms | e] eqn:Et.
    + left. cbn [bind]. eexists terms, _, _, _, _.
      split; reflexivity.
    + right. cbn [bind]. unfold Catalog.sort_terms in Et.
      repeat (destruct (sort_is sort _) eqn:? in Et; try discriminate).
      * injection Et as <-. auto.
      * destruct (nonempty _); discriminate.
  - right. split; [reflexivity | now left].
Qed.

(** Both listings, as one function of the terms of their ORDER BY. *)
Lemma listing_response (category : option Category) (q sort : option string)
  (page page_size : Z) (who : User.t) (db : DB)
  (listing : Z -> Z -> DB -> outcome PagedResponse.t)
  (terms : list (ordering GearItemORM.t)) :
  searchable q = true ->
  (listing = Catalog.list_gear category q sort
   /\ Catalog.sort_terms sort (normalise_q q) = Return terms)
  \/ (listing = (fun p s d => Admin.admin_list_gear category q sort p s who d)
      /\ terms = Admin.sort_terms sort) ->
  let rows := matching_rows category q db in
  let total := Z.of_nat (List.length rows) in
  let pages := Z.max 1 ((total + page_size - 1) / page_size) in
  let clamped := if page >? pages then pages else page in
  listing page page_size db
  = Return (PagedResponse.mk
              (map to_schema
                 (offset_limit ((clamped - 1) * page_size) page_size
                    (order_by terms rows)))
              total clamped page_size pages).
Proof.
  intros Hq [[-> Ht] | [-> ->]].
  - now apply list_gear_response.
  - now apply admin_list_gear_response.
Qed.

(** C1 (amended). For an admin gear listing, and for a public one whose
    sort key is not [rating_desc] (its ORDER BY is one SQLite accepts), with
    any category filter, a search term whose LIKE pattern SQLite evaluates,
    [page >= 1] and [page_size] in [1, 1000], the listing returns: [total]
    counts the filtered and searched rows, [pages] is
    [max 1 (ceil (total / page_size))], the [page] of the response is the
    requested one clamped to [pages], and the items are that page of the
    sorted matching rows, of [min page_size (total - (page - 1) * page_size)]
    items.  A request beyond the last page gets the response of the last
    page, and the items are not empty while [total > 0]. *)
Theorem listing_pagination (category : option Category)
  (q sort : option string) (page page_size : Z) (who : User.t) (db : DB) :
  1 <= page -> 1 <= page_size <= 1000 ->
  searchable q = true ->
  let rows := matching_rows category q db in
  let total := Z.of_nat (List.length rows) in
  let pages := Z.max 1 (ceil_div total page_size) in
  let shown := Z.min page pages in
  forall listing terms,
    (listing = Catalog.list_gear category q sort
     /\ Catalog.sort_terms sort (normalise_q q) = Return terms)
    \/ (listing = (fun p s d => Admin.admin_list_gear category q sort p s who d)
        /\ terms = Admin.sort_terms sort) ->
    let items := page_slice shown page_size (order_by terms rows) in
    listing page page_size db
    = Return (PagedResponse.mk (map to_schema items) total shown page_size pages)
    /\ Z.of_nat (List.length items)
       = Z.min page_size (total - (shown - 1) * page_size)
    /\ (pages < page ->
        listing page page_size db = listing pages page_size db)
    /\ (0 < total -> items <> []).
Proof.
  intros Hp [Hs _] Hq rows total pages shown listing terms Hl items.
  assert (Et : total = Z.of_nat (List.length (order_by terms rows)))
    by (now rewrite order_by_length).
  assert (Hresp : forall p, 1 <= p ->
            listing p page_size db
            = Return (PagedResponse.mk
                        (map to_schema
                           (page_slice (Z.min p pages) page_size
                              (order_by terms rows)))
                        total (Z.min p pages) page_size pages)).
  { intros p Hp1.
    rewrite (listing_response category q sort p page_size who db listing terms
               Hq Hl).
    destruct (paging_facts (order_by terms rows) total p page_size Et Hp1 Hs)
      as (E1 & E2 & E3 & _).
    do 2 f_equal; [f_equal; exact E3 | exact E2 | exact E1]. }
  destruct (paging_facts (order_by terms rows) total page page_size Et Hp Hs)
    as (_ & _ & _ & Hne & Hlen).
  split; [exact (Hresp page Hp) |]. split; [exact Hlen |].
  split; [| exact Hne].
  intros Hlt. rewrite (Hresp page Hp), (Hresp pages ltac:(unfold pages; lia)).
  now rewrite (Z.min_r page pages), Z.min_id by lia.
Qed.

Lemma listing_pagination_witness :
  Catalog.list_gear None None (Some "price_asc") 7 2 demo_db
  = Return (PagedResponse.mk [to_schema rode_nt1] 5 3 2 3).
Proof.
  exact (proj1 (listing_pagination None None (Some "price_asc") 7 2 admin
                  demo_db ltac:(lia) ltac:(lia) eq_refl _ _
                  (or_introl (conj eq_refl eq_refl)))).
Defined.

(** C1 as stated fails: a listing request can raise.  A search term of
    50000 letters makes a pattern SQLite refuses in either listing, and the
    public listing sorted by [rating_desc] raises on every request. *)
Lemma listing_request_raises :
  Catalog.list_gear None (Some long_term) None 1 12 demo_db
  = Raise OperationalError
  /\ Admin.admin_list_gear None (Some long_term) None 1 12 admin demo_db
     = Raise OperationalError
  /\ Catalog.list_gear None None (Some "rating_desc") 1 12 demo_db
     = Raise OperationalError.
Proof. repeat split; vm_compute; reflexivity. Qed.

(** ** Lookups under the schema's constraints *)

Section UniqueKey.

Context {A K : Type} (eqb : K -> K -> bool) (key : A -> K).
Hypothesis eqb_eq : forall x y, eqb x y = true <-> x = y.

Lemma distinct_no_match (l : list A) (k : K) :
  existsb (eqb k) (map key l) = false ->
  filter (fun y => eqb (key y) k) l = [] /\ find (fun y => eqb (key y) k) l = None.
Proof.
  induction l as [| a l IH]; simpl; [tauto |].
  intros H. apply orb_false_elim in H as [Ha Hl].
  destruct (eqb (key a) k) eqn:E.
  - apply eqb_eq in E. subst k.
    assert (eqb (key a) (key a) = true) by now apply eqb_eq.
    congruence.
  - auto.
Qed.

Lemma scalar_is_find (l : list A) (k : K) :
  distinct eqb (map key l) = true ->
  scalar_one_or_none (filter (fun y => eqb (key y) k) l)
  = Return (find (fun y => eqb (key y) k) l).
Proof.
  induction l as [| a l IH]; simpl; [reflexivity |].
  intros H. apply andb_prop in H as [Ha Hl].
  apply negb_true_iff in Ha.
  destruct (eqb (key a) k) eqn:E.
  - apply eqb_eq in E. subst k.
    destruct (distinct_no_match l (key a) Ha) as [-> _]. reflexivity.
  - auto.
Qed.

Lemma find_the_row (l : list A) (x : A) :
  distinct eqb (map key l) = true -> In x l ->
  find (fun y => eqb (key y) (key x)) l = Some x.
Proof.
  induction l as [| a l IH]; simpl; [tauto |].
  intros H Hin. apply andb_prop in H as [Ha Hl].
  apply negb_true_iff in Ha.
  destruct Hin as [-> | Hin].
  - assert (eqb (key x) (key x) = true) as -> by now apply eqb_eq.
    reflexivity.
  - destruct (eqb (key a) (key x)) eqn:E; [| auto].
    apply eqb_eq in E. exfalso.
    assert (existsb (eqb (key a)) (map key l) = true); [| congruence].
    apply existsb_exists. exists (key x). split.
    + now apply in_map.
    + now apply eqb_eq.
Qed.

Lemma find_absent (l : list A) (k : K) :
  ~ In k (map key l) -> find (fun y => eqb (key y) k) l = None.
Proof.
  intros H. destruct (find _ l) eqn:E; [| reflexivity].
  apply find_some in E as [Hin E]. apply eqb_eq in E.
  exfalso. apply H. subst k. now apply in_map.
Qed.

End UniqueKey.

Lemma constraints_parts (db : DB) :
  constraints db = true ->
  distinct Z.eqb (map UserORM.id (users db)) = true
  /\ distinct String.eqb (map UserORM.username (users db)) = true
  /\ distinct Z.eqb (map GearItemORM.id (gear_items db)) = true
  /\ distinct Z.eqb (map CartItemORM.id (cart_items db)) = true.
Proof.
  unfold constraints. intros H.
  apply andb_prop in H as [H H4]. apply andb_prop in H as [H H3].
  apply andb_prop in H as [H1 H2]. auto.
Qed.

Lemma user_by_username_the_row (db : DB) (user : UserORM.t) :
  distinct String.eqb (map UserORM.username (users db)) = true ->
  In user (users db) ->
  user_by_username db (UserORM.username user) = Return (Some user).
Proof.
  intros Hd Hin. unfold user_by_username.
  rewrite (scalar_is_find String.eqb UserORM.username String.eqb_eq _ _ Hd).
  now rewrite (find_the_row String.eqb UserORM.username String.eqb_eq _ _ Hd Hin).
Qed.

Lemma select_gear_is_find (db : DB) (i : Z) :
  distinct Z.eqb (map GearItemORM.id (gear_items db)) = true ->
  select_gear db i
  = Return (find (fun g => GearItemORM.id g =? i) (gear_items db)).
Proof.
  intros Hd. unfold select_gear.
  now rewrite (scalar_is_find Z.eqb GearItemORM.id Z.eqb_eq _ _ Hd).
Qed.

Lemma bind_int_cases (i : Z) :
  (in_int64 i = true /\ bind_int i = Return i)
  \/ (in_int64 i = false /\ bind_int i = Raise OverflowError).
Proof. unfold bind_int. destruct (in_int64 i); auto. Qed.

Lemma bind_int_ok (i : Z) : in_int64 i = true -> bind_int i = Return i.
Proof. unfold bind_int. now intros ->. Qed.

Lemma bind_int_refused (i : Z) :
  in_int64 i = false -> bind_int i = Raise OverflowError.
Proof. unfold bind_int. now intros ->. Qed.

Lemma gear_by_id_is_find (db : DB) (i : Z) :
  distinct Z.eqb (map GearItemORM.id (gear_items db)) = true ->
  in_int64 i = true ->
  gear_by_id db i
  = Return (find (fun g => GearItemORM.id g =? i) (gear_items db)).
Proof.
  intros Hd Hi. unfold gear_by_id. rewrite (bind_int_ok i Hi). simpl.
  now apply select_gear_is_find.
Qed.

Lemma gear_by_id_refused (db : DB) (i : Z) :
  in_int64 i = false -> gear_by_id db i = Raise OverflowError.
Proof. intros Hi. unfold gear_by_id. now rewrite (bind_int_refused i Hi). Qed.

(** ** The cart *)

Lemma get_cart_loop_lines (db : DB) (rows : list CartItemORM.t)
  (acc : list CartItemResponse.t) (total : float) :
  distinct Z.eqb (map GearItemORM.id (gear_items db)) = true ->
  Cart.get_cart_loop db rows acc total
  = Return (CartResponse.mk (acc ++ map line_response (resolved db rows))
              (fold_left (fun t l => (t + line_price l)%float)
                 (resolved db rows) total)).
Proof.
  intros Hd. revert acc total.
  induction rows as [| c rows IH]; intros acc total; simpl.
  - now rewrite app_nil_r.
  - rewrite (select_gear_is_find db _ Hd). simpl. unfold gear_of.
    destruct (find _ (gear_items db)) as [g |]; [| apply IH].
    rewrite IH. simpl. now rewrite <- app_assoc.
Qed.

Lemma get_cart_lines (current_user : User.t) (db : DB) (user : UserORM.t) :
  distinct String.eqb (map UserORM.username (users db)) = true ->
  distinct Z.eqb (map GearItemORM.id (gear_items db)) = true ->
  In user (users db) ->
  UserORM.username user = User.username current_user ->
  Cart.get_cart current_user db
  = Return (CartResponse.mk
              (map line_response (resolved db (cart_rows db (UserORM.id user))))
              (sum_prices (resolved db (cart_rows db (UserORM.id user))))).
Proof.
  intros Hu Hg Hin Hname. unfold Cart.get_cart.
  rewrite <- Hname, (user_by_username_the_row db user Hu Hin). simpl.
  now rewrite (get_cart_loop_lines db _ [] 0%float Hg).
Qed.

Lemma resolved_in (db : DB) (rows : list CartItemORM.t)
  (c : CartItemORM.t) (g : GearItemORM.t) :
  In (c, g) (resolved db rows) <-> In c rows /\ gear_of db c = Some g.
Proof.
  induction rows as [| r rows IH]; simpl; [tauto |].
  destruct (gear_of db r) eqn:E; simpl; rewrite IH; split.
  - intros [H | H]; [inversion H; subst; auto | tauto].
  - intros [[-> | H1] H2]; [left; congruence | right; tauto].
  - tauto.
  - intros [[-> | H1] H2]; [congruence | tauto].
Qed.

(** C6. For an identity that resolves to a user row, [get_cart] returns
    (it raises nothing) the lines of the user's cart rows whose gear item
    still exists, and as total the sum of price x quantity over these
    lines; a cart row whose gear item is gone appears in neither; a user
    with no cart rows gets no items and the total 0.0. *)
Theorem get_cart_total (current_user : User.t) (db : DB) (user : UserORM.t) :
  constraints db = true ->
  In user (users db) ->
  UserORM.username user = User.username current_user ->
  let lines := resolved db (cart_rows db (UserORM.id user)) in
  Cart.get_cart current_user db
  = Return (CartResponse.mk (map line_response lines) (sum_prices lines))
  /\ (forall c g, In (c, g) lines <->
        In c (cart_items db) /\ CartItemORM.user_id c = UserORM.id user
        /\ gear_of db c = Some g)
  /\ (forall c, In c (cart_items db) -> gear_of db c = None ->
        forall g, ~ In (c, g) lines)
  /\ (cart_rows db (UserORM.id user) = [] ->
      Cart.get_cart current_user db = Return (CartResponse.mk [] 0%float)).
Proof.
  intros Hc Hin Hname lines.
  destruct (constraints_parts db Hc) as (_ & Hu & Hg & _).
  pose proof (get_cart_lines current_user db user Hu Hg Hin Hname) as E.
  fold lines in E. repeat split.
  - exact E.
  - apply resolved_in in H. destruct H as [H _].
    unfold cart_rows in H. now apply filter_In in H.
  - apply resolved_in in H. destruct H as [H _].
    unfold cart_rows in H. apply filter_In in H. lia.
  - now apply resolved_in in H.
  - intros (H1 & H2 & H3). apply resolved_in. split; [| assumption].
    unfold cart_rows. apply filter_In. split; [assumption | lia].
  - intros c Hc' Hgone g Hl. apply resolved_in in Hl. destruct Hl; congruence.
  - intros Hnil. rewrite E. unfold lines. now rewrite Hnil.
Qed.

Lemma get_cart_total_witness :
  Cart.get_cart user2 demo_db
  = Return (CartResponse.mk
              [CartItemResponse.mk 2 2 1 (to_schema ath_m50x)]
              649%float).
Proof.
  exact (proj1 (get_cart_total user2 demo_db (UserORM.mk 3 "user2" "#password2" false 0)
                  eq_refl (or_intror (or_intror (or_introl eq_refl))) eq_refl)).
Defined.

Section UniqueRow.

Context {A K : Type} (eqb : K -> K -> bool) (key : A -> K).
Hypothesis eqb_eq : forall x y, eqb x y = true <-> x = y.

Lemma filter_the_row (l : list A) (x : A) :
  distinct eqb (map key l) = true -> In x l ->
  filter (fun y => eqb (key y) (key x)) l = [x].
Proof.
  intros Hd Hin.
  pose proof (scalar_is_find eqb key eqb_eq l (key x) Hd) as E.
  rewrite (find_the_row eqb key eqb_eq l x Hd Hin) in E.
  destruct (filter _ l) as [| a [| b r]]; simpl in E; congruence.
Qed.

Lemma filter_absent (l : list A) (k : K) :
  ~ In k (map key l) -> filter (fun y => eqb (key y) k) l = [].
Proof.
  induction l as [| a l IH]; simpl; [reflexivity |].
  intros H. destruct (eqb (key a) k) eqn:E.
  - apply eqb_eq in E. tauto.
  - apply IH. tauto.
Qed.

End UniqueRow.

Lemma filter_andb {A : Type} (p r : A -> bool) (l : list A) :
  filter (fun x => p x && r x) l = filter r (filter p l).
Proof.
  induction l as [| a l IH]; simpl; [reflexivity |].
  destruct (p a); simpl; [destruct (r a) |]; now rewrite IH.
Qed.

Lemma filter_none {A : Type} (p : A -> bool) (l : list A) :
  (forall x, In x l -> p x = false) -> filter p l = [].
Proof.
  induction l as [| a l IH]; simpl; intros H; [reflexivity |].
  rewrite (H a) by auto. apply IH. auto.
Qed.

Lemma filter_swap {A : Type} (p r : A -> bool) (l : list A) :
  filter p (filter r l) = filter r (filter p l).
Proof.
  rewrite <- !filter_andb. apply filter_ext. intros. apply andb_comm.
Qed.

Lemma list_max_ge (l : list Z) (d : Z) :
  d <= list_max l d /\ forall x, In x l -> x <= list_max l d.
Proof.
  unfold list_max. revert d.
  induction l as [| a l IH]; intros d; simpl; [split; [lia | tauto] |].
  destruct (IH (Z.max d a)) as [H1 H2]. split; [lia |].
  intros x [-> | Hx]; [lia | auto].
Qed.

Lemma next_rowid_fresh (ids : list Z) : ~ In (next_rowid ids) ids.
Proof.
  destruct ids as [| i rest]; simpl; [tauto |].
  destruct (list_max_ge rest i) as [H1 H2].
  intros [H | H]; [lia | apply H2 in H; lia].
Qed.

Lemma resolved_same_gear (db db' : DB) (rows : list CartItemORM.t) :
  gear_items db' = gear_items db -> resolved db' rows = resolved db rows.
Proof.
  intros E. induction rows as [| c rows IH]; simpl; [reflexivity |].
  unfold gear_of. now rewrite E, IH.
Qed.

Lemma resolved_filter (db : DB) (p : CartItemORM.t -> bool)
  (rows : list CartItemORM.t) :
  resolved db (filter p rows) = filter (fun l => p (fst l)) (resolved db rows).
Proof.
  induction rows as [| c rows IH]; simpl; [reflexivity |].
  destruct (p c) eqn:E; simpl; destruct (gear_of db c); simpl;
    rewrite ?E; now rewrite IH.
Qed.

Lemma own_cart_item_cases (db : DB) (cid : Z) (user : UserORM.t)
  (row : CartItemORM.t) :
  constraints db = true -> In row (cart_items db) -> CartItemORM.id row = cid ->
  in_int64 cid = true ->
  Cart.own_cart_item db cid user
  = Return (if CartItemORM.user_id row =? UserORM.id user
            then Some row else None).
Proof.
  intros Hc Hin <- Hi. destruct (constraints_parts db Hc) as (_ & _ & _ & Hd).
  unfold Cart.own_cart_item. rewrite (bind_int_ok _ Hi). cbn [bind].
  rewrite (filter_andb (fun c => CartItemORM.id c =? CartItemORM.id row)).
  rewrite (filter_the_row Z.eqb CartItemORM.id Z.eqb_eq _ _ Hd Hin). simpl.
  now destruct (CartItemORM.user_id row =? UserORM.id user).
Qed.

(** C2 (amended). On a cart that holds no row for the gear item, two
    [add_to_cart] calls with quantities [q1] then [q2], integers of any sign
    such that [q1] and [q1 + q2] are values of the INTEGER column (signed
    64-bit), both return, and leave exactly one cart row for the user and
    the gear item, of quantity [q1 + q2]; the table is the old one with that
    row added, so nothing is floored, refused or deleted. *)
Theorem add_to_cart_twice (now1 now2 gid q1 q2 : Z) (current_user : User.t)
  (db : DB) (user : UserORM.t) :
  constraints db = true ->
  In user (users db) ->
  UserORM.username user = User.username current_user ->
  In gid (map GearItemORM.id (gear_items db)) ->
  in_int64 gid = true ->
  (forall c, In c (cart_items db) ->
     CartItemORM.user_id c = UserORM.id user ->
     CartItemORM.gear_item_id c <> gid) ->
  in_int64 q1 = true ->
  in_int64 (q1 + q2) = true ->
  exists db1 cart1 db2 cart2 row,
    Cart.add_to_cart now1 (CartItemAdd.mk gid q1) current_user db
    = (db1, Return cart1)
    /\ Cart.add_to_cart now2 (CartItemAdd.mk gid q2) current_user db1
       = (db2, Return cart2)
    /\ filter (fun c => (CartItemORM.user_id c =? UserORM.id user)
                        && (CartItemORM.gear_item_id c =? gid))
         (cart_items db2) = [row]
    /\ CartItemORM.quantity row = q1 + q2
    /\ cart_items db2 = (cart_items db ++ [row])%list
    /\ users db2 = users db /\ gear_items db2 = gear_items db.
Proof.
  intros Hc Hin Hname Hgid Hgi Hfree Hq1 Hq12.
  destruct (constraints_parts db Hc) as (_ & Hu & Hg & _).
  set (mine := fun c => (CartItemORM.user_id c =? UserORM.id user)
                        && (CartItemORM.gear_item_id c =? gid)).
  assert (Hnone : filter mine (cart_items db) = []).
  { apply filter_none. intros c Hc'. unfold mine.
    destruct (Z.eqb_spec (CartItemORM.user_id c) (UserORM.id user)) as [E |];
      [| reflexivity].
    apply Z.eqb_neq. now apply Hfree. }
  apply in_map_iff in Hgid as (gear & Hgear & Hgin).
  assert (Hfind : forall d, gear_items d = gear_items db ->
            gear_by_id d gid = Return (Some gear)).
  { intros d Ed. rewrite gear_by_id_is_find by (rewrite ?Ed; assumption).
    rewrite Ed, <- Hgear.
    now rewrite (find_the_row Z.eqb GearItemORM.id Z.eqb_eq _ _ Hg Hgin). }
  set (fresh := next_rowid (map CartItemORM.id (cart_items db))).
  set (row1 := CartItemORM.mk fresh (UserORM.id user) gid q1 now1).
  set (db1 := Cart.cart_item_added db now1 (UserORM.id user) gid q1).
  set (row2 := CartItemORM.with_quantity (q1 + q2) row1).
  set (db2 := Cart.with_cart_items db1 (cart_items db ++ [row2])).
  assert (Hmine : forall q, filter mine (cart_items db ++
            [CartItemORM.mk fresh (UserORM.id user) gid q now1])%list
            = [CartItemORM.mk fresh (UserORM.id user) gid q now1]).
  { intros q. rewrite filter_app, Hnone. simpl. unfold mine. simpl.
    now rewrite !Z.eqb_refl. }
  assert (Hset : Cart.quantity_written db1 row1 (q1 + q2) = db2).
  { unfold Cart.quantity_written, db2. f_equal. unfold db1. simpl.
    rewrite map_app. simpl. rewrite Z.eqb_refl. f_equal.
    rewrite <- (map_id (cart_items db)) at 2. apply map_ext_in.
    intros c Hc'. destruct (Z.eqb_spec (CartItemORM.id c) fresh) as [E |];
      [| reflexivity].
    exfalso. apply (next_rowid_fresh (map CartItemORM.id (cart_items db))).
    fold fresh. rewrite <- E. now apply in_map. }
  eexists db1, _, db2, _, row2.
  split; [| split; [| split; [| split; [| split; [| split]]]]].
  - unfold Cart.add_to_cart.
    rewrite <- Hname, (user_by_username_the_row db user Hu Hin). simpl.
    rewrite (Hfind db eq_refl). simpl. fold mine. rewrite Hnone. simpl.
    unfold Cart.insert_cart_item. rewrite (bind_int_ok q1 Hq1). simpl.
    fold db1.
    rewrite (get_cart_lines current_user db1 user Hu Hg Hin Hname).
    reflexivity.
  - unfold Cart.add_to_cart.
    rewrite <- Hname.
    rewrite (user_by_username_the_row db1 user Hu Hin). simpl.
    rewrite (Hfind db1 eq_refl). simpl. fold mine. fold fresh.
    rewrite (Hmine q1). simpl. fold row1.
    unfold Cart.set_quantity. rewrite (bind_int_ok _ Hq12). cbn [bind].
    rewrite Hset. cbn [committed].
    rewrite (get_cart_lines current_user db2 user Hu Hg Hin Hname).
    reflexivity.
  - exact (Hmine (q1 + q2)).
  - reflexivity.
  - reflexivity.
  - reflexivity.
  - reflexivity.
Qed.

Lemma add_to_cart_twice_witness :
  exists db1 cart1 db2 cart2 row,
    Cart.add_to_cart 10 (CartItemAdd.mk 4 2) user1 demo_db = (db1, Return cart1)
    /\ Cart.add_to_cart 20 (CartItemAdd.mk 4 (-5)) user1 db1
       = (db2, Return cart2)
    /\ filter (fun c => (CartItemORM.user_id c =? 2)
                        && (CartItemORM.gear_item_id c =? 4))
         (cart_items db2) = [row]
    /\ CartItemORM.quantity row = 2 + -5
    /\ cart_items db2 = (demo_cart ++ [row])%list
    /\ users db2 = demo_users /\ gear_items db2 = demo_gear.
Proof.
  apply (add_to_cart_twice 10 20 4 2 (-5) user1 demo_db
           (UserORM.mk 2 "user1" "#password1" false 0)).
  - reflexivity.
  - simpl; tauto.
  - reflexivity.
  - simpl; tauto.
  - reflexivity.
  - intros c Hc Hu. simpl in Hc.
    destruct Hc as [<- | [<- | [<- | []]]]; simpl in *; lia.
  - reflexivity.
  - reflexivity.
Defined.

(** C2 as stated fails beyond the INTEGER column: a first quantity of 2^63
    makes the commit raise and no row is written, and two quantities of 2^62
    leave the row of the first call as it was, its quantity not their sum. *)
Lemma add_to_cart_beyond_int64 :
  Cart.add_to_cart 10 (CartItemAdd.mk 4 9223372036854775808) user1 demo_db
  = (demo_db, Raise OverflowError)
  /\ (let q := 4611686018427387904 in
      let db1 := fst (Cart.add_to_cart 10 (CartItemAdd.mk 4 q) user1 demo_db) in
      Cart.add_to_cart 20 (CartItemAdd.mk 4 q) user1 db1
      = (db1, Raise OverflowError)
      /\ cart_items db1 = (demo_cart ++ [CartItemORM.mk 4 2 4 q 10])%list).
Proof. repeat split; vm_compute; reflexivity. Qed.

Lemma cart_rows_delete (db : DB) (row : CartItemORM.t) (uid : Z) :
  resolved (Cart.delete_cart_item db row)
    (cart_rows (Cart.delete_cart_item db row) uid)
  = filter (fun l => negb (CartItemORM.id (fst l) =? CartItemORM.id row))
      (resolved db (cart_rows db uid)).
Proof.
  rewrite (resolved_same_gear db) by reflexivity.
  unfold cart_rows. simpl. rewrite filter_swap. apply resolved_filter.
Qed.

(** C4 (amended). For a cart row the caller owns, [update_cart_item]
    with [quantity <= 0] deletes the row and returns the cart read after
    the write: no row and no returned item has its id, and the returned
    items and total are those of the caller's other lines, the deleted
    line's price x quantity left out of the sum.  With a [quantity > 0]
    that is a value of the INTEGER column (signed 64-bit) it returns the
    cart read after the write, the row stays and its stored quantity is the
    given one, whatever it was.  With a [quantity > 0] beyond that range it
    raises and writes nothing. *)
Theorem update_cart_item_quantity (cid q : Z) (current_user : User.t)
  (db : DB) (user : UserORM.t) (row : CartItemORM.t) :
  constraints db = true ->
  In user (users db) ->
  UserORM.username user = User.username current_user ->
  In row (cart_items db) ->
  CartItemORM.id row = cid ->
  in_int64 cid = true ->
  CartItemORM.user_id row = UserORM.id user ->
  let result :=
    Cart.update_cart_item cid (CartItemUpdate.mk q) current_user db in
  (q <= 0 ->
   exists db' cart,
     result = (db', Return cart)
     /\ Cart.get_cart current_user db' = Return cart
     /\ let others :=
          filter (fun l => negb (CartItemORM.id (fst l) =? cid))
            (resolved db (cart_rows db (UserORM.id user))) in
        cart_items db'
        = filter (fun c => negb (CartItemORM.id c =? cid)) (cart_items db)
        /\ ~ In cid (map CartItemORM.id (cart_items db'))
        /\ ~ In cid (map CartItemResponse.id (CartResponse.items cart))
        /\ CartResponse.items cart = map line_response others
        /\ CartResponse.total cart = sum_prices others)
  /\ (0 < q -> in_int64 q = true ->
      exists db' cart,
        result = (db', Return cart)
        /\ Cart.get_cart current_user db' = Return cart
        /\ cart_items db'
           = map (fun c => if CartItemORM.id c =? cid
                           then CartItemORM.with_quantity q c else c)
               (cart_items db)
        /\ In (CartItemORM.with_quantity q row) (cart_items db')
        /\ forall c, In c (cart_items db') -> CartItemORM.id c = cid ->
                     CartItemORM.quantity c = q)
  /\ (0 < q -> in_int64 q = false -> result = (db, Raise OverflowError)).
Proof.
  intros Hc Hin Hname Hrow Hid Hci Hown result.
  destruct (constraints_parts db Hc) as (_ & Hu & Hg & _).
  pose proof (own_cart_item_cases db cid user row Hc Hrow Hid Hci) as Hlook.
  rewrite Hown, Z.eqb_refl in Hlook.
  assert (Hcart : forall db', users db' = users db ->
            gear_items db' = gear_items db ->
            Cart.get_cart current_user db'
            = Return (CartResponse.mk
                        (map line_response
                           (resolved db' (cart_rows db' (UserORM.id user))))
                        (sum_prices
                           (resolved db' (cart_rows db' (UserORM.id user)))))).
  { intros db' Eu Eg. apply get_cart_lines; rewrite ?Eu, ?Eg; assumption. }
  assert (Hres : result
                 = committed db
                     (if q <=? 0 then Return (Cart.delete_cart_item db row)
                      else Cart.set_quantity db row q)
                     (Cart.get_cart current_user)).
  { unfold result, Cart.update_cart_item.
    rewrite <- Hname, (user_by_username_the_row db user Hu Hin). simpl.
    now rewrite Hlook. }
  rewrite Hres. split; [| split].
  - intros Hq. destruct (Z.leb_spec q 0) as [_ | ?]; [| lia]. subst cid.
    pose proof (Hcart (Cart.delete_cart_item db row) eq_refl eq_refl) as E.
    eexists _, _. split; [cbn [committed]; now rewrite E |].
    split; [exact E |]. intros others.
    assert (Hgone : forall (B : Type) (f : B -> Z) (l : list B),
              ~ In (CartItemORM.id row)
                  (map f (filter (fun x => negb (f x =? CartItemORM.id row)) l))).
    { intros B f l H. apply in_map_iff in H as (x & Hx & Hf).
      apply filter_In in Hf as [_ Hf]. rewrite Hx, Z.eqb_refl in Hf.
      discriminate. }
    cbn [CartResponse.items CartResponse.total].
    rewrite cart_rows_delete. fold others.
    split; [reflexivity |]. split; [apply Hgone |].
    split; [| split; reflexivity].
    unfold others. rewrite map_map. cbn [line_response CartItemResponse.id].
    apply (Hgone _ (fun l => CartItemORM.id (fst l))).
  - intros Hq Hqi. destruct (Z.leb_spec q 0) as [? | _]; [lia |]. subst cid.
    unfold Cart.set_quantity. rewrite (bind_int_ok q Hqi). cbn [bind committed].
    pose proof (Hcart (Cart.quantity_written db row q) eq_refl eq_refl) as E.
    eexists _, _. split; [now rewrite E |]. split; [exact E |].
    split; [reflexivity |]. split.
    + simpl. apply in_map_iff. exists row. now rewrite Z.eqb_refl.
    + simpl. intros c Hc' Hcid. apply in_map_iff in Hc' as (c0 & <- & _).
      destruct (CartItemORM.id c0 =? CartItemORM.id row) eqn:E0;
        [reflexivity |].
      apply Z.eqb_neq in E0. now destruct E0.
  - intros Hq Hqi. destruct (Z.leb_spec q 0) as [? | _]; [lia |].
    unfold Cart.set_quantity. now rewrite (bind_int_refused q Hqi).
Qed.

Lemma update_cart_item_quantity_witness :
  (exists db' cart,
     Cart.update_cart_item 2 (CartItemUpdate.mk 0) user2 demo_db
     = (db', Return cart)
     /\ cart_items db' = [CartItemORM.mk 1 2 1 2 0; CartItemORM.mk 3 3 99 4 0]
     /\ cart = CartResponse.mk [] 0%float)
  /\ exists db' cart,
       Cart.update_cart_item 2 (CartItemUpdate.mk 7) user2 demo_db
       = (db', Return cart)
       /\ cart_items db'
          = [CartItemORM.mk 1 2 1 2 0; CartItemORM.mk 2 3 2 7 0;
             CartItemORM.mk 3 3 99 4 0].
Proof.
  pose proof (fun q =>
    update_cart_item_quantity 2 q user2 demo_db
      (UserORM.mk 3 "user2" "#password2" false 0)
      (CartItemORM.mk 2 3 2 1 0) eq_refl
      (or_intror (or_intror (or_introl eq_refl))) eq_refl
      (or_intror (or_introl eq_refl)) eq_refl eq_refl eq_refl) as H.
  split.
  - destruct (proj1 (H 0) ltac:(lia)) as (db' & cart & E & _ & Hdel).
    exists db', cart. split; [exact E |].
    destruct Hdel as (Hrows & _ & _ & Hitems & Htotal).
    split; [exact Hrows |].
    destruct cart as [items total]. simpl in Hitems, Htotal.
    now rewrite Hitems, Htotal.
  - destruct (proj1 (proj2 (H 7)) ltac:(lia) eq_refl)
      as (db' & cart & E & _ & Hrows & _).
    exists db', cart. split; [exact E | exact Hrows].
Defined.

(** C4 as stated fails beyond the INTEGER column: with the quantity 2^63
    the commit raises and the stored quantity stays what it was. *)
Lemma update_cart_item_beyond_int64 :
  Cart.update_cart_item 2 (CartItemUpdate.mk 9223372036854775808) user2 demo_db
  = (demo_db, Raise OverflowError).
Proof. vm_compute. reflexivity. Qed.

(** C5. For a cart item id that exists but belongs to another user, both
    [update_cart_item] and [remove_from_cart] raise 404 "Cart item not
    found" (not 403) and the store is left as it was; the outcome is the
    one an id of the INTEGER column that no row has gets, so it tells
    nothing about the row. *)
Theorem foreign_cart_item_not_found (cid q : Z) (current_user : User.t)
  (db : DB) (user : UserORM.t) (row : CartItemORM.t) :
  constraints db = true ->
  In user (users db) ->
  UserORM.username user = User.username current_user ->
  In row (cart_items db) ->
  CartItemORM.id row = cid ->
  in_int64 cid = true ->
  CartItemORM.user_id row <> UserORM.id user ->
  let not_found := Raise (HTTPException 404 "Cart item not found") in
  Cart.update_cart_item cid (CartItemUpdate.mk q) current_user db
  = (db, not_found)
  /\ Cart.remove_from_cart cid current_user db = (db, not_found)
  /\ forall absent, in_int64 absent = true ->
       ~ In absent (map CartItemORM.id (cart_items db)) ->
       Cart.update_cart_item absent (CartItemUpdate.mk q) current_user db
       = (db, not_found)
       /\ Cart.remove_from_cart absent current_user db = (db, not_found).
Proof.
  intros Hc Hin Hname Hrow Hid Hci Hother not_found.
  destruct (constraints_parts db Hc) as (_ & Hu & _ & _).
  pose proof (own_cart_item_cases db cid user row Hc Hrow Hid Hci) as Hlook.
  apply Z.eqb_neq in Hother. rewrite Hother in Hlook.
  unfold Cart.update_cart_item, Cart.remove_from_cart.
  rewrite <- Hname, (user_by_username_the_row db user Hu Hin). simpl.
  rewrite Hlook. simpl.
  split; [reflexivity | split; [reflexivity |]].
  intros absent Hai Habs. unfold Cart.own_cart_item.
  rewrite (bind_int_ok absent Hai). cbn [bind]. rewrite filter_andb.
  rewrite (filter_absent Z.eqb CartItemORM.id Z.eqb_eq _ _ Habs).
  split; reflexivity.
Qed.

Lemma foreign_cart_item_not_found_witness :
  Cart.update_cart_item 2 (CartItemUpdate.mk 5) user1 demo_db
  = (demo_db, Raise (HTTPException 404 "Cart item not found"))
  /\ Cart.remove_from_cart 2 user1 demo_db
     = (demo_db, Raise (HTTPException 404 "Cart item not found")).
Proof.
  destruct (foreign_cart_item_not_found 2 5 user1 demo_db
              (UserORM.mk 2 "user1" "#password1" false 0)
              (CartItemORM.mk 2 3 2 1 0) eq_refl
              (or_intror (or_introl eq_refl)) eq_refl
              (or_intror (or_introl eq_refl)) eq_refl eq_refl
              ltac:(simpl; lia))
    as (E1 & E2 & _).
  split; assumption.
Defined.

(** ** Deleting a user *)

Lemma distinct_key_inj {A K : Type} (eqb : K -> K -> bool) (key : A -> K)
  (eqb_eq : forall x y, eqb x y = true <-> x = y) (l : list A) (x y : A) :
  distinct eqb (map key l) = true -> In x l -> In y l -> key x = key y ->
  x = y.
Proof.
  intros Hd Hx Hy E.
  pose proof (find_the_row eqb key eqb_eq l x Hd Hx) as Fx.
  pose proof (find_the_row eqb key eqb_eq l y Hd Hy) as Fy.
  rewrite E in Fx. congruence.
Qed.

Lemma delete_rows (rows : list CartItemORM.t) (db : DB) :
  let db' := fold_left Cart.delete_cart_item rows db in
  users db' = users db /\ gear_items db' = gear_items db
  /\ cart_items db'
     = filter (fun c => negb (existsb (fun r => CartItemORM.id c
                                               =? CartItemORM.id r) rows))
         (cart_items db).
Proof.
  revert db. induction rows as [| r rows IH]; intros db; simpl.
  - repeat split. induction (cart_items db) as [| c l IHl]; simpl; congruence.
  - destruct (IH (Cart.delete_cart_item db r)) as (Eu & Eg & Ec).
    rewrite Eu, Eg, Ec. repeat split. simpl.
    rewrite <- filter_andb. apply filter_ext. intros c.
    now rewrite negb_orb.
Qed.

Lemma delete_rows_of_user (db : DB) (uid : Z) :
  distinct Z.eqb (map CartItemORM.id (cart_items db)) = true ->
  cart_items (fold_left Cart.delete_cart_item (cart_rows db uid) db)
  = filter (fun c => negb (CartItemORM.user_id c =? uid)) (cart_items db).
Proof.
  intros Hd. destruct (delete_rows (cart_rows db uid) db) as (_ & _ & ->).
  apply filter_ext_in. intros c Hc. f_equal.
  destruct (Z.eqb_spec (CartItemORM.user_id c) uid) as [E | E].
  - apply existsb_exists. exists c. split; [| apply Z.eqb_refl].
    unfold cart_rows. apply filter_In. split; [assumption | lia].
  - destruct (existsb _ (cart_rows db uid)) eqn:X; [| reflexivity].
    apply existsb_exists in X as (r & Hr & Hid).
    unfold cart_rows in Hr. apply filter_In in Hr as [Hr Hu].
    apply Z.eqb_eq in Hid.
    rewrite (distinct_key_inj Z.eqb CartItemORM.id Z.eqb_eq _ c r Hd Hc Hr Hid)
      in E.
    lia.
Qed.

(** C7 (amended). [admin_delete_user] raises 404 when the given id is a
    value of the INTEGER column (signed 64-bit) that no user has.  When the
    target exists it raises 403, whoever the calling admin is, if the target
    has the caller's username or is the account named "admin" with
    [is_admin] set.  In these cases the store is left as it was.  Otherwise
    it returns, and in the one store it commits the target's row and every
    cart row of the target are gone and nothing else is touched, so no cart
    row refers to the deleted user. *)
Theorem admin_delete_user_cases (user_id : Z) (current_user : User.t)
  (db : DB) :
  constraints db = true ->
  in_int64 user_id = true ->
  let result := Admin.admin_delete_user user_id current_user db in
  (~ In user_id (map UserORM.id (users db)) ->
   result = (db, Raise (HTTPException 404 "User not found")))
  /\ forall target, In target (users db) -> UserORM.id target = user_id ->
       (UserORM.username target = User.username current_user
        \/ (UserORM.username target = "admin"
            /\ UserORM.is_admin target = true) ->
        exists detail, result = (db, Raise (HTTPException 403 detail)))
       /\ (UserORM.username target <> User.username current_user ->
           ~ (UserORM.username target = "admin"
              /\ UserORM.is_admin target = true) ->
           exists db',
             result = (db', Return tt)
             /\ users db'
                = filter (fun u => negb (UserORM.id u =? user_id)) (users db)
             /\ ~ In target (users db')
             /\ cart_items db'
                = filter (fun c => negb (CartItemORM.user_id c =? user_id))
                    (cart_items db)
             /\ gear_items db' = gear_items db
             /\ forall c, In c (cart_items db') ->
                          CartItemORM.user_id c <> user_id).
Proof.
  intros Hc Hui result.
  destruct (constraints_parts db Hc) as (Hi & _ & _ & Hd).
  split.
  - intros Habs. unfold result, Admin.admin_delete_user.
    rewrite (bind_int_ok user_id Hui). cbn [bind].
    now rewrite (filter_absent Z.eqb UserORM.id Z.eqb_eq _ _ Habs).
  - intros target Hin Hid. subst user_id.
    assert (E : result
                = committed db
                    (if String.eqb (UserORM.username target)
                          (User.username current_user)
                     then Raise (HTTPException 403
                                   "Cannot delete your own account")
                     else if String.eqb (UserORM.username target) "admin"
                             && UserORM.is_admin target
                     then Raise (HTTPException 403
                                   "Cannot delete the default admin account")
                     else
                       let db1 := fold_left Cart.delete_cart_item
                                    (cart_rows db (UserORM.id target)) db in
                       Return
                         (mkDB
                            (filter (fun u => negb (UserORM.id u
                                                    =? UserORM.id target))
                               (users db1))
                            (gear_items db1) (cart_items db1)))
                    (fun _ => Return tt)).
    { unfold result, Admin.admin_delete_user.
      rewrite (bind_int_ok _ Hui). cbn [bind].
      now rewrite (filter_the_row Z.eqb UserORM.id Z.eqb_eq _ _ Hi Hin). }
    rewrite E. split.
    + intros [Hself | [Hname Hadm]].
      * apply String.eqb_eq in Hself. rewrite Hself. simpl. eauto.
      * apply String.eqb_eq in Hname. rewrite Hname, Hadm. simpl.
        destruct (String.eqb _ _); simpl; eauto.
    + intros Hself Hprot.
      apply String.eqb_neq in Hself. rewrite Hself.
      assert (String.eqb (UserORM.username target) "admin"
              && UserORM.is_admin target = false) as ->.
      { apply not_true_is_false. intros H. apply andb_prop in H as [H1 H2].
        apply String.eqb_eq in H1. auto. }
      destruct (delete_rows (cart_rows db (UserORM.id target)) db)
        as (Eu & Eg & _).
      eexists. split; [reflexivity |]. cbn [users gear_items cart_items].
      rewrite Eu, Eg, (delete_rows_of_user db _ Hd).
      split; [reflexivity |]. split; [| split; [reflexivity | split]].
      * intros H. apply filter_In in H as [_ H]. rewrite Z.eqb_refl in H.
        discriminate.
      * reflexivity.
      * intros c H. apply filter_In in H as [_ H].
        apply negb_true_iff, Z.eqb_neq in H. exact H.
Qed.

Lemma admin_delete_user_cases_witness :
  Admin.admin_delete_user 7 admin demo_db
  = (demo_db, Raise (HTTPException 404 "User not found"))
  /\ exists db',
       Admin.admin_delete_user 3 admin demo_db = (db', Return tt)
       /\ cart_items db' = [CartItemORM.mk 1 2 1 2 0].
Proof.
  split.
  - apply (proj1 (admin_delete_user_cases 7 admin demo_db eq_refl eq_refl)).
    simpl. lia.
  - destruct (proj2 (admin_delete_user_cases 3 admin demo_db eq_refl eq_refl)
                (UserORM.mk 3 "user2" "#password2" false 0)
                (or_intror (or_intror (or_introl eq_refl))) eq_refl)
      as [_ H].
    destruct H as (db' & E & _ & _ & Hrows & _).
    + discriminate.
    + intros [H _]. discriminate.
    + exists db'. split; [exact E | exact Hrows].
Defined.

(** C7 as stated fails beyond the INTEGER column: no user has the id 2^63,
    and the request raises an [OverflowError], not the 404. *)
Lemma admin_delete_user_beyond_int64 :
  ~ In 9223372036854775808 (map UserORM.id (users demo_db))
  /\ Admin.admin_delete_user 9223372036854775808 admin demo_db
     = (demo_db, Raise OverflowError).
Proof.
  split; [simpl; lia | vm_compute; reflexivity].
Qed.

(** ** The authentication gate *)

Section Gate.

Variable jwt_decode : Z -> string -> option Claims.t.


End Gate.


(** ** Registration and login *)




Lemma rstrip_idempotent (s : string) : rstrip (rstrip s) = rstrip s.
Proof.
  induction s as [| c s IH]; simpl; [reflexivity |].
  destruct (rstrip s) as [| d r] eqn:E.
  - destruct (isspace c) eqn:Hc; simpl; [reflexivity |]. now rewrite Hc.
  - change (rstrip (String c (String d r))) with
      (match rstrip (String d r) with
       | EmptyString => if isspace c then EmptyString else String c EmptyString
       | r' => String c r'
       end).
    now rewrite IH.
Qed.

Lemma lstrip_head (s : string) :
  lstrip s = "" \/ exists c r, lstrip s = String c r /\ isspace c = false.
Proof.
  induction s as [| c s IH]; simpl; [now left |].
  destruct (isspace c) eqn:Hc; [exact IH |]. right. eauto.
Qed.

Lemma strip_idempotent (s : string) : strip (strip s) = strip s.
Proof.
  unfold strip.
  assert (E : lstrip (rstrip (lstrip s)) = rstrip (lstrip s)).
  { destruct (lstrip_head s) as [-> | (c & r & -> & Hc)]; [reflexivity |].
    simpl. destruct (rstrip r); rewrite ?Hc; simpl; now rewrite Hc. }
  rewrite E. apply rstrip_idempotent.
Qed.

Lemma distinct_snoc {K : Type} (eqb : K -> K -> bool)
  (eqb_sym : forall x y, eqb x y = eqb y x) (l : list K) (k : K) :
  distinct eqb l = true -> existsb (fun x => eqb x k) l = false ->
  distinct eqb (l ++ [k]) = true.
Proof.
  induction l as [| a l IH]; simpl; [reflexivity |].
  intros H Hk. apply andb_prop in H as [Ha Hl].
  apply orb_false_elim in Hk as [Hak Hlk].
  rewrite (IH Hl Hlk), andb_true_r.
  rewrite existsb_app. simpl. rewrite Hak, orb_false_r.
  apply negb_true_iff in Ha. now rewrite Ha.
Qed.

Section Accounts.

Variable pwd_hash : string -> string -> string.
Variable pwd_verify : string -> string -> bool.
Variable jwt_encode : Claims.t -> string.

(** The contract of the hashing context: a password verifies against any
    hash made of it. *)
Hypothesis verify_hash :
  forall salt password, pwd_verify password (pwd_hash salt password) = true.

(** What an accepted registration has checked and written. *)
Lemma register_user_accepted (now : Z) (salt : string)
  (payload : RegisterRequest.t) (db db' : DB) (msg : string) :
  Auth.register_user pwd_hash now salt payload db = (db', Return msg) ->
  let username := strip (RegisterRequest.username payload) in
  let password := RegisterRequest.password payload in
  (3 <= String.length username <= 32)%nat
  /\ any_isspace username = false
  /\ (6 <= String.length password <= 128)%nat
  /\ filter (fun u => String.eqb (sql_lower (UserORM.username u))
                        (py_lower username)) (users db) = []
  /\ existsb (fun u => String.eqb (UserORM.username u) username) (users db)
     = false
  /\ db' = mkDB (users db ++
                   [UserORM.mk (next_rowid (map UserORM.id (users db)))
                      username (pwd_hash salt password) false now])
             (gear_items db) (cart_items db)
  /\ msg = "registered".
Proof.
  intros H username password.
  unfold Auth.register_user, Auth.insert_user in H.
  fold username password in H.
  destruct (_ || _)%bool eqn:E1 in H; [discriminate |].
  destruct (any_isspace username) eqn:E2; [discriminate |].
  destruct (_ || _)%bool eqn:E3 in H; [discriminate |].
  apply orb_false_elim in E1 as [E1a E1b], E3 as [E3a E3b].
  apply Nat.ltb_ge in E1a, E1b, E3a, E3b.
  destruct (filter _ (users db)) as [| a [| b r]] eqn:E4; simpl in H;
    try discriminate.
  destruct (existsb _ (users db)) eqn:E5; simpl in H; [discriminate |].
  injection H as <- <-. repeat split; assumption.
Qed.

Lemma login_registered (now' : Z) (db : DB) (row : UserORM.t) (password : string) :
  distinct String.eqb (map UserORM.username (users db)) = true ->
  In row (users db) ->
  pwd_verify password (UserORM.hashed_password row) = true ->
  Auth.login_for_access_token pwd_verify jwt_encode now'
    (OAuth2PasswordRequestForm.mk (UserORM.username row) password) db
  = Return (Token.mk
              (jwt_encode (Claims.mk (Some (UserORM.username row))
                             (Some (now' + 3600))))
              "bearer").
Proof.
  intros Hd Hin Hv.
  unfold Auth.login_for_access_token, Auth.authenticate_user,
    Auth.verify_password. simpl.
  rewrite (user_by_username_the_row db row Hd Hin). simpl.
  rewrite Hv. reflexivity.
Qed.

(** The login that follows an accepted registration, with the registered
    username. *)
Lemma login_after_register (now now' : Z) (salt : string)
  (payload : RegisterRequest.t) (db db' : DB) (msg : string) :
  constraints db = true ->
  Auth.register_user pwd_hash now salt payload db = (db', Return msg) ->
  Auth.login_for_access_token pwd_verify jwt_encode now'
    (OAuth2PasswordRequestForm.mk (strip (RegisterRequest.username payload))
       (RegisterRequest.password payload)) db'
  = Return (Token.mk
              (jwt_encode
                 (Claims.mk (Some (strip (RegisterRequest.username payload)))
                    (Some (now' + 60 * 60))))
              "bearer").
Proof.
  intros Hc Hreg.
  destruct (constraints_parts db Hc) as (_ & Hu & _ & _).
  destruct (register_user_accepted now salt payload db db' msg Hreg)
    as (_ & _ & _ & _ & Hnew & -> & _).
  set (registered := strip (RegisterRequest.username payload)) in *.
  set (password := RegisterRequest.password payload) in *.
  set (row := UserORM.mk (next_rowid (map UserORM.id (users db))) registered
                (pwd_hash salt password) false now).
  apply (login_registered now' _ row password).
  - simpl. rewrite map_app. simpl.
    apply distinct_snoc; [apply String.eqb_sym | exact Hu |].
    rewrite <- Hnew. clear. induction (users db) as [| a l IH]; simpl;
      [reflexivity | now rewrite IH].
  - simpl. apply in_or_app. right. now left.
  - apply verify_hash.
Qed.


(** A request that passes the checks of [register_user] is accepted. *)
Lemma register_user_accepts (now : Z) (salt : string)
  (payload : RegisterRequest.t) (db : DB) :
  let username := strip (RegisterRequest.username payload) in
  let password := RegisterRequest.password payload in
  (3 <= String.length username <= 32)%nat ->
  any_isspace username = false ->
  (6 <= String.length password <= 128)%nat ->
  (forall u, In u (users db) ->
     sql_lower (UserORM.username u) <> py_lower username) ->
  (forall u, In u (users db) -> UserORM.username u <> username) ->
  Auth.register_user pwd_hash now salt payload db
  = (mkDB (users db ++
             [UserORM.mk (next_rowid (map UserORM.id (users db)))
                username (pwd_hash salt password) false now])
       (gear_items db) (cart_items db),
     Return "registered").
Proof.
  intros username password Hlen Hws Hpw Hdup Hidx.
  unfold Auth.register_user, Auth.insert_user. fold username password.
  assert ((String.length username <? 3)%nat = false) as ->
    by (apply Nat.ltb_ge; lia).
  assert ((32 <? String.length username)%nat = false) as ->
    by (apply Nat.ltb_ge; lia).
  assert ((String.length password <? 6)%nat = false) as ->
    by (apply Nat.ltb_ge; lia).
  assert ((128 <? String.length password)%nat = false) as ->
    by (apply Nat.ltb_ge; lia).
  rewrite Hws. cbn [orb].
  rewrite filter_none
    by (intros u Hu; apply String.eqb_neq; now apply Hdup).
  cbn [scalar_one_or_none bind].
  assert (existsb (fun u => String.eqb (UserORM.username u) username) (users db)
          = false) as ->.
  { apply not_true_is_false. intros H.
    apply existsb_exists in H as (u & Hu & E). apply String.eqb_eq in E.
    now apply (Hidx u Hu). }
  reflexivity.
Qed.

(** C10. [register_user] validates and stores the trimmed username.  A
    request and the same request with its username trimmed have the same
    outcome on every store.  When the trimmed username is valid (3 to 32
    characters, none of them whitespace, and no user has it, neither up to
    letter case as the duplicate check compares nor exactly) and the
    password has 6 to 128 characters, the request is accepted whatever
    whitespace surrounds the submitted username, and the row added to
    [users] carries the trimmed username.  A later login with the trimmed
    username and the password succeeds, and a login with a submitted
    username that differs from the trimmed one is refused with 401, no user
    having that name. *)
Theorem register_user_trims (now now' : Z) (salt : string)
  (payload : RegisterRequest.t) (db : DB) :
  let submitted := RegisterRequest.username payload in
  let username := strip submitted in
  let password := RegisterRequest.password payload in
  constraints db = true ->
  (3 <= String.length username <= 32)%nat ->
  any_isspace username = false ->
  (6 <= String.length password <= 128)%nat ->
  (forall u, In u (users db) ->
     sql_lower (UserORM.username u) <> py_lower username) ->
  (forall u, In u (users db) -> UserORM.username u <> username) ->
  let row :=
    UserORM.mk (next_rowid (map UserORM.id (users db))) username
      (pwd_hash salt password) false now in
  let db' := mkDB (users db ++ [row]) (gear_items db) (cart_items db) in
  Auth.register_user pwd_hash now salt payload db = (db', Return "registered")
  /\ Auth.register_user pwd_hash now salt
       (RegisterRequest.mk username password) db
     = (db', Return "registered")
  /\ Auth.login_for_access_token pwd_verify jwt_encode now'
       (OAuth2PasswordRequestForm.mk username password) db'
     = Return (Token.mk
                 (jwt_encode (Claims.mk (Some username)
                                (Some (now' + 60 * 60))))
                 "bearer")
  /\ (username <> submitted ->
      (forall u, In u (users db) -> UserORM.username u <> submitted) ->
      Auth.login_for_access_token pwd_verify jwt_encode now'
        (OAuth2PasswordRequestForm.mk submitted password) db'
      = Raise (HTTPException 401 "Incorrect username or password")).
Proof.
  intros submitted username password Hc Hlen Hws Hpw Hdup Hidx row db'.
  pose proof (register_user_accepts now salt payload db Hlen Hws Hpw Hdup Hidx)
    as Hreg.
  fold submitted username password row db' in Hreg.
  split; [exact Hreg | split; [| split]].
  - rewrite <- Hreg. unfold Auth.register_user. simpl.
    fold submitted username password.
    assert (E : strip username = username) by apply strip_idempotent.
    now rewrite E.
  - exact (login_after_register now now' salt payload db db' _ Hc Hreg).
  - intros Hdiff Hnone.
    unfold Auth.login_for_access_token, Auth.authenticate_user,
      user_by_username. simpl.
    rewrite filter_app. simpl.
    destruct (String.eqb_spec username submitted) as [E | _];
      [contradiction |].
    rewrite filter_none; [reflexivity |].
    intros u Hin. apply String.eqb_neq. now apply Hnone.
Qed.

End Accounts.

Lemma plain_verify_hash (salt password : string) :
  plain_verify password (plain_hash salt password) = true.
Proof. apply String.eqb_refl. Qed.


Lemma register_user_trims_witness :
  Auth.register_user plain_hash 5 "salt"
    (RegisterRequest.mk "  carol " "secret1") demo_db
  = (mkDB (demo_users ++ [UserORM.mk 5 "carol" "secret1" false 5])
       demo_gear demo_cart,
     Return "registered").
Proof.
  refine (proj1
    (register_user_trims plain_hash plain_verify plain_encode
       plain_verify_hash 5 9 "salt" (RegisterRequest.mk "  carol " "secret1")
       demo_db eq_refl _ eq_refl _ _ _)).
  - simpl; lia.
  - simpl; lia.
  - intros u Hu. simpl in Hu.
    destruct Hu as [<- | [<- | [<- | [<- | []]]]]; discriminate.
  - intros u Hu. simpl in Hu.
    destruct Hu as [<- | [<- | [<- | [<- | []]]]]; discriminate.
Defined.


(** ** Listing order *)

Lemma precedes_trans {A : Type} (cmp : ordering A) (L : order_laws cmp)
  (a b c : A) :
  precedes cmp a b -> precedes cmp b c -> precedes cmp a c.
Proof.
  unfold precedes. intros Hab Hbc.
  destruct (cmp a b) eqn:Eab; [| | congruence].
  - now rewrite (law_eq cmp L a b c Eab).
  - destruct (cmp b c) eqn:Ebc; [| | congruence].
    + pose proof (law_antisym cmp L b c) as Hcb. rewrite Ebc in Hcb.
      pose proof (law_eq cmp L c b a Hcb) as E.
      rewrite (law_antisym cmp L a b), Eab in E.
      rewrite (law_antisym cmp L c a), E. discriminate.
    + rewrite (law_lt cmp L a b c Eab Ebc). discriminate.
Qed.

Lemma precedes_total {A : Type} (cmp : ordering A) (L : order_laws cmp)
  (a b : A) :
  cmp a b = Gt -> precedes cmp b a.
Proof.
  unfold precedes. intros E. rewrite (law_antisym cmp L a b), E. discriminate.
Qed.

Lemma Z_compare_laws : order_laws Z.compare.
Proof.
  split.
  - intros a b. apply Z.compare_antisym.
  - intros a b c E. apply Z.compare_eq in E. now subst.
  - intros a b c. apply Z.lt_trans.
Qed.

Lemma N_compare_laws : order_laws N.compare.
Proof.
  split.
  - intros a b. apply N.compare_antisym.
  - intros a b c E. apply N.compare_eq in E. now subst.
  - intros a b c. apply N.lt_trans.
Qed.

Lemma Bool_compare_laws : order_laws Bool.compare.
Proof.
  split.
  - now intros [] [].
  - now intros [] [] [].
  - now intros [] [] [].
Qed.

Lemma String_compare_laws : order_laws String.compare.
Proof.
  split.
  - intros a b. apply String.compare_antisym.
  - intros a b c E. apply String.compare_eq_iff in E. now subst.
  - intros a. induction a as [| x a IH]; intros [| y b] [| z c]; simpl;
      try discriminate; try reflexivity.
    unfold Ascii.compare.
    destruct (N.compare (N_of_ascii x) (N_of_ascii y)) eqn:Exy;
      try discriminate.
    + rewrite (law_eq _ N_compare_laws _ _ (N_of_ascii z) Exy).
      destruct (N.compare (N_of_ascii y) (N_of_ascii z)); try discriminate;
        [apply IH | reflexivity].
    + intros _.
      destruct (N.compare (N_of_ascii y) (N_of_ascii z)) eqn:Eyz;
        try discriminate; intros _.
      * apply N.compare_eq in Eyz. now rewrite <- Eyz, Exy.
      * now rewrite (law_lt _ N_compare_laws _ _ _ Exy Eyz).
Qed.

Lemma asc_laws {A K : Type} (cmp : K -> K -> comparison) (key : A -> K) :
  order_laws cmp -> order_laws (asc cmp key).
Proof.
  intros L. unfold asc. split; intros.
  - apply (law_antisym cmp L).
  - now apply (law_eq cmp L).
  - now apply (law_lt cmp L) with (b := key b).
Qed.

Lemma desc_laws {A K : Type} (cmp : K -> K -> comparison) (key : A -> K) :
  order_laws cmp -> order_laws (desc cmp key).
Proof.
  intros L. unfold desc. split.
  - intros a b. apply (law_antisym cmp L).
  - intros a b c E.
    rewrite (law_antisym cmp L (key a) (key b)) in E.
    apply CompOpp_iff in E. simpl in E.
    rewrite (law_antisym cmp L (key a) (key c)).
    rewrite (law_antisym cmp L (key b) (key c)).
    f_equal. now apply (law_eq cmp L).
  - intros a b c H1 H2. now apply (law_lt cmp L) with (b := key b).
Qed.

Lemma nullable_laws {K : Type} (cmp : K -> K -> comparison) :
  order_laws cmp -> order_laws (nullable_compare cmp).
Proof.
  intros L. split.
  - intros [a |] [b |]; simpl; try reflexivity. apply (law_antisym cmp L).
  - intros [a |] [b |] [c |]; simpl; try discriminate; try reflexivity.
    apply (law_eq cmp L).
  - intros [a |] [b |] [c |]; simpl; try discriminate; try reflexivity.
    apply (law_lt cmp L).
Qed.

Lemma lex_laws {A : Type} (terms : list (ordering A)) :
  Forall order_laws terms -> order_laws (lex terms).
Proof.
  induction 1 as [| t terms Lt _ IH]; split; simpl; try easy.
  - intros a b. rewrite (law_antisym t Lt a b).
    destruct (t a b); simpl; auto. apply (law_antisym _ IH).
  - intros a b c. destruct (t a b) eqn:E; try discriminate.
    rewrite (law_eq t Lt a b c E). intros E'.
    destruct (t b c); auto. now apply (law_eq _ IH).
  - intros a b c.
    destruct (t a b) eqn:Eab; try discriminate.
    + rewrite (law_eq t Lt a b c Eab).
      destruct (t b c); try discriminate; auto. apply (law_lt _ IH).
    + intros _. destruct (t b c) eqn:Ebc; try discriminate; intros _.
      * pose proof (law_antisym t Lt b c) as Hcb. rewrite Ebc in Hcb.
        pose proof (law_eq t Lt c b a Hcb) as E.
        rewrite (law_antisym t Lt a b), Eab in E.
        now rewrite (law_antisym t Lt c a), E.
      * now rewrite (law_lt t Lt a b c Eab Ebc).
Qed.

Lemma order_laws_ext {A : Type} (cmp cmp' : A -> A -> comparison) :
  (forall a b, cmp a b = cmp' a b) -> order_laws cmp' -> order_laws cmp.
Proof.
  intros E L. split; intros *; rewrite !E.
  - apply (law_antisym cmp' L).
  - apply (law_eq cmp' L).
  - apply (law_lt cmp' L).
Qed.

Lemma is_nan_Prim2SF (x : float) :
  is_nan x = match Prim2SF x with S754_nan => true | _ => false end.
Proof.
  unfold Prim2SF. destruct (is_nan x); [reflexivity |].
  destruct (is_zero x); [reflexivity |].
  destruct (is_infinity x); [reflexivity |].
  destruct (Z.frexp x) as [r e].
  destruct (shr_fexp _ _ _ _ _) as [shr e'].
  now destruct (shr_m shr).
Qed.

Lemma real_compare_rank (x y : float) :
  real_compare x y = rank_compare (rank (Prim2SF x)) (rank (Prim2SF y)).
Proof.
  unfold real_compare. rewrite compare_spec, !is_nan_Prim2SF.
  unfold rank_compare, asc.
  destruct (Prim2SF x) as [[] | [] | | [] m1 e1],
           (Prim2SF y) as [[] | [] | | [] m2 e2];
    try reflexivity; cbn [SFcompare flatten_cmp_opt rank lex fst snd].
  - rewrite Z.compare_opp, (Z.compare_antisym e1 e2).
    change (Z.neg m1 ?= Z.neg m2) with (CompOpp (Pos.compare_cont Eq m1 m2)).
    change (2 ?= 2) with Eq. cbv iota.
    destruct (e1 ?= e2); try reflexivity. simpl.
    now destruct (Pos.compare_cont Eq m1 m2).
  - change (Z.pos m1 ?= Z.pos m2) with (Pos.compare_cont Eq m1 m2).
    change (4 ?= 4) with Eq. cbv iota.
    destruct (e1 ?= e2); try reflexivity.
    now destruct (Pos.compare_cont Eq m1 m2).
Qed.

Lemma real_compare_laws : order_laws real_compare.
Proof.
  apply (order_laws_ext _ (asc rank_compare (fun x => rank (Prim2SF x)))).
  - exact real_compare_rank.
  - apply asc_laws, lex_laws.
    repeat apply Forall_cons; try apply Forall_nil;
      apply asc_laws, Z_compare_laws.
Qed.

(** ** Sorting *)

Section Sorting.

Context {A : Type} (cmp : ordering A).
Hypothesis laws : order_laws cmp.

Lemma insert_row_in (x y : A) (l : list A) :
  In y (insert_row cmp x l) <-> y = x \/ In y l.
Proof.
  induction l as [| a l IH]; simpl; [intuition congruence |].
  destruct (cmp x a); simpl; rewrite ?IH; intuition congruence.
Qed.

Lemma insert_row_sorted (x : A) (l : list A) :
  StronglySorted (precedes cmp) l ->
  StronglySorted (precedes cmp) (insert_row cmp x l).
Proof.
  induction 1 as [| a l Hs IH Ha]; simpl.
  - repeat constructor.
  - destruct (cmp x a) eqn:E.
    + constructor; [now constructor |].
      constructor; [unfold precedes; congruence |].
      apply Forall_forall. intros y Hy.
      apply (precedes_trans cmp laws x a y); [unfold precedes; congruence |].
      now apply (proj1 (Forall_forall _ _) Ha).
    + constructor; [now constructor |].
      constructor; [unfold precedes; congruence |].
      apply Forall_forall. intros y Hy.
      apply (precedes_trans cmp laws x a y); [unfold precedes; congruence |].
      now apply (proj1 (Forall_forall _ _) Ha).
    + constructor; [exact IH |].
      apply Forall_forall. intros y Hy. apply insert_row_in in Hy.
      destruct Hy as [-> | Hy].
      * now apply precedes_total.
      * now apply (proj1 (Forall_forall _ _) Ha).
Qed.

Lemma insert_row_perm (x : A) (l : list A) :
  Permutation (x :: l) (insert_row cmp x l).
Proof.
  induction l as [| a l IH]; simpl; [reflexivity |].
  destruct (cmp x a); try reflexivity.
  rewrite perm_swap. now constructor.
Qed.

End Sorting.

Lemma order_by_sorted {A : Type} (terms : list (ordering A)) (rows : list A) :
  Forall order_laws terms ->
  StronglySorted (precedes (lex terms)) (order_by terms rows).
Proof.
  intros L. unfold order_by.
  induction rows as [| x rows IH]; simpl; [constructor |].
  apply insert_row_sorted; [now apply lex_laws | exact IH].
Qed.

Lemma order_by_perm {A : Type} (terms : list (ordering A)) (rows : list A) :
  Permutation rows (order_by terms rows).
Proof.
  unfold order_by. induction rows as [| x rows IH]; simpl; [reflexivity |].
  rewrite <- insert_row_perm. now constructor.
Qed.

Lemma sorted_skipn {A : Type} (R : A -> A -> Prop) (n : nat) (l : list A) :
  StronglySorted R l -> StronglySorted R (skipn n l).
Proof.
  revert l. induction n as [| n IH]; intros l H; simpl; [exact H |].
  destruct H; [constructor | now apply IH].
Qed.

Lemma sorted_firstn {A : Type} (R : A -> A -> Prop) (n : nat) (l : list A) :
  StronglySorted R l -> StronglySorted R (firstn n l).
Proof.
  revert l. induction n as [| n IH]; intros l H; simpl; [constructor |].
  destruct H as [| a l Hs Ha]; constructor; [now apply IH |].
  apply Forall_forall. intros y Hy.
  apply (proj1 (Forall_forall _ _) Ha). revert Hy. clear.
  revert l. induction n as [| n IH]; intros [| b l]; simpl; try tauto.
  intros [-> | H]; [now left | right; now apply IH].
Qed.

Lemma sorted_map {A B : Type} (f : A -> B) (R : B -> B -> Prop) (l : list A) :
  StronglySorted (fun a b => R (f a) (f b)) l -> StronglySorted R (map f l).
Proof.
  induction 1 as [| a l Hs IH Ha]; simpl; constructor; [exact IH |].
  apply Forall_forall. intros y Hy. apply in_map_iff in Hy as (x & <- & Hx).
  now apply (proj1 (Forall_forall _ _) Ha).
Qed.

Lemma sorted_weaken {A : Type} (R R' : A -> A -> Prop) (l : list A) :
  (forall a b, R a b -> R' a b) -> StronglySorted R l -> StronglySorted R' l.
Proof.
  intros W. induction 1 as [| a l Hs IH Ha]; constructor; [exact IH |].
  apply Forall_forall. intros y Hy. apply W.
  now apply (proj1 (Forall_forall _ _) Ha).
Qed.

Lemma rating_terms_order (first tie : ordering GearItemORM.t)
  (tie' : ordering GearItem.t) (a b : GearItemORM.t) :
  (forall a b, first a b
               = desc (nullable_compare real_compare) GearItemORM.rating a b) ->
  (forall a b, tie a b = tie' (to_schema a) (to_schema b)) ->
  precedes (lex [first; tie]) a b ->
  in_rating_order tie' (to_schema a) (to_schema b).
Proof.
  intros Hfirst Htie. unfold precedes, in_rating_order. simpl.
  rewrite Hfirst, Htie. unfold desc.
  destruct (GearItemORM.rating a) as [x |], (GearItemORM.rating b) as [y |];
    simpl; try tauto; try congruence.
  - rewrite (law_antisym _ real_compare_laws x y).
    destruct (real_compare x y); simpl; intros H; try congruence.
    + right. split; [reflexivity |]. now destruct (tie' _ _).
    + now left.
  - now destruct (tie' _ _).
Qed.

Lemma page_in_rating_order (terms : list (ordering GearItemORM.t))
  (tie : ordering GearItem.t) (start size : Z) (rows : list GearItemORM.t) :
  Forall order_laws terms ->
  (forall a b, precedes (lex terms) a b ->
               in_rating_order tie (to_schema a) (to_schema b)) ->
  StronglySorted (in_rating_order tie)
    (map to_schema (offset_limit start size (order_by terms rows))).
Proof.
  intros L W. apply sorted_map. unfold offset_limit.
  apply sorted_firstn, sorted_skipn.
  apply (sorted_weaken (precedes (lex terms))); [exact W |].
  now apply order_by_sorted.
Qed.

(** C8. The admin listing sorted by [rating_desc] answers a page in
    rating order, descending, the items without a rating after all the rated
    ones, and items of equal rating (and the unrated ones) by
    case-insensitive name ascending; it raises nothing but the error of a
    search pattern SQLite refuses.  The public listing has no such page:
    for the sort key [rating_desc] it raises on every request, whatever the
    filter, the search term, the page and the store. *)
Theorem rating_desc_order (category : option Category) (q : option string)
  (page page_size : Z) (who : User.t) (db : DB) :
  sorted_page q (in_rating_order by_name)
    (Admin.admin_list_gear category q (Some "rating_desc") page page_size
       who db)
  /\ Catalog.list_gear category q (Some "rating_desc") page page_size db
     = Raise OperationalError.
Proof.
  split.
  - unfold sorted_page.
    destruct (admin_list_gear_cases category q (Some "rating_desc") page
                page_size who db)
      as [(start & total & shown & pages & ->) | [-> Hq]];
      [| split; [reflexivity | exact Hq]].
    cbn [PagedResponse.items]. apply page_in_rating_order.
    + apply Forall_cons; [| apply Forall_cons; [| apply Forall_nil]].
      * apply desc_laws, nullable_laws, real_compare_laws.
      * apply asc_laws, String_compare_laws.
    + intros a b. now apply rating_terms_order.
  - destruct (list_gear_cases category q (Some "rating_desc") page page_size db)
      as [(terms & start & total & shown & pages & Ht & _) | [E _]];
      [discriminate Ht | exact E].
Qed.

(** * Further properties of the handlers *)

(** ** More on the authentication gate and the accounts *)

Section Sessions.

Variable pwd_verify : string -> string -> bool.
Variable jwt_encode : Claims.t -> string.
Variable jwt_decode : Z -> string -> option Claims.t.

(** X1. On a store that meets its constraints, [login_for_access_token] answers
    401 'Incorrect username or password' when no user row has exactly the
    submitted username, and the very same exception when the row's hash does
    not verify the password; when the hash verifies it returns a bearer token
    whose claims are the username as subject and an expiry 60 minutes after
    the request. *)
Theorem login_cases (now : Z) (form_data : OAuth2PasswordRequestForm.t)
  (db : DB) :
  constraints db = true ->
  let username := OAuth2PasswordRequestForm.username form_data in
  let password := OAuth2PasswordRequestForm.password form_data in
  let result :=
    Auth.login_for_access_token pwd_verify jwt_encode now form_data db in
  let refused := Raise (HTTPException 401 "Incorrect username or password") in
  (~ In username (map UserORM.username (users db)) -> result = refused)
  /\ forall row, In row (users db) -> UserORM.username row = username ->
       (pwd_verify password (UserORM.hashed_password row) = false ->
        result = refused)
       /\ (pwd_verify password (UserORM.hashed_password row) = true ->
           result
           = Return (Token.mk
                       (jwt_encode (Claims.mk (Some username)
                                      (Some (now + 60 * 60))))
                       "bearer")).
Proof.
  intros Hc username password result refused.
  destruct (constraints_parts db Hc) as (_ & Hu & _ & _).
  unfold result, Auth.login_for_access_token, Auth.authenticate_user,
    Auth.verify_password. fold username password.
  split.
  - intros Habs. unfold user_by_username.
    now rewrite (filter_absent String.eqb UserORM.username String.eqb_eq _ _ Habs).
  - intros row Hin Hname. rewrite <- Hname.
    rewrite (user_by_username_the_row db row Hu Hin). simpl.
    split; intros ->; reflexivity.
Qed.

Lemma get_current_user_returns (now : Z) (oauth2_token : option string)
  (http_auth : option HTTPAuthorizationCredentials.t) (db : DB) (u : User.t) :
  Auth.get_current_user jwt_decode now oauth2_token http_auth db = Return u ->
  exists token payload row,
    Auth.presented_token oauth2_token http_auth = Some token
    /\ jwt_decode now token = Some payload
    /\ Claims.sub payload = Some (UserORM.username row)
    /\ In row (users db)
    /\ u = User.mk (UserORM.username row) (UserORM.is_admin row) None.
Proof.
  unfold Auth.get_current_user, Auth.verify_token.
  destruct (Auth.presented_token oauth2_token http_auth) as [[| c t] |];
    try discriminate.
  destruct (jwt_decode now (String c t)) as [payload |] eqn:Ed;
    try discriminate.
  destruct (Claims.sub payload) as [[| c' n] |] eqn:Es; try discriminate.
  unfold user_by_username.
  destruct (filter _ (users db)) as [| row [| r2 rest]] eqn:Ef; simpl;
    try discriminate.
  intros H. injection H as <-.
  assert (Hin : In row (filter (fun u0 => String.eqb (UserORM.username u0)
                                            (String c' n)) (users db)))
    by (rewrite Ef; now left).
  apply filter_In in Hin as [Hin Hname]. apply String.eqb_eq in Hname.
  exists (String c t), payload, row. rewrite Hname. auto.
Qed.

(** X2. [get_current_admin] behind [get_current_user]: the pair returns an
    identity only if [get_current_user] returned that identity and a user row
    of that name has [is_admin] set; an identity that is not an admin gets
    403 'Admin access required'; whatever [get_current_user] raises passes
    through unchanged. *)
Theorem admin_gate (now : Z) (oauth2_token : option string)
  (http_auth : option HTTPAuthorizationCredentials.t) (db : DB) :
  let identity := Auth.get_current_user jwt_decode now oauth2_token http_auth db in
  let gate := u <- identity ;; Auth.get_current_admin u in
  (forall u, gate = Return u ->
     identity = Return u
     /\ exists row, In row (users db)
          /\ UserORM.username row = User.username u
          /\ UserORM.is_admin row = true)
  /\ (forall u, identity = Return u -> User.is_admin u = false ->
        gate = Raise (HTTPException 403 "Admin access required"))
  /\ (forall e, identity = Raise e -> gate = Raise e).
Proof.
  intros identity gate. unfold gate. repeat split.
  - destruct identity as [v | e] eqn:E; simpl in H; [| discriminate].
    unfold Auth.get_current_admin in H.
    destruct (User.is_admin v); simpl in H; [| discriminate]. congruence.
  - destruct identity as [v | e] eqn:E; simpl in H; [| discriminate].
    unfold Auth.get_current_admin in H.
    destruct (User.is_admin v) eqn:Ea; simpl in H; [| discriminate].
    injection H as <-.
    destruct (get_current_user_returns _ _ _ _ _ E)
      as (token & payload & row & _ & _ & _ & Hin & ->).
    exists row. simpl in Ea. auto.
  - intros u -> Hu. simpl. unfold Auth.get_current_admin. now rewrite Hu.
  - intros e ->. reflexivity.
Qed.

(** The contract of the token library the round trip needs: a token it
    made for a non-empty subject is a non-empty string, and it decodes,
    before its expiry, to a payload with the same subject. *)
Hypothesis decode_encode :
  forall (now exp : Z) (subject : string),
    subject <> "" -> now < exp ->
    jwt_encode (Claims.mk (Some subject) (Some exp)) <> ""
    /\ exists payload,
         jwt_decode now (jwt_encode (Claims.mk (Some subject) (Some exp)))
         = Some payload
         /\ Claims.sub payload = Some subject.

(** X3. Given a token library that decodes, before their expiry, the tokens it
    encodes: the token a login with a non-empty username returns is accepted
    by [get_current_user] at any time before the 60 minutes have passed, as
    the OAuth2 token and as HTTP bearer credentials alike, and resolves to
    the username and admin flag of the user row that logged in. *)
Theorem login_then_current_user (now later : Z)
  (form_data : OAuth2PasswordRequestForm.t) (db : DB) (token : Token.t) :
  constraints db = true ->
  OAuth2PasswordRequestForm.username form_data <> "" ->
  Auth.login_for_access_token pwd_verify jwt_encode now form_data db
  = Return token ->
  later < now + 60 * 60 ->
  exists row,
    In row (users db)
    /\ UserORM.username row = OAuth2PasswordRequestForm.username form_data
    /\ let identity :=
         Return (User.mk (UserORM.username row) (UserORM.is_admin row) None) in
       Auth.get_current_user jwt_decode later
         (Some (Token.access_token token)) None db = identity
       /\ Auth.get_current_user jwt_decode later None
            (Some (HTTPAuthorizationCredentials.mk "Bearer"
                     (Token.access_token token))) db = identity.
Proof.
  intros Hc Hne Hlogin Hlater.
  destruct (constraints_parts db Hc) as (_ & Hu & _ & _).
  unfold Auth.login_for_access_token, Auth.authenticate_user,
    Auth.verify_password, user_by_username in Hlogin.
  destruct (filter _ (users db)) as [| row [| r2 rest]] eqn:Ef;
    simpl in Hlogin; try discriminate.
  destruct (pwd_verify _ _); simpl in Hlogin; [| discriminate].
  injection Hlogin as <-.
  assert (Hin : In row (filter (fun u => String.eqb (UserORM.username u)
                   (OAuth2PasswordRequestForm.username form_data)) (users db)))
    by (rewrite Ef; now left).
  apply filter_In in Hin as [Hin Hname]. apply String.eqb_eq in Hname.
  exists row. split; [exact Hin | split; [exact Hname |]].
  unfold Auth.create_access_token, Auth.ACCESS_TOKEN_EXPIRE_MINUTES.
  cbn [Token.access_token].
  rewrite <- Hname in Hne.
  destruct (decode_encode later (now + 60 * 60) (UserORM.username row)
              Hne Hlater) as (Hnonempty & payload & Hdec & Hsub).
  set (tok := jwt_encode _) in *.
  assert (E : forall o h, Auth.presented_token o h = Some tok ->
            Auth.get_current_user jwt_decode later o h db
            = Return (User.mk (UserORM.username row) (UserORM.is_admin row) None)).
  { intros o h Hp. unfold Auth.get_current_user, Auth.verify_token.
    rewrite Hp. destruct tok as [| c t]; [congruence |].
    rewrite Hdec, Hsub.
    destruct (UserORM.username row) as [| c' n] eqn:En; [congruence |].
    rewrite <- En, (user_by_username_the_row db row Hu Hin). reflexivity. }
  split; apply E; unfold Auth.presented_token; simpl;
    destruct tok; congruence.
Qed.

End Sessions.

(** ** Letter case and whitespace of strings *)

Lemma isspace_py_lower_char (ch : ascii) :
  isspace (py_lower_char ch) = isspace ch.
Proof. destruct ch as [[] [] [] [] [] [] [] []]; reflexivity. Qed.

Lemma py_lower_char_idempotent (ch : ascii) :
  py_lower_char (py_lower_char ch) = py_lower_char ch.
Proof. destruct ch as [[] [] [] [] [] [] [] []]; reflexivity. Qed.

Lemma lower_char_agree (ch : ascii) :
  (N_of_ascii ch <? 128)%N = true -> py_lower_char ch = sql_lower_char ch.
Proof. destruct ch as [[] [] [] [] [] [] [] []]; (reflexivity || discriminate). Qed.

Lemma lower_agree (s : string) :
  is_ascii s = true -> py_lower s = sql_lower s.
Proof.
  induction s as [| ch s IH]; simpl; [reflexivity |].
  intros H. apply andb_prop in H as [Hc Hs].
  unfold py_lower, sql_lower in *. simpl.
  now rewrite (lower_char_agree ch Hc), (IH Hs).
Qed.

Lemma map_chars_length (f : ascii -> ascii) (s : string) :
  String.length (map_chars f s) = String.length s.
Proof. induction s as [| ch s IH]; simpl; congruence. Qed.

Lemma any_isspace_py_lower (s : string) :
  any_isspace (py_lower s) = any_isspace s.
Proof.
  unfold py_lower. induction s as [| ch s IH]; simpl; [reflexivity |].
  now rewrite isspace_py_lower_char, IH.
Qed.

Lemma lstrip_py_lower (s : string) : lstrip (py_lower s) = py_lower (lstrip s).
Proof.
  unfold py_lower. induction s as [| ch s IH]; simpl; [reflexivity |].
  rewrite isspace_py_lower_char. now destruct (isspace ch).
Qed.

Lemma rstrip_py_lower (s : string) : rstrip (py_lower s) = py_lower (rstrip s).
Proof.
  unfold py_lower. induction s as [| ch s IH]; simpl; [reflexivity |].
  rewrite IH, isspace_py_lower_char.
  destruct (rstrip s); simpl; [now destruct (isspace ch) | reflexivity].
Qed.

Lemma strip_py_lower (s : string) : strip (py_lower s) = py_lower (strip s).
Proof. unfold strip. now rewrite lstrip_py_lower, rstrip_py_lower. Qed.

Lemma py_lower_idempotent (s : string) : py_lower (py_lower s) = py_lower s.
Proof.
  unfold py_lower. induction s as [| ch s IH]; simpl; [reflexivity |].
  now rewrite py_lower_char_idempotent, IH.
Qed.

Lemma normalise_q_idempotent (q : option string) :
  normalise_q (Some (normalise_q q)) = normalise_q q.
Proof.
  unfold normalise_q.
  now rewrite strip_py_lower, strip_idempotent, py_lower_idempotent.
Qed.

(** ** Registering twice *)

Section Registrations.

Variable pwd_hash : string -> string -> string.

(** X4. After an accepted registration whose trimmed username is ASCII, a
    registration of any username that trims and lower-cases to the same
    string, with a password of 6 to 128 characters, raises 409 'Username
    already taken' and leaves the store as it is. *)
Theorem register_case_variant_conflict (now now2 : Z) (salt salt2 : string)
  (payload payload2 : RegisterRequest.t) (db db' : DB) (msg : string) :
  Auth.register_user pwd_hash now salt payload db = (db', Return msg) ->
  is_ascii (strip (RegisterRequest.username payload)) = true ->
  py_lower (strip (RegisterRequest.username payload2))
  = py_lower (strip (RegisterRequest.username payload)) ->
  (6 <= String.length (RegisterRequest.password payload2) <= 128)%nat ->
  Auth.register_user pwd_hash now2 salt2 payload2 db'
  = (db', Raise (HTTPException 409 "Username already taken")).
Proof.
  intros Hreg Hascii Hsame Hpw.
  destruct (register_user_accepted pwd_hash now salt payload db db' msg Hreg)
    as (L1 & L2 & _ & Hdup & _ & -> & _).
  set (v := strip (RegisterRequest.username payload)) in *.
  set (v2 := strip (RegisterRequest.username payload2)) in *.
  assert (Hlen : String.length v2 = String.length v).
  { rewrite <- (map_chars_length py_lower_char v2).
    rewrite <- (map_chars_length py_lower_char v).
    fold (py_lower v2) (py_lower v). now rewrite Hsame. }
  assert (Hws : any_isspace v2 = false)
    by now rewrite <- any_isspace_py_lower, Hsame, any_isspace_py_lower.
  unfold Auth.register_user. fold v2.
  rewrite Hlen.
  destruct (Nat.ltb_spec (String.length v) 3) as [? | _]; [lia |].
  destruct (Nat.ltb_spec 32 (String.length v)) as [? | _]; [lia |].
  destruct (Nat.ltb_spec (String.length (RegisterRequest.password payload2)) 6)
    as [? | _]; [lia |].
  destruct (Nat.ltb_spec 128 (String.length (RegisterRequest.password payload2)))
    as [? | _]; [lia |].
  rewrite Hws. cbn [orb users]. rewrite Hsame, filter_app, Hdup.
  cbn [filter app UserORM.username].
  rewrite (lower_agree v Hascii), String.eqb_refl. reflexivity.
Qed.

(** X5. The duplicate check compares SQLite's [lower], which folds ASCII letters
    only, with Python's [str.lower]: when the two differ on the trimmed
    username of an accepted registration, the same registration sent again
    passes the check and is refused by the unique index on the username, an
    IntegrityError instead of the 409, and the store is unchanged. *)
Theorem register_repeat_beyond_ascii (now now2 : Z) (salt salt2 : string)
  (payload : RegisterRequest.t) (db db' : DB) (msg : string) :
  Auth.register_user pwd_hash now salt payload db = (db', Return msg) ->
  py_lower (strip (RegisterRequest.username payload))
  <> sql_lower (strip (RegisterRequest.username payload)) ->
  Auth.register_user pwd_hash now2 salt2 payload db'
  = (db', Raise IntegrityError).
Proof.
  intros Hreg Hdiff.
  destruct (register_user_accepted pwd_hash now salt payload db db' msg Hreg)
    as (L1 & L2 & L3 & Hdup & _ & -> & _).
  set (v := strip (RegisterRequest.username payload)) in *.
  unfold Auth.register_user, Auth.insert_user. fold v.
  destruct (Nat.ltb_spec (String.length v) 3) as [? | _]; [lia |].
  destruct (Nat.ltb_spec 32 (String.length v)) as [? | _]; [lia |].
  destruct (Nat.ltb_spec (String.length (RegisterRequest.password payload)) 6)
    as [? | _]; [lia |].
  destruct (Nat.ltb_spec 128 (String.length (RegisterRequest.password payload)))
    as [? | _]; [lia |].
  rewrite L2. cbn [orb users]. rewrite filter_app, Hdup.
  cbn [filter app UserORM.username].
  destruct (String.eqb_spec (sql_lower v) (py_lower v)) as [E | _];
    [now destruct Hdiff |].
  cbn [scalar_one_or_none bind].
  rewrite existsb_app. cbn [existsb UserORM.username].
  rewrite String.eqb_refl, orb_true_r. reflexivity.
Qed.

End Registrations.

(** ** What a page holds *)

Lemma distinct_NoDup {K : Type} (eqb : K -> K -> bool)
  (eqb_eq : forall x y, eqb x y = true <-> x = y) (l : list K) :
  distinct eqb l = true -> NoDup l.
Proof.
  induction l as [| a l IH]; simpl; [constructor |].
  intros H. apply andb_prop in H as [Ha Hl]. constructor; [| auto].
  intros Hin. apply negb_true_iff in Ha.
  assert (existsb (eqb a) l = true); [| congruence].
  apply existsb_exists. exists a. split; [exact Hin | now apply eqb_eq].
Qed.

Lemma NoDup_distinct {K : Type} (eqb : K -> K -> bool)
  (eqb_eq : forall x y, eqb x y = true <-> x = y) (l : list K) :
  NoDup l -> distinct eqb l = true.
Proof.
  induction 1 as [| a l Ha Hl IH]; simpl; [reflexivity |].
  rewrite IH, andb_true_r. apply negb_true_iff.
  destruct (existsb (eqb a) l) eqn:E; [| reflexivity].
  apply existsb_exists in E as (x & Hx & E). apply eqb_eq in E. now subst.
Qed.

Lemma firstn_in {A : Type} (n : nat) (l : list A) (x : A) :
  In x (firstn n l) -> In x l.
Proof.
  revert l. induction n as [| n IH]; intros [| a l]; simpl; try tauto.
  intros [-> | H]; [now left | right; now apply IH].
Qed.

Lemma skipn_in {A : Type} (n : nat) (l : list A) (x : A) :
  In x (skipn n l) -> In x l.
Proof.
  revert l. induction n as [| n IH]; intros [| a l]; simpl; try tauto.
  intros H. right. now apply IH.
Qed.

Lemma NoDup_firstn {A : Type} (n : nat) (l : list A) :
  NoDup l -> NoDup (firstn n l).
Proof.
  revert l. induction n as [| n IH]; intros l H; simpl; [constructor |].
  destruct H as [| a l Ha Hl]; constructor; [| now apply IH].
  intros Hin. apply Ha. now apply (firstn_in n).
Qed.

Lemma NoDup_skipn {A : Type} (n : nat) (l : list A) :
  NoDup l -> NoDup (skipn n l).
Proof.
  revert l. induction n as [| n IH]; intros l H; simpl; [exact H |].
  destruct H; [constructor | now apply IH].
Qed.

Lemma selected_keys_NoDup {R K : Type} (key : R -> K) (keep : R -> bool)
  (rows : list R) (Hkeys : NoDup (map key rows)) :
  NoDup (map key (filter keep rows)).
Proof.
  induction rows as [| r rows IH]; simpl in *; [exact Hkeys |].
  apply NoDup_cons_iff in Hkeys as [Hr Hrows].
  destruct (keep r); simpl; [| now apply IH].
  apply NoDup_cons; [| now apply IH].
  rewrite in_map_iff. intros (x & E & Hx). apply Hr.
  apply filter_In in Hx as [Hx _]. rewrite <- E. now apply in_map.
Qed.

Lemma order_by_in {A : Type} (terms : list (ordering A)) (rows : list A)
  (x : A) :
  In x (order_by terms rows) <-> In x rows.
Proof.
  split; apply Permutation_in;
    [apply Permutation_sym |]; apply order_by_perm.
Qed.

Lemma offset_limit_in {A : Type} (start size : Z) (l : list A) (x : A) :
  In x (offset_limit start size l) -> In x l.
Proof.
  unfold offset_limit. intros H. now apply firstn_in, skipn_in in H.
Qed.

Lemma offset_limit_length {A : Type} (start size : Z) (l : list A) :
  (List.length (offset_limit start size l) <= Z.to_nat size)%nat.
Proof. unfold offset_limit. rewrite length_firstn. lia. Qed.

(** The rows of a page either listing returns, before they become schema
    objects. *)
Lemma page_rows (category : option Category) (q sort : option string)
  (page page_size : Z) (who : User.t) (db : DB) (r : PagedResponse.t) :
  Catalog.list_gear category q sort page page_size db = Return r
  \/ Admin.admin_list_gear category q sort page page_size who db = Return r ->
  exists terms start,
    PagedResponse.items r
    = map to_schema
        (offset_limit start page_size
           (order_by terms (matching_rows category q db))).
Proof.
  intros [H | H].
  - destruct (list_gear_cases category q sort page page_size db)
      as [(terms & start & total & shown & pages & _ & E) | [E _]];
      rewrite E in H; [| discriminate].
    injection H as <-. now exists terms, start.
  - destruct (admin_list_gear_cases category q sort page page_size who db)
      as [(start & total & shown & pages & E) | [E _]];
      rewrite E in H; [| discriminate].
    injection H as <-. now exists (Admin.sort_terms sort), start.
Qed.

(** X6. Every item on a page the public or the admin listing returns is the
    schema object of a catalog row of the filtered and searched set: a row
    of the category, if one is asked for, whose lower-cased name is LIKE the
    pattern of the search term, if there is one, both read up to their first
    NUL; under a category filter every item has that category; a page holds
    at most [page_size] items; and on a store that meets its constraints no
    id occurs twice on a page. *)
Theorem listing_items (category : option Category) (q sort : option string)
  (page page_size : Z) (who : User.t) (db : DB) (r : PagedResponse.t) :
  Catalog.list_gear category q sort page page_size db = Return r
  \/ Admin.admin_list_gear category q sort page page_size who db = Return r ->
  let items := PagedResponse.items r in
  (forall item, In item items ->
     exists m, In m (gear_items db) /\ item = to_schema m
               /\ gear_matches category (normalise_q q) m = true
               /\ forall c, category = Some c -> GearItem.category item = c)
  /\ (List.length items <= Z.to_nat page_size)%nat
  /\ (constraints db = true -> NoDup (map GearItem.id items)).
Proof.
  intros H items. subst items.
  destruct (page_rows _ _ _ _ _ _ _ _ H) as (terms & start & ->).
  split; [| split].
  - intros item Hin. apply in_map_iff in Hin as (m & <- & Hm).
    apply offset_limit_in, order_by_in in Hm.
    unfold matching_rows in Hm. apply filter_In in Hm as [Hm Hmatch].
    exists m. repeat split; auto.
    intros c ->. unfold gear_matches in Hmatch.
    apply andb_prop in Hmatch as [Hcat _]. simpl in *.
    now destruct (GearItemORM.category m), c.
  - rewrite length_map. apply offset_limit_length.
  - intros Hc. destruct (constraints_parts db Hc) as (_ & _ & Hg & _).
    rewrite map_map. change (fun x => GearItem.id (to_schema x)) with GearItemORM.id.
    unfold offset_limit. rewrite <- firstn_map, <- skipn_map.
    apply NoDup_firstn, NoDup_skipn.
    apply (Permutation_NoDup
             (Permutation_map GearItemORM.id (order_by_perm terms _))).
    apply selected_keys_NoDup.
    now apply (distinct_NoDup Z.eqb Z.eqb_eq).
Qed.

Lemma get_gear_item_row (db : DB) (m : GearItemORM.t) :
  distinct Z.eqb (map GearItemORM.id (gear_items db)) = true ->
  In m (gear_items db) ->
  in_int64 (GearItemORM.id m) = true ->
  Catalog.get_gear_item (GearItemORM.id m) db = Return (to_schema m).
Proof.
  intros Hg Hm Hi. unfold Catalog.get_gear_item.
  rewrite (gear_by_id_is_find db _ Hg Hi).
  now rewrite (find_the_row Z.eqb GearItemORM.id Z.eqb_eq _ _ Hg Hm).
Qed.

(** X7. On a store that meets its constraints [get_gear_item] raises 404
    'Item not found' for an id of the INTEGER column (signed 64-bit) that no
    row has, raises an [OverflowError] for an id beyond that range, returns
    the schema object of the row for an id a row has, and asked for the id
    of any item of any page a listing returned gives back that item. *)
Theorem get_gear_item_cases (item_id : Z) (db : DB) :
  constraints db = true ->
  (in_int64 item_id = true ->
   ~ In item_id (map GearItemORM.id (gear_items db)) ->
   Catalog.get_gear_item item_id db
   = Raise (HTTPException 404 "Item not found"))
  /\ (in_int64 item_id = false ->
      Catalog.get_gear_item item_id db = Raise OverflowError)
  /\ (forall m, In m (gear_items db) -> GearItemORM.id m = item_id ->
        in_int64 item_id = true ->
        Catalog.get_gear_item item_id db = Return (to_schema m))
  /\ (forall category q sort page page_size who r item,
        Catalog.list_gear category q sort page page_size db = Return r
        \/ Admin.admin_list_gear category q sort page page_size who db
           = Return r ->
        In item (PagedResponse.items r) ->
        GearItem.id item = item_id ->
        in_int64 item_id = true ->
        Catalog.get_gear_item item_id db = Return item).
Proof.
  intros Hc. destruct (constraints_parts db Hc) as (_ & _ & Hg & _).
  split; [| split; [| split]].
  - intros Hi Habs. unfold Catalog.get_gear_item.
    rewrite (gear_by_id_is_find db _ Hg Hi).
    now rewrite (find_absent Z.eqb GearItemORM.id Z.eqb_eq _ _ Habs).
  - intros Hi. unfold Catalog.get_gear_item.
    now rewrite (gear_by_id_refused db _ Hi).
  - intros m Hm <- Hi. now apply get_gear_item_row.
  - intros category q sort page page_size who r item H Hin <- Hi.
    destruct (page_rows _ _ _ _ _ _ _ _ H) as (terms & start & E).
    rewrite E in Hin. apply in_map_iff in Hin as (m & <- & Hm).
    apply offset_limit_in, order_by_in in Hm.
    unfold matching_rows in Hm. apply filter_In in Hm as [Hm _].
    now apply get_gear_item_row.
Qed.

(** ** The pages of a listing, taken together *)

Lemma chunks_concat {A : Type} (size n : nat) (l : list A) :
  (List.length l <= n * size)%nat ->
  List.concat (map (fun i => firstn size (skipn (i * size)%nat l)) (seq 0 n))
  = l.
Proof.
  revert l. induction n as [| n IH]; intros l Hl.
  - simpl in *. destruct l; [reflexivity | simpl in Hl; lia].
  - rewrite <- cons_seq, <- seq_shift. simpl. rewrite map_map.
    transitivity (firstn size l ++ skipn size l)%list;
      [| apply firstn_skipn].
    f_equal.
    transitivity
      (List.concat (map (fun i => firstn size (skipn (i * size)%nat
                                                 (skipn size l)))
                      (seq 0 n))).
    + f_equal. apply map_ext. intros i. rewrite skipn_skipn.
      do 2 f_equal. lia.
    + apply IH. rewrite length_skipn. lia.
Qed.

Lemma pages_hold_all (t p : Z) :
  0 <= t -> 1 <= p -> t <= Z.max 1 ((t + p - 1) / p) * p.
Proof.
  intros Ht Hp.
  pose proof (Z.div_mod (t + p - 1) p ltac:(lia)) as E.
  pose proof (Z.mod_pos_bound (t + p - 1) p ltac:(lia)) as B.
  nia.
Qed.

Lemma all_pages {A B : Type} (f : A -> B) (sorted : list A)
  (total page_size : Z) :
  total = Z.of_nat (List.length sorted) -> 1 <= page_size ->
  let pages := Z.max 1 ((total + page_size - 1) / page_size) in
  List.concat
    (map (fun p =>
            let page := Z.of_nat p in
            let page' := if page >? pages then pages else page in
            map f (offset_limit ((page' - 1) * page_size) page_size sorted))
       (seq 1 (Z.to_nat pages)))
  = map f sorted.
Proof.
  intros Ht Hp pages.
  pose proof (pages_hold_all total page_size ltac:(lia) Hp) as Hall.
  fold pages in Hall.
  transitivity
    (map f (List.concat
              (map (fun i => firstn (Z.to_nat page_size)
                               (skipn (i * Z.to_nat page_size)%nat sorted))
                 (seq 0 (Z.to_nat pages)))));
    [| now rewrite chunks_concat by nia].
  rewrite <- seq_shift, map_map, concat_map, map_map.
  f_equal. apply map_ext_in. intros i Hi. apply in_seq in Hi.
  cbv zeta. destruct (Z.gtb_spec (Z.of_nat (S i)) pages) as [? | _]; [lia |].
  unfold offset_limit. do 3 f_equal. nia.
Qed.

(** X8. For a page size of at least 1, a search SQLite evaluates and a
    sort key whose statement it accepts, the requests for the pages 1 to
    [pages] of a listing, public or admin, all return, and their items put
    together are the matching rows in the order of the sort key, each row
    once: a permutation of the matching rows. *)
Theorem pages_cover (category : option Category) (q sort : option string)
  (page_size : Z) (who : User.t) (db : DB) :
  1 <= page_size ->
  searchable q = true ->
  let rows := matching_rows category q db in
  let pages := Z.max 1 (ceil_div (Z.of_nat (List.length rows)) page_size) in
  forall listing terms,
    (listing = Catalog.list_gear category q sort
     /\ Catalog.sort_terms sort (normalise_q q) = Return terms)
    \/ (listing = (fun p s d => Admin.admin_list_gear category q sort p s who d)
        /\ terms = Admin.sort_terms sort) ->
    exists responses,
      map (fun p => listing (Z.of_nat p) page_size db) (seq 1 (Z.to_nat pages))
      = map Return responses
      /\ List.concat (map PagedResponse.items responses)
         = map to_schema (order_by terms rows)
      /\ Permutation (List.concat (map PagedResponse.items responses))
           (map to_schema rows).
Proof.
  intros Hp Hq rows pages listing terms Hl.
  set (total := Z.of_nat (List.length rows)) in *.
  set (pages' := Z.max 1 ((total + page_size - 1) / page_size)).
  assert (Epages : pages = pages')
    by (unfold pages, pages'; now rewrite ceil_div_pages by (unfold total; lia)).
  set (response := fun p : nat =>
         let page := Z.of_nat p in
         let clamped := if page >? pages' then pages' else page in
         PagedResponse.mk
           (map to_schema
              (offset_limit ((clamped - 1) * page_size) page_size
                 (order_by terms rows)))
           total clamped page_size pages').
  exists (map response (seq 1 (Z.to_nat pages))).
  assert (Hall : List.concat
                   (map PagedResponse.items
                      (map response (seq 1 (Z.to_nat pages))))
                 = map to_schema (order_by terms rows)).
  { rewrite map_map, Epages. unfold response.
    cbn [PagedResponse.items].
    apply (all_pages to_schema (order_by terms rows) total page_size);
      [| exact Hp].
    unfold total. now rewrite order_by_length. }
  split; [| split; [exact Hall |]].
  - rewrite map_map. apply map_ext. intros p.
    exact (listing_response category q sort (Z.of_nat p) page_size who db
             listing terms Hq Hl).
  - rewrite Hall. apply Permutation_map, Permutation_sym, order_by_perm.
Qed.

(** ** The search term *)

Lemma append_nil_r (s : string) : s ++ "" = s.
Proof. induction s as [| c s IH]; simpl; congruence. Qed.


Lemma map_chars_append (f : ascii -> ascii) (a b : string) :
  map_chars f (a ++ b) = map_chars f a ++ map_chars f b.
Proof. induction a as [| x a IH]; simpl; congruence. Qed.

Lemma map_chars_split (f : ascii -> ascii) (s x y : string) :
  map_chars f s = x ++ y ->
  exists s1 s2, s = s1 ++ s2 /\ map_chars f s1 = x /\ map_chars f s2 = y.
Proof.
  revert s. induction x as [| c x IH]; intros s H; simpl in H.
  - exists "", s. auto.
  - destruct s as [| d s]; simpl in H; [discriminate |].
    injection H as Hc Hs. destruct (IH s Hs) as (s1 & s2 & -> & E1 & E2).
    exists (String d s1), s2. simpl. rewrite E1, Hc. auto.
Qed.

Lemma sql_lower_char_idempotent (ch : ascii) :
  sql_lower_char (sql_lower_char ch) = sql_lower_char ch.
Proof. destruct ch as [[] [] [] [] [] [] [] []]; reflexivity. Qed.

Lemma sql_lower_idempotent (s : string) : sql_lower (sql_lower s) = sql_lower s.
Proof.
  unfold sql_lower. induction s as [| ch s IH]; simpl; [reflexivity |].
  now rewrite sql_lower_char_idempotent, IH.
Qed.

Lemma like_match_percent_unfold (p s : string) :
  like_match (String "%" p) s
  = like_match p s
    || match s with
       | EmptyString => false
       | String _ s' => like_match (String "%" p) s'
       end.
Proof. destruct s; reflexivity. Qed.

Lemma like_match_percent (p s : string) :
  like_match (String "%" p) s = true <-> exists a b, s = a ++ b /\ like_match p b = true.
Proof.
  induction s as [| c s IH]; rewrite like_match_percent_unfold.
  - rewrite orb_false_r. split.
    + intros H. exists "", "". auto.
    + intros ([| ? ?] & b & E & H); simpl in E; [now subst | discriminate].
  - split.
    + intros H. apply orb_prop in H as [H | H].
      * exists "", (String c s). auto.
      * apply IH in H as (a & b & -> & H). exists (String c a), b. auto.
    + intros ([| x a] & b & E & H); simpl in E.
      * subst b. now rewrite H.
      * injection E as -> ->. apply orb_true_iff. right. apply IH. eauto.
Qed.

Lemma like_match_literal (t p s : string) :
  wildcard_free t = true ->
  like_match (t ++ p) s = true
  <-> exists m b, s = m ++ b /\ sql_lower m = sql_lower t /\ like_match p b = true.
Proof.
  intros Hw. revert s. induction t as [| c t IH]; intros s; simpl.
  - split.
    + intros H. exists "", s. auto.
    + intros ([| ? ?] & b & E & Em & H); simpl in *; [now subst | discriminate].
  - simpl in Hw. apply andb_prop in Hw as [Hw Ht].
    apply andb_prop in Hw as [Hp Hu].
    apply negb_true_iff in Hp, Hu. rewrite Hp, Hu.
    destruct s as [| d s].
    + split; [discriminate |].
      intros ([| ? ?] & b & E & Em & _); simpl in *; discriminate.
    + cbn [orb]. rewrite andb_true_iff, (IH Ht s). split.
      * intros [Hc (m & b & -> & Em & H)]. apply Ascii.eqb_eq in Hc.
        exists (String d m), b. unfold sql_lower in *. simpl.
        rewrite Em, Hc. auto.
      * intros ([| x m] & b & E & Em & H); simpl in *; [discriminate |].
        injection E as -> ->. unfold sql_lower in *. simpl in Em.
        injection Em as Hc Em. split.
        -- apply Ascii.eqb_eq. now rewrite Hc.
        -- eauto.
Qed.

Lemma like_match_contains (t s : string) :
  wildcard_free t = true ->
  like_match ("%" ++ t ++ "%") s = true <-> contains_nocase s t.
Proof.
  intros Hw. change ("%" ++ t ++ "%") with (String "%" (t ++ "%")).
  rewrite like_match_percent. unfold contains_nocase. split.
  - intros (a & b & -> & H). apply (like_match_literal t "%" b Hw) in H.
    destruct H as (m & b' & -> & Em & _). eauto.
  - intros (a & m & b & -> & Em). exists a, (m ++ b). split; [reflexivity |].
    apply (like_match_literal t "%" _ Hw). exists m, b. repeat split; auto.
    apply like_match_percent. exists b, "". now rewrite append_nil_r.
Qed.

Lemma contains_nocase_lower (s t : string) :
  contains_nocase (sql_lower s) t <-> contains_nocase s t.
Proof.
  unfold contains_nocase. split.
  - intros (a & m & b & E & Em).
    apply map_chars_split in E as (s1 & s2 & -> & E1 & E2).
    apply map_chars_split in E2 as (s3 & s4 & -> & E3 & E4).
    exists s1, s3, s4. split; [reflexivity |].
    fold (sql_lower s3) in E3. rewrite <- E3 in Em.
    now rewrite sql_lower_idempotent in Em.
  - intros (a & m & b & -> & Em).
    exists (sql_lower a), (sql_lower m), (sql_lower b).
    unfold sql_lower at 1. rewrite !map_chars_append. split; [reflexivity |].
    now rewrite sql_lower_idempotent.
Qed.

Lemma sql_lower_char_zero (ch : ascii) :
  Ascii.eqb (sql_lower_char ch) Ascii.zero = Ascii.eqb ch Ascii.zero.
Proof. destruct ch as [[] [] [] [] [] [] [] []]; reflexivity. Qed.

Lemma c_str_sql_lower (s : string) : c_str (sql_lower s) = sql_lower (c_str s).
Proof.
  unfold sql_lower. induction s as [| ch s IH]; simpl; [reflexivity |].
  rewrite sql_lower_char_zero.
  destruct (Ascii.eqb ch Ascii.zero); simpl; [reflexivity | now rewrite IH].
Qed.

Lemma c_str_append (t s : string) :
  c_str t = t -> c_str (t ++ s) = t ++ c_str s.
Proof.
  induction t as [| ch t IH]; simpl; [reflexivity |].
  destruct (Ascii.eqb ch Ascii.zero); [discriminate |].
  intros [= E]. now rewrite (IH E).
Qed.

(** The pattern of a search term without a NUL is read whole. *)
Lemma c_str_search_pattern (t : string) :
  c_str t = t -> c_str (search_pattern t) = search_pattern t.
Proof.
  intros Ht. unfold search_pattern.
  change ("%" ++ t ++ "%") with (String "%" (t ++ "%")).
  cbn [c_str]. change (Ascii.eqb "%" Ascii.zero) with false. cbv iota.
  now rewrite (c_str_append t "%" Ht).
Qed.

(** The search of a term without a NUL or a wildcard is a search for a
    substring of the text, read up to its first NUL. *)
Lemma like_contains (t s : string) :
  c_str t = t -> wildcard_free t = true ->
  like (search_pattern t) (sql_lower s) = true
  <-> contains_nocase (c_str s) t.
Proof.
  intros Ht Hw. unfold like.
  rewrite (c_str_search_pattern t Ht), c_str_sql_lower.
  unfold search_pattern. rewrite (like_match_contains t _ Hw).
  apply contains_nocase_lower.
Qed.

Lemma in_category_spec (category : option Category) (m : GearItemORM.t) :
  in_category category m = true
  <-> forall c, category = Some c -> GearItemORM.category m = c.
Proof.
  unfold in_category. destruct category as [c0 |]; split; try easy.
  - intros H c1 [= <-]. now destruct (GearItemORM.category m), c0.
  - intros H. rewrite (H c0 eq_refl). now destruct c0.
Qed.

(** X9. For a search term that is non-empty once normalised and holds no
    NUL, no percent sign and no underscore, the matching rows are exactly
    the rows of the requested category, if any, whose name, read up to its
    first NUL, contains the normalised term up to the case of ASCII
    letters. *)
Theorem search_is_substring (category : option Category) (q : option string)
  (db : DB) (m : GearItemORM.t) :
  normalise_q q <> "" ->
  c_str (normalise_q q) = normalise_q q ->
  wildcard_free (normalise_q q) = true ->
  In m (matching_rows category q db)
  <-> In m (gear_items db)
      /\ (forall c, category = Some c -> GearItemORM.category m = c)
      /\ contains_nocase (c_str (GearItemORM.name m)) (normalise_q q).
Proof.
  intros Hne Hz Hw. unfold matching_rows. rewrite filter_In.
  unfold gear_matches.
  assert (nonempty (normalise_q q) = true) as ->
    by (destruct (normalise_q q); [congruence | reflexivity]).
  rewrite andb_true_iff, (like_contains _ _ Hz Hw), in_category_spec.
  tauto.
Qed.

(** X10. The search term goes into the LIKE pattern unescaped: the term of
    one percent sign matches every row of the category, and the term of one
    underscore matches exactly the rows whose name has a character before
    its first NUL. *)
Theorem search_wildcards (category : option Category) (db : DB)
  (m : GearItemORM.t) :
  (In m (matching_rows category (Some "%") db)
   <-> In m (matching_rows category None db))
  /\ (In m (matching_rows category (Some "_") db)
      <-> In m (matching_rows category None db)
          /\ c_str (GearItemORM.name m) <> "").
Proof.
  unfold matching_rows. rewrite !filter_In. unfold gear_matches.
  change (normalise_q (Some "%")) with "%".
  change (normalise_q (Some "_")) with "_".
  change (normalise_q None) with "". cbn [nonempty].
  rewrite !andb_true_r. unfold like. rewrite c_str_sql_lower.
  change (c_str (search_pattern "%")) with (String "%" (String "%" "%")).
  change (c_str (search_pattern "_")) with (String "%" (String "_" "%")).
  set (text := sql_lower (c_str (GearItemORM.name m))).
  split.
  - assert (like_match (String "%" (String "%" "%")) text = true) as ->.
    { apply like_match_percent. exists "", text.
      split; [reflexivity |]. apply like_match_percent.
      exists "", text.
      split; [reflexivity |]. apply like_match_percent.
      exists text, "". now rewrite append_nil_r. }
    now rewrite andb_true_r.
  - rewrite andb_true_iff.
    assert (like_match (String "%" (String "_" "%")) text = true
            <-> c_str (GearItemORM.name m) <> "") as ->; [| tauto].
    unfold text. destruct (c_str (GearItemORM.name m)) as [| c s]; [easy |].
    split; [discriminate | intros _].
    apply like_match_percent. exists "", (sql_lower (String c s)).
    split; [reflexivity |].
    change (like_match (String "%" "") (sql_lower s) = true).
    apply like_match_percent. exists (sql_lower s), "".
    now rewrite append_nil_r.
Qed.

(** X11. The search term counts only up to surrounding whitespace and letter
    case: a listing for [q] is the listing for [q] trimmed and lower-cased,
    and a [q] of whitespace only gives the listing without a search term, in
    both listings. *)
Theorem search_term_normalised (category : option Category)
  (q : string) (sort : option string) (page page_size : Z) (who : User.t)
  (db : DB) :
  let trimmed := Some (py_lower (strip q)) in
  Catalog.list_gear category (Some q) sort page page_size db
  = Catalog.list_gear category trimmed sort page page_size db
  /\ Admin.admin_list_gear category (Some q) sort page page_size who db
     = Admin.admin_list_gear category trimmed sort page page_size who db
  /\ (strip q = "" ->
      Catalog.list_gear category (Some q) sort page page_size db
      = Catalog.list_gear category None sort page page_size db
      /\ Admin.admin_list_gear category (Some q) sort page page_size who db
         = Admin.admin_list_gear category None sort page page_size who db).
Proof.
  intros trimmed.
  assert (E : normalise_q trimmed = normalise_q (Some q))
    by apply (normalise_q_idempotent (Some q)).
  unfold Catalog.list_gear, Admin.admin_list_gear. rewrite E.
  split; [reflexivity | split; [reflexivity |]].
  intros Hs. assert (normalise_q (Some q) = normalise_q None) as ->
    by (unfold normalise_q; now rewrite Hs).
  split; reflexivity.
Qed.

(** ** The other sort keys *)

Lemma page_sorted (terms : list (ordering GearItemORM.t))
  (terms' : list (ordering GearItem.t)) (start size : Z)
  (rows : list GearItemORM.t) :
  Forall order_laws terms ->
  (forall a b, lex terms a b = lex terms' (to_schema a) (to_schema b)) ->
  StronglySorted (precedes (lex terms'))
    (map to_schema (offset_limit start size (order_by terms rows))).
Proof.
  intros L E. apply sorted_map. unfold offset_limit.
  apply sorted_firstn, sorted_skipn.
  apply (sorted_weaken (precedes (lex terms))).
  - intros a b. unfold precedes. now rewrite E.
  - now apply order_by_sorted.
Qed.

Lemma public_page_sorted (category : option Category)
  (q sort : option string) (page page_size : Z) (db : DB)
  (terms : list (ordering GearItemORM.t))
  (terms' : list (ordering GearItem.t)) :
  Catalog.sort_terms sort (normalise_q q) = Return terms ->
  Forall order_laws terms ->
  (forall a b, lex terms a b = lex terms' (to_schema a) (to_schema b)) ->
  sorted_page q (precedes (lex terms'))
    (Catalog.list_gear category q sort page page_size db).
Proof.
  intros Ht L E. unfold sorted_page.
  destruct (list_gear_cases category q sort page page_size db)
    as [(t0 & start & total & shown & pages & Ht0 & ->) | [-> [Hq | Hr]]].
  - rewrite Ht in Ht0. injection Ht0 as <-.
    cbn [PagedResponse.items]. now apply page_sorted.
  - auto.
  - congruence.
Qed.

Lemma admin_page_sorted (category : option Category)
  (q sort : option string) (page page_size : Z) (who : User.t) (db : DB)
  (terms' : list (ordering GearItem.t)) :
  Forall order_laws (Admin.sort_terms sort) ->
  (forall a b, lex (Admin.sort_terms sort) a b
               = lex terms' (to_schema a) (to_schema b)) ->
  sorted_page q (precedes (lex terms'))
    (Admin.admin_list_gear category q sort page page_size who db).
Proof.
  intros L E. unfold sorted_page.
  destruct (admin_list_gear_cases category q sort page page_size who db)
    as [(start & total & shown & pages & ->) | [-> Hq]]; [| auto].
  cbn [PagedResponse.items]. now apply page_sorted.
Qed.

Lemma sorted_page_weaken (q : option string)
  (R R' : GearItem.t -> GearItem.t -> Prop) (result : outcome PagedResponse.t) :
  (forall a b, R a b -> R' a b) ->
  sorted_page q R result -> sorted_page q R' result.
Proof.
  intros W. destruct result as [r | e]; simpl; [| tauto].
  now apply sorted_weaken.
Qed.

Lemma precedes_one_term {A : Type} (t : ordering A) (a b : A) :
  precedes (lex [t]) a b -> precedes t a b.
Proof. unfold precedes. simpl. now destruct (t a b). Qed.

Ltac order_terms :=
  repeat apply Forall_cons; try apply Forall_nil;
  first [ apply asc_laws | apply desc_laws ];
  first [ apply real_compare_laws | apply String_compare_laws
        | apply Z_compare_laws | apply Bool_compare_laws ].

(** X12. A page sorted by [price_asc] is in ascending price order, a page
    sorted by [price_desc] in descending price order, both with equal prices
    in case-insensitive name order, in the public and in the admin listing;
    a listing that returns no page raised the error of a search pattern
    SQLite refuses. *)
Theorem price_order (category : option Category) (q : option string)
  (page page_size : Z) (who : User.t) (db : DB) :
  let public sort :=
    Catalog.list_gear category q (Some sort) page page_size db in
  let admin sort :=
    Admin.admin_list_gear category q (Some sort) page page_size who db in
  sorted_page q (precedes (lex [by_price; by_name])) (public "price_asc")
  /\ sorted_page q (precedes (lex [by_price; by_name])) (admin "price_asc")
  /\ sorted_page q (precedes (lex [by_price_desc; by_name]))
       (public "price_desc")
  /\ sorted_page q (precedes (lex [by_price_desc; by_name]))
       (admin "price_desc").
Proof.
  intros public admin.
  repeat split;
    first [ eapply public_page_sorted; [reflexivity | order_terms | reflexivity]
          | apply admin_page_sorted; [order_terms | reflexivity] ].
Qed.

Lemma sort_is_unknown (sort : option string) (keys : list string) (key : string) :
  (forall s, sort = Some s -> ~ In s keys) -> In key keys ->
  sort_is sort key = false.
Proof.
  intros H Hin. destruct sort as [s |]; [| reflexivity]. simpl.
  apply String.eqb_neq. intros ->. now apply (H key).
Qed.

(** X13. Public listing: [in_stock] lists items in stock first and by
    ascending price within each group; [name_asc] lists by lower-cased
    name; [relevance] lists by the position of the first match of the
    normalised term in the lower-cased name and then by the length of the
    name, counted up to its first NUL, when there is a search term, and by
    lower-cased name when there is none; and a sort key that is none of the
    five others, or no key, gives the outcome of [relevance].  A listing
    that returns no page raised the error of a search pattern SQLite
    refuses. *)
Theorem public_orders (category : option Category) (q : option string)
  (page page_size : Z) (db : DB) :
  let listing sort := Catalog.list_gear category q sort page page_size db in
  sorted_page q (precedes (lex [by_stock; by_price])) (listing (Some "in_stock"))
  /\ sorted_page q (precedes by_name) (listing (Some "name_asc"))
  /\ (normalise_q q <> "" ->
      sorted_page q
        (precedes (lex [by_match (normalise_q q); by_name_length]))
        (listing (Some "relevance")))
  /\ (normalise_q q = "" ->
      sorted_page q (precedes by_name) (listing (Some "relevance")))
  /\ forall sort,
       (forall s, sort = Some s -> ~ In s public_sort_keys) ->
       listing sort = listing (Some "relevance").
Proof.
  intros listing.
  split; [| split; [| split; [| split]]].
  - eapply public_page_sorted; [reflexivity | order_terms | reflexivity].
  - apply (sorted_page_weaken q (precedes (lex [by_name])));
      [apply precedes_one_term |].
    eapply public_page_sorted; [reflexivity | order_terms | reflexivity].
  - intros Hq.
    assert (Ht : Catalog.sort_terms (Some "relevance") (normalise_q q)
                 = Return
                     [asc Z.compare
                        (fun m => instr (lower_name m) (normalise_q q));
                      asc Z.compare
                        (fun m => sql_length (GearItemORM.name m))]).
    { unfold Catalog.sort_terms.
      cbn [sort_is String.eqb Ascii.eqb Bool.eqb].
      destruct (normalise_q q) as [| c t]; [congruence | reflexivity]. }
    apply (public_page_sorted _ _ _ _ _ _ _ _ Ht);
      [order_terms | intros a b; reflexivity].
  - intros Hq.
    apply (sorted_page_weaken q (precedes (lex [by_name])));
      [apply precedes_one_term |].
    assert (Ht : Catalog.sort_terms (Some "relevance") (normalise_q q)
                 = Return [asc String.compare lower_name]).
    { unfold Catalog.sort_terms.
      cbn [sort_is String.eqb Ascii.eqb Bool.eqb].
      rewrite Hq. reflexivity. }
    apply (public_page_sorted _ _ _ _ _ _ _ _ Ht);
      [order_terms | intros a b; reflexivity].
  - intros sort Hs. unfold listing, Catalog.list_gear, Catalog.sort_terms.
    rewrite !(sort_is_unknown sort public_sort_keys) by (simpl; tauto).
    reflexivity.
Qed.

(** X14. Admin listing: [id_asc] and [id_desc] list by id, ascending and
    descending; [name_desc] and [name_asc] list by lower-cased name,
    descending and ascending; and a sort key that is none of the six others,
    or no key, gives the outcome of [name_asc].  A listing that returns no
    page raised the error of a search pattern SQLite refuses. *)
Theorem admin_orders (category : option Category) (q : option string)
  (page page_size : Z) (who : User.t) (db : DB) :
  let listing sort :=
    Admin.admin_list_gear category q sort page page_size who db in
  sorted_page q (precedes by_id) (listing (Some "id_asc"))
  /\ sorted_page q (precedes by_id_desc) (listing (Some "id_desc"))
  /\ sorted_page q (precedes by_name_desc) (listing (Some "name_desc"))
  /\ sorted_page q (precedes by_name) (listing (Some "name_asc"))
  /\ forall sort,
       (forall s, sort = Some s -> ~ In s admin_sort_keys) ->
       listing sort = listing (Some "name_asc").
Proof.
  intros listing.
  repeat split;
    try (eapply sorted_page_weaken; [apply precedes_one_term |];
         apply admin_page_sorted; [order_terms | reflexivity]).
  intros sort Hs. unfold listing, Admin.admin_list_gear, Admin.sort_terms.
  rewrite !(sort_is_unknown sort admin_sort_keys) by (simpl; tauto).
  reflexivity.
Qed.

(** ** The list of users *)

Lemma user_where_value (q_norm : string) (u : UserORM.t) :
  like_refused (search_pattern q_norm) = false ->
  Admin.user_where q_norm u = Return (user_matches q_norm u).
Proof.
  intros H. unfold Admin.user_where, user_matches, sql_like. rewrite H.
  now destruct (nonempty q_norm).
Qed.

(** The users a listing selects, or the error of a refused pattern, which
    the first row brings about. *)
Lemma select_user_cases (q : option string) (db : DB) :
  select_where (Admin.user_where (normalise_q q)) (users db)
  = Return (matching_users q db)
  \/ (select_where (Admin.user_where (normalise_q q)) (users db)
      = Raise OperationalError
      /\ searchable q = false).
Proof.
  unfold searchable.
  destruct (like_refused (search_pattern (normalise_q q))) eqn:Hr.
  - pose proof (like_refused_nonempty _ Hr) as Hq.
    destruct (users db) as [| u rest] eqn:Eu.
    + left. unfold matching_users. now rewrite Eu.
    + right. split; [| reflexivity]. simpl.
      unfold Admin.user_where at 1, sql_like. now rewrite Hq, Hr.
  - left. apply select_where_values. intros u _. now apply user_where_value.
Qed.

Lemma select_matching_users (q : option string) (db : DB) :
  searchable q = true ->
  select_where (Admin.user_where (normalise_q q)) (users db)
  = Return (matching_users q db).
Proof.
  intros Hq. destruct (select_user_cases q db) as [E | [_ E]];
    [exact E | congruence].
Qed.

(** Every outcome of the list of users. *)
Lemma admin_list_users_cases (q sort : option string) (page page_size : Z)
  (who : User.t) (db : DB) :
  (exists start total shown pages,
     Admin.admin_list_users q sort page page_size who db
     = Return (PagedUsersResponse.mk
                 (map Admin.to_user_info
                    (offset_limit start page_size
                       (order_by (Admin.user_sort_terms sort)
                          (matching_users q db))))
                 total shown page_size pages))
  \/ (Admin.admin_list_users q sort page page_size who db
      = Raise OperationalError
      /\ searchable q = false).
Proof.
  unfold Admin.admin_list_users.
  destruct (select_user_cases q db) as [-> | [-> Hq]].
  - left. cbn [bind]. eexists _, _, _, _. reflexivity.
  - right. split; [reflexivity | exact Hq].
Qed.

(** X15. [admin_list_users] for a page of at least 1, a page size from 1 to
    1000 and a search SQLite evaluates returns: [total] counts the users
    matching the search, [pages] is the rounded-up quotient of total by page
    size and at least 1, the reported page is the requested one clamped to
    [pages], and the items are the id, username and admin flag of the users
    of that page of the sorted matching users, of
    [min page_size (total - (page - 1) * page_size)] items.  A request
    beyond the last page gets the response of the last page, and the page is
    not empty while there are matching users. *)
Theorem users_pagination (q sort : option string) (page page_size : Z)
  (who : User.t) (db : DB) :
  1 <= page -> 1 <= page_size <= 1000 ->
  searchable q = true ->
  let rows := matching_users q db in
  let total := Z.of_nat (List.length rows) in
  let pages := Z.max 1 (ceil_div total page_size) in
  let shown := Z.min page pages in
  let listed :=
    page_slice shown page_size (order_by (Admin.user_sort_terms sort) rows) in
  Admin.admin_list_users q sort page page_size who db
  = Return (PagedUsersResponse.mk (map Admin.to_user_info listed) total shown
              page_size pages)
  /\ Z.of_nat (List.length listed)
     = Z.min page_size (total - (shown - 1) * page_size)
  /\ (pages < page ->
      Admin.admin_list_users q sort page page_size who db
      = Admin.admin_list_users q sort pages page_size who db)
  /\ (0 < total -> listed <> [])
  /\ forall u, In u listed -> In u (matching_users q db).
Proof.
  intros Hp [Hs _] Hq rows total pages shown listed.
  set (sorted := order_by (Admin.user_sort_terms sort) rows) in *.
  assert (Et : total = Z.of_nat (List.length sorted))
    by (unfold sorted; now rewrite order_by_length).
  assert (Hresp : forall p, 1 <= p ->
            Admin.admin_list_users q sort p page_size who db
            = Return (PagedUsersResponse.mk
                        (map Admin.to_user_info
                           (page_slice (Z.min p pages) page_size sorted))
                        total (Z.min p pages) page_size pages)).
  { intros p Hp1. unfold Admin.admin_list_users.
    rewrite (select_matching_users q db Hq). cbn [bind].
    destruct (paging_facts sorted total p page_size Et Hp1 Hs)
      as (E1 & E2 & E3 & _).
    do 2 f_equal; [f_equal; exact E3 | exact E2 | exact E1]. }
  destruct (paging_facts sorted total page page_size Et Hp Hs)
    as (_ & _ & _ & Hne & Hlen).
  split; [exact (Hresp page Hp) |]. split; [exact Hlen |].
  split; [| split; [exact Hne |]].
  - intros Hlt. rewrite (Hresp page Hp), (Hresp pages ltac:(unfold pages; lia)).
    now rewrite (Z.min_r page pages), Z.min_id by lia.
  - intros u Hu. unfold listed, page_slice in Hu.
    apply firstn_in, skipn_in, order_by_in in Hu. exact Hu.
Qed.

(** X16. Sorted by [admin_first], a page [admin_list_users] returns lists
    admins before the other users, and ascending ids within each of the two
    groups; a request that gets no page raised the error of a search pattern
    SQLite refuses. *)
Theorem users_admin_first (q : option string) (page page_size : Z)
  (who : User.t) (db : DB) :
  match Admin.admin_list_users q (Some "admin_first") page page_size who db
  with
  | Return r => StronglySorted admins_first (PagedUsersResponse.items r)
  | Raise e => e = OperationalError /\ searchable q = false
  end.
Proof.
  destruct (admin_list_users_cases q (Some "admin_first") page page_size who db)
    as [(start & total & shown & pages & ->) | [-> Hq]]; [| auto].
  cbn [PagedUsersResponse.items].
  apply sorted_map. unfold offset_limit.
  apply sorted_firstn, sorted_skipn.
  apply (sorted_weaken
           (precedes (lex [desc Bool.compare UserORM.is_admin;
                           asc Z.compare UserORM.id]))).
  - intros a b. unfold precedes, admins_first, desc, asc. simpl.
    assert (Hid : match UserORM.id a ?= UserORM.id b with
                  | Eq => Eq
                  | Lt => Lt
                  | Gt => Gt
                  end <> Gt -> UserORM.id a <= UserORM.id b).
    { destruct (Z.compare_spec (UserORM.id a) (UserORM.id b)); intros Hgt;
        [lia | lia | now destruct Hgt]. }
    destruct (UserORM.is_admin a), (UserORM.is_admin b); simpl; intros Hgt.
    + right. auto.
    + left. auto.
    + now destruct Hgt.
    + right. auto.
  - apply order_by_sorted. order_terms.
Qed.

(** ** More on the cart *)

Lemma pair_eqb_eq (a b : Z * Z) : pair_eqb a b = true <-> a = b.
Proof.
  destruct a as [a1 a2], b as [b1 b2]. unfold pair_eqb. simpl.
  rewrite andb_true_iff, !Z.eqb_eq. split; [intros [-> ->] | intros [= -> ->]];
    auto.
Qed.

Lemma distinct_filter {A K : Type} (eqb : K -> K -> bool) (key : A -> K)
  (p : A -> bool) (l : list A) :
  distinct eqb (map key l) = true ->
  distinct eqb (map key (filter p l)) = true.
Proof.
  induction l as [| a l IH]; simpl; [reflexivity |].
  intros H. apply andb_prop in H as [Ha Hl].
  destruct (p a); simpl; [| auto].
  rewrite (IH Hl), andb_true_r. apply negb_true_iff in Ha.
  apply negb_true_iff. destruct (existsb _ (map key (filter p l))) eqn:E;
    [| reflexivity].
  apply existsb_exists in E as (k & Hk & E).
  apply in_map_iff in Hk as (x & <- & Hx). apply filter_In in Hx as [Hx _].
  assert (existsb (eqb (key a)) (map key l) = true); [| congruence].
  apply existsb_exists. exists (key x). split; [now apply in_map | exact E].
Qed.

Lemma distinct_map_same_key {A K : Type} (eqb : K -> K -> bool) (key : A -> K)
  (f : A -> A) (l : list A) :
  (forall x, In x l -> key (f x) = key x) ->
  distinct eqb (map key (map f l)) = distinct eqb (map key l).
Proof.
  intros H. rewrite map_map. f_equal. now apply map_ext_in.
Qed.

Lemma distinct_fresh_rowid (ids : list Z) :
  distinct Z.eqb ids = true -> distinct Z.eqb (ids ++ [next_rowid ids]) = true.
Proof.
  intros H. apply (distinct_snoc Z.eqb Z.eqb_sym); [exact H |].
  destruct (existsb _ ids) eqn:E; [| reflexivity].
  apply existsb_exists in E as (x & Hx & E). apply Z.eqb_eq in E. subst x.
  now apply next_rowid_fresh in Hx.
Qed.

Lemma with_cart_items_same (db : DB) : Cart.with_cart_items db (cart_items db) = db.
Proof. now destruct db. Qed.

Lemma scalar_one_some {A : Type} (p : A -> bool) (l : list A) (x : A) :
  scalar_one_or_none (filter p l) = Return (Some x) -> In x l /\ p x = true.
Proof.
  destruct (filter p l) as [| a [| b r]] eqn:E; simpl; try discriminate.
  intros [= ->]. apply filter_In. rewrite E. now left.
Qed.

Lemma scalar_one_none {A : Type} (p : A -> bool) (l : list A) :
  scalar_one_or_none (filter p l) = Return None ->
  forall x, In x l -> p x = false.
Proof.
  destruct (filter p l) as [| a [| b r]] eqn:E; simpl; try discriminate.
  intros _ x Hx. destruct (p x) eqn:Ep; [| reflexivity].
  assert (In x (filter p l)) by (apply filter_In; auto).
  rewrite E in H. contradiction.
Qed.

(** The four handlers that write to the cart only make cart writes of the
    caller. *)
Lemma cart_handlers_write (now cid : Z) (payload : CartItemAdd.t)
  (update : CartItemUpdate.t) (current_user : User.t) (db db' : DB) :
  In db' [fst (Cart.add_to_cart now payload current_user db);
          fst (Cart.update_cart_item cid update current_user db);
          fst (Cart.remove_from_cart cid current_user db);
          fst (Cart.clear_cart_endpoint current_user db)] ->
  db' = db
  \/ exists user,
       user_by_username db (User.username current_user) = Return (Some user)
       /\ cart_write (UserORM.id user) db db'.
Proof.
  unfold Cart.add_to_cart, Cart.update_cart_item, Cart.remove_from_cart,
    Cart.clear_cart_endpoint.
  destruct (user_by_username db (User.username current_user))
    as [[user |] | e] eqn:Eu; simpl;
    try (intros [<- | [<- | [<- | [<- | []]]]]; now left).
  intros [<- | [<- | [<- | [<- | []]]]].
  - destruct (gear_by_id db _) as [[gear |] | e]; simpl; try now left.
    destruct (scalar_one_or_none _) as [[existing |] | e] eqn:Ex; simpl;
      try now left.
    + unfold Cart.set_quantity.
      destruct (bind_int_cases (CartItemORM.quantity existing
                                + CartItemAdd.quantity payload))
        as [[_ ->] | [_ ->]]; simpl; [| now left].
      apply scalar_one_some in Ex as [Hin Hp].
      apply andb_prop in Hp as [Hp _]. apply Z.eqb_eq in Hp.
      right. exists user. split; [reflexivity |]. now constructor.
    + unfold Cart.insert_cart_item.
      destruct (bind_int_cases (CartItemAdd.quantity payload))
        as [[_ ->] | [_ ->]]; simpl; [| now left].
      right. exists user. split; [reflexivity |]. constructor.
      intros c Hc E. pose proof (scalar_one_none _ _ Ex c Hc) as Hp.
      unfold cart_pair in E. injection E as E1 E2. cbv beta in Hp.
      rewrite E1, E2, !Z.eqb_refl in Hp. discriminate.
  - unfold Cart.own_cart_item.
    destruct (bind_int_cases cid) as [[_ ->] | [_ ->]]; simpl; [| now left].
    destruct (scalar_one_or_none _) as [[row |] | e] eqn:Ex; simpl;
      try now left.
    apply scalar_one_some in Ex as [Hin Hp].
    apply andb_prop in Hp as [_ Hp]. apply Z.eqb_eq in Hp.
    destruct (_ <=? 0); simpl.
    + right. exists user. split; [reflexivity |]. now constructor.
    + unfold Cart.set_quantity.
      destruct (bind_int_cases (CartItemUpdate.quantity update))
        as [[_ ->] | [_ ->]]; simpl; [| now left].
      right. exists user. split; [reflexivity |]. now constructor.
  - unfold Cart.own_cart_item.
    destruct (bind_int_cases cid) as [[_ ->] | [_ ->]]; simpl; [| now left].
    destruct (scalar_one_or_none _) as [[row |] | e] eqn:Ex; simpl;
      try now left.
    apply scalar_one_some in Ex as [Hin Hp].
    apply andb_prop in Hp as [_ Hp]. apply Z.eqb_eq in Hp.
    right. exists user. split; [reflexivity |]. now constructor.
  - right. exists user. split; [reflexivity |]. apply write_clear.
Qed.

Lemma set_quantity_rows (db : DB) (row : CartItemORM.t) (q : Z) :
  distinct Z.eqb (map CartItemORM.id (cart_items db)) = true ->
  In row (cart_items db) ->
  forall c, In c (cart_items db) ->
    (if CartItemORM.id c =? CartItemORM.id row
     then CartItemORM.with_quantity q c else c)
    = if CartItemORM.id c =? CartItemORM.id row
      then CartItemORM.with_quantity q row else c.
Proof.
  intros Hd Hrow c Hc.
  destruct (Z.eqb_spec (CartItemORM.id c) (CartItemORM.id row)) as [E |];
    [| reflexivity].
  now rewrite (distinct_key_inj Z.eqb CartItemORM.id Z.eqb_eq _ c row Hd Hc Hrow E).
Qed.

Lemma filter_map_unchanged {A : Type} (p : A -> bool) (f : A -> A)
  (l : list A) :
  (forall x, In x l -> p (f x) = p x) ->
  (forall x, In x l -> p x = true -> f x = x) ->
  filter p (map f l) = filter p l.
Proof.
  induction l as [| a l IH]; simpl; [reflexivity |].
  intros H1 H2. rewrite (H1 a) by auto.
  destruct (p a) eqn:E; rewrite IH by auto; [| reflexivity].
  now rewrite (H2 a) by auto.
Qed.

Lemma filter_all {A : Type} (p : A -> bool) (l : list A) :
  (forall x, In x l -> p x = true) -> filter p l = l.
Proof.
  induction l as [| a l IH]; simpl; intros H; [reflexivity |].
  rewrite (H a) by auto. f_equal. apply IH. auto.
Qed.

Lemma cart_write_tables (uid : Z) (db db' : DB) :
  cart_write uid db db' ->
  users db' = users db /\ gear_items db' = gear_items db.
Proof.
  destruct 1; try (split; reflexivity).
  destruct (delete_rows (cart_rows db uid) db) as (E1 & E2 & _). auto.
Qed.

Lemma cart_write_isolated (uid other : Z) (db db' : DB) :
  constraints db = true -> cart_write uid db db' -> other <> uid ->
  cart_rows db' other = cart_rows db other.
Proof.
  intros Hc W Ho. destruct (constraints_parts db Hc) as (_ & _ & _ & Hd).
  unfold cart_rows. destruct W as [| now gid q _ | row q Hin Hu | row Hin Hu |];
    simpl.
  - reflexivity.
  - rewrite filter_app. simpl.
    destruct (Z.eqb_spec uid other); [congruence |]. apply app_nil_r.
  - apply filter_map_unchanged.
    + intros c _. now destruct (CartItemORM.id c =? CartItemORM.id row).
    + intros c Hc' Ec.
      destruct (Z.eqb_spec (CartItemORM.id c) (CartItemORM.id row)) as [E |];
        [| reflexivity].
      rewrite (distinct_key_inj Z.eqb CartItemORM.id Z.eqb_eq _ c row Hd Hc' Hin E)
        in Ec. lia.
  - rewrite filter_swap. apply filter_all. intros c Hc'.
    apply filter_In in Hc' as [Hc' Ec]. apply negb_true_iff.
    destruct (Z.eqb_spec (CartItemORM.id c) (CartItemORM.id row)) as [E |];
      [| reflexivity].
    rewrite (distinct_key_inj Z.eqb CartItemORM.id Z.eqb_eq _ c row Hd Hc' Hin E)
      in Ec. lia.
  - rewrite (delete_rows_of_user db uid Hd), filter_swap.
    apply filter_all. intros c Hc'. apply filter_In in Hc' as [_ Ec].
    apply negb_true_iff, Z.eqb_neq. lia.
Qed.

Lemma cart_write_constraints (uid : Z) (db db' : DB) :
  constraints db = true -> cart_write uid db db' -> constraints db' = true.
Proof.
  intros Hc W. destruct (constraints_parts db Hc) as (H1 & H2 & H3 & H4).
  destruct (cart_write_tables uid db db' W) as [Eu Eg].
  unfold constraints. rewrite Eu, Eg, H1, H2, H3. simpl.
  destruct W as [| now gid q _ | row q Hin Hu | row Hin Hu |]; simpl.
  - exact H4.
  - rewrite map_app. simpl. now apply distinct_fresh_rowid.
  - rewrite distinct_map_same_key; [exact H4 |].
    intros c _. now destruct (CartItemORM.id c =? CartItemORM.id row).
  - now apply distinct_filter.
  - destruct (delete_rows (cart_rows db uid) db) as (_ & _ & ->).
    now apply distinct_filter.
Qed.

Lemma cart_write_pairs (uid : Z) (db db' : DB) :
  one_row_per_pair db = true -> cart_write uid db db' ->
  one_row_per_pair db' = true.
Proof.
  unfold one_row_per_pair. intros Hp W.
  destruct W as [| now gid q Hfree | row q Hin Hu | row Hin Hu |]; simpl.
  - exact Hp.
  - rewrite map_app. simpl.
    apply (distinct_snoc pair_eqb); [| exact Hp |].
    + intros [a1 a2] [b1 b2]. unfold pair_eqb. simpl.
      now rewrite (Z.eqb_sym a1), (Z.eqb_sym a2).
    + destruct (existsb _ _) eqn:E; [| reflexivity].
      apply existsb_exists in E as (k & Hk & E). apply pair_eqb_eq in E.
      apply in_map_iff in Hk as (c & Ec & Hc). subst k.
      now apply Hfree in Hc.
  - rewrite distinct_map_same_key; [exact Hp |].
    intros c _. now destruct (CartItemORM.id c =? CartItemORM.id row).
  - now apply distinct_filter.
  - destruct (delete_rows (cart_rows db uid) db) as (_ & _ & ->).
    now apply distinct_filter.
Qed.

(** X17. Cart isolation: on a store that meets its constraints, whatever
    [add_to_cart], [update_cart_item], [remove_from_cart] or
    [clear_cart_endpoint] leave behind for a caller who resolves to a user
    row, the user and gear tables and the cart rows of every other user are
    as they were. *)
Theorem cart_writes_are_the_callers (now cid : Z) (payload : CartItemAdd.t)
  (update : CartItemUpdate.t) (current_user : User.t) (db db' : DB)
  (user : UserORM.t) :
  constraints db = true ->
  In user (users db) ->
  UserORM.username user = User.username current_user ->
  In db' [fst (Cart.add_to_cart now payload current_user db);
          fst (Cart.update_cart_item cid update current_user db);
          fst (Cart.remove_from_cart cid current_user db);
          fst (Cart.clear_cart_endpoint current_user db)] ->
  users db' = users db
  /\ gear_items db' = gear_items db
  /\ forall other, other <> UserORM.id user ->
       cart_rows db' other = cart_rows db other.
Proof.
  intros Hc Hin Hname Hdb.
  destruct (constraints_parts db Hc) as (_ & Hu & _ & _).
  destruct (cart_handlers_write _ _ _ _ _ _ _ Hdb) as [-> | (u & Eu & W)];
    [auto |].
  rewrite <- Hname, (user_by_username_the_row db user Hu Hin) in Eu.
  injection Eu as <-.
  destruct (cart_write_tables _ _ _ W) as [E1 E2].
  repeat split; auto. intros other Ho.
  now apply (cart_write_isolated (UserORM.id user)).
Qed.

(** X18. The four cart writers keep the constraints of the store and keep the
    cart table at no more than one row per user and gear item. *)
Theorem cart_handlers_keep_invariants (now cid : Z) (payload : CartItemAdd.t)
  (update : CartItemUpdate.t) (current_user : User.t) (db db' : DB) :
  constraints db = true ->
  one_row_per_pair db = true ->
  In db' [fst (Cart.add_to_cart now payload current_user db);
          fst (Cart.update_cart_item cid update current_user db);
          fst (Cart.remove_from_cart cid current_user db);
          fst (Cart.clear_cart_endpoint current_user db)] ->
  constraints db' = true /\ one_row_per_pair db' = true.
Proof.
  intros Hc Hp Hdb.
  destruct (cart_handlers_write _ _ _ _ _ _ _ Hdb) as [-> | (u & _ & W)];
    [auto |].
  split; [now apply (cart_write_constraints (UserORM.id u) db)
         | now apply (cart_write_pairs (UserORM.id u) db)].
Qed.

Lemma committed_raise {A : Type} (db d : DB) (work : outcome DB) (a : A)
  (e : exn) :
  committed db work (fun _ => Return a) = (d, Raise e) -> d = db.
Proof. destruct work; simpl; intros [= ]; congruence. Qed.

Section RegistrationStore.

Variable pwd_hash : string -> string -> string.

(** X19. [register_user] keeps the constraints of the store and never touches the
    gear or cart tables; it either raises and leaves the store as it was, or
    answers 'registered' having appended exactly one user row, not an admin,
    under the trimmed username and an id no row had. *)
Theorem register_user_store (now : Z) (salt : string)
  (payload : RegisterRequest.t) (db : DB) :
  constraints db = true ->
  let db' := fst (Auth.register_user pwd_hash now salt payload db) in
  let outcome := snd (Auth.register_user pwd_hash now salt payload db) in
  constraints db' = true
  /\ gear_items db' = gear_items db
  /\ cart_items db' = cart_items db
  /\ ((exists e, outcome = Raise e /\ db' = db)
      \/ (outcome = Return "registered"
          /\ exists row,
               users db' = (users db ++ [row])%list
               /\ UserORM.is_admin row = false
               /\ UserORM.username row
                  = strip (RegisterRequest.username payload)
               /\ ~ In (UserORM.id row) (map UserORM.id (users db)))).
Proof.
  intros Hc db' outcome.
  destruct (constraints_parts db Hc) as (H1 & H2 & H3 & H4).
  destruct (Auth.register_user pwd_hash now salt payload db) as [d [msg | e]]
    eqn:E; subst db' outcome; cbn [fst snd].
  - destruct (register_user_accepted pwd_hash now salt payload db d msg E)
      as (_ & _ & _ & _ & Hnew & -> & ->).
    cbn [users gear_items cart_items].
    split; [| split; [reflexivity | split; [reflexivity |]]].
    + unfold constraints. cbn [users gear_items cart_items].
      rewrite !map_app. cbn [map UserORM.id UserORM.username].
      rewrite (distinct_fresh_rowid _ H1), H3, H4.
      rewrite (distinct_snoc String.eqb String.eqb_sym _ _ H2); [reflexivity |].
      rewrite <- Hnew. clear. induction (users db) as [| a l IH]; simpl;
        [reflexivity | now rewrite IH].
    + right. split; [reflexivity |]. eexists. split; [reflexivity |].
      cbn [UserORM.is_admin UserORM.username UserORM.id].
      split; [reflexivity | split; [reflexivity |]].
      apply next_rowid_fresh.
  - assert (d = db) as ->.
    { unfold Auth.register_user in E.
      exact (committed_raise _ _ _ _ _ E). }
    split; [exact Hc | split; [reflexivity | split; [reflexivity |]]].
    left. eauto.
Qed.

End RegistrationStore.

Lemma pair_lookup (db : DB) (uid gid : Z) :
  one_row_per_pair db = true ->
  scalar_one_or_none
    (filter (fun c => (CartItemORM.user_id c =? uid)
                      && (CartItemORM.gear_item_id c =? gid))
       (cart_items db))
  = Return (find (fun c => pair_eqb (cart_pair c) (uid, gid)) (cart_items db)).
Proof.
  intros Hp.
  exact (scalar_is_find pair_eqb cart_pair pair_eqb_eq (cart_items db)
           (uid, gid) Hp).
Qed.

Lemma filter_map_same {A : Type} (p : A -> bool) (f : A -> A) (l : list A) :
  (forall x, p (f x) = p x) -> filter p (map f l) = map f (filter p l).
Proof.
  intros H. induction l as [| a l IH]; simpl; [reflexivity |].
  rewrite H. destruct (p a); simpl; now rewrite IH.
Qed.

(** X20. On a store with the constraints and one cart row per pair at
    most, [add_to_cart] by a caller who resolves, for a gear item that
    exists, finds no row or one row of the pair.  With no row, a quantity
    the INTEGER column holds (signed 64-bit) is stored in a new row at the
    end of the table; with one, the row keeps its id and takes the sum of
    its quantity and the payload's, if that sum is such a value, and the
    table is no longer than before.  Either way the answer is the cart as
    [get_cart] reads it after the commit, and exactly one row holds the
    pair.  When the value to store is beyond the column the commit raises
    and nothing is written. *)
Theorem add_to_cart_merges (now : Z) (payload : CartItemAdd.t)
  (current_user : User.t) (db : DB) (user : UserORM.t) :
  constraints db = true ->
  one_row_per_pair db = true ->
  In user (users db) ->
  UserORM.username user = User.username current_user ->
  In (CartItemAdd.gear_item_id payload) (map GearItemORM.id (gear_items db)) ->
  in_int64 (CartItemAdd.gear_item_id payload) = true ->
  let mine := fun c => (CartItemORM.user_id c =? UserORM.id user)
                       && (CartItemORM.gear_item_id c
                           =? CartItemAdd.gear_item_id payload) in
  let result := Cart.add_to_cart now payload current_user db in
  (filter mine (cart_items db) = []
   /\ (in_int64 (CartItemAdd.quantity payload) = true ->
       exists db' cart row,
         result = (db', Return cart)
         /\ Cart.get_cart current_user db' = Return cart
         /\ filter mine (cart_items db') = [row]
         /\ CartItemORM.quantity row = CartItemAdd.quantity payload
         /\ cart_items db' = (cart_items db ++ [row])%list)
   /\ (in_int64 (CartItemAdd.quantity payload) = false ->
       result = (db, Raise OverflowError)))
  \/ exists old,
       filter mine (cart_items db) = [old]
       /\ let sum := CartItemORM.quantity old + CartItemAdd.quantity payload in
          (in_int64 sum = true ->
           exists db' cart row,
             result = (db', Return cart)
             /\ Cart.get_cart current_user db' = Return cart
             /\ filter mine (cart_items db') = [row]
             /\ CartItemORM.id row = CartItemORM.id old
             /\ CartItemORM.quantity row = sum
             /\ List.length (cart_items db') = List.length (cart_items db))
          /\ (in_int64 sum = false -> result = (db, Raise OverflowError)).
Proof.
  intros Hc Hp Hin Hname Hgid Hgi mine result.
  destruct (constraints_parts db Hc) as (_ & Hu & Hg & Hd).
  apply in_map_iff in Hgid as (gear & Hgear & Hgin).
  assert (Hfind : gear_by_id db (CartItemAdd.gear_item_id payload)
                  = Return (Some gear)).
  { rewrite (gear_by_id_is_find db _ Hg Hgi), <- Hgear.
    now rewrite (find_the_row Z.eqb GearItemORM.id Z.eqb_eq _ _ Hg Hgin). }
  assert (Hcart : forall d, users d = users db -> gear_items d = gear_items db ->
            Cart.get_cart current_user d
            = Return (CartResponse.mk
                (map line_response (resolved d (cart_rows d (UserORM.id user))))
                (sum_prices (resolved d (cart_rows d (UserORM.id user)))))).
  { intros d E1 E2. apply get_cart_lines; rewrite ?E1, ?E2; assumption. }
  pose proof (pair_lookup db (UserORM.id user)
                (CartItemAdd.gear_item_id payload) Hp) as Hlook.
  fold mine in Hlook.
  assert (Hres : result
                 = committed db
                     (match find (fun c => pair_eqb (cart_pair c)
                                    (UserORM.id user,
                                     CartItemAdd.gear_item_id payload))
                              (cart_items db) with
                      | Some existing =>
                          Cart.set_quantity db existing
                            (CartItemORM.quantity existing
                             + CartItemAdd.quantity payload)
                      | None =>
                          Cart.insert_cart_item db now (UserORM.id user)
                            (CartItemAdd.gear_item_id payload)
                            (CartItemAdd.quantity payload)
                      end)
                     (Cart.get_cart current_user)).
  { unfold result, Cart.add_to_cart.
    rewrite <- Hname, (user_by_username_the_row db user Hu Hin). cbn [bind].
    rewrite Hfind. cbn [bind]. fold mine. rewrite Hlook. reflexivity. }
  rewrite Hres.
  destruct (find _ (cart_items db)) as [old |] eqn:Ef.
  - right. exists old.
    apply find_some in Ef as [Hold Epair]. apply pair_eqb_eq in Epair.
    assert (Hmine_old : filter mine (cart_items db) = [old]).
    { change mine with (fun c => pair_eqb (cart_pair c)
                         (UserORM.id user, CartItemAdd.gear_item_id payload)).
      rewrite <- Epair.
      apply (filter_the_row pair_eqb cart_pair pair_eqb_eq _ _ Hp Hold). }
    split; [exact Hmine_old |]. intros sum. unfold Cart.set_quantity.
    fold sum. split; intros Hs.
    + rewrite (bind_int_ok sum Hs). cbn [bind committed].
      set (db' := Cart.quantity_written db old sum).
      rewrite (Hcart db' eq_refl eq_refl).
      eexists db', _, (CartItemORM.with_quantity sum old).
      split; [reflexivity |]. split; [apply (Hcart db' eq_refl eq_refl) |].
      split.
      * unfold db', Cart.quantity_written.
        cbn [cart_items Cart.with_cart_items].
        rewrite filter_map_same, Hmine_old.
        -- simpl. now rewrite Z.eqb_refl.
        -- intros c. now destruct (CartItemORM.id c =? CartItemORM.id old).
      * split; [reflexivity | split; [reflexivity |]].
        unfold db'. simpl. apply length_map.
    + now rewrite (bind_int_refused sum Hs).
  - left.
    pose proof (find_none _ _ Ef) as Hnone.
    assert (Hmine_none : filter mine (cart_items db) = [])
      by (apply filter_none; intros c Hc'; apply (Hnone c Hc')).
    split; [exact Hmine_none |]. unfold Cart.insert_cart_item.
    split; intros Hq.
    + rewrite (bind_int_ok _ Hq). cbn [bind committed].
      set (row := CartItemORM.mk
                    (next_rowid (map CartItemORM.id (cart_items db)))
                    (UserORM.id user) (CartItemAdd.gear_item_id payload)
                    (CartItemAdd.quantity payload) now).
      set (db' := Cart.cart_item_added db now (UserORM.id user)
                    (CartItemAdd.gear_item_id payload)
                    (CartItemAdd.quantity payload)).
      rewrite (Hcart db' eq_refl eq_refl).
      eexists db', _, row.
      split; [reflexivity |]. split; [apply (Hcart db' eq_refl eq_refl) |].
      assert (Hmine : filter mine (cart_items db') = [row]).
      { unfold db'. simpl. rewrite filter_app, Hmine_none. simpl.
        unfold mine. simpl. now rewrite !Z.eqb_refl. }
      split; [exact Hmine |]. split; reflexivity.
    + now rewrite (bind_int_refused _ Hq).
Qed.

(** X21. Adding a gear item the caller's cart does not hold, in a quantity
    the INTEGER column holds, and then removing the new cart item, whose id
    is the next row id of the cart table, gives back the store from before
    the add, and the response is the cart from before. *)
Theorem add_then_remove (now : Z) (payload : CartItemAdd.t)
  (current_user : User.t) (db : DB) (user : UserORM.t) :
  constraints db = true ->
  In user (users db) ->
  UserORM.username user = User.username current_user ->
  In (CartItemAdd.gear_item_id payload) (map GearItemORM.id (gear_items db)) ->
  in_int64 (CartItemAdd.gear_item_id payload) = true ->
  in_int64 (CartItemAdd.quantity payload) = true ->
  (forall c, In c (cart_items db) ->
     cart_pair c <> (UserORM.id user, CartItemAdd.gear_item_id payload)) ->
  let added := fst (Cart.add_to_cart now payload current_user db) in
  let new_id := next_rowid (map CartItemORM.id (cart_items db)) in
  in_int64 new_id = true ->
  In new_id (map CartItemORM.id (cart_rows added (UserORM.id user)))
  /\ Cart.remove_from_cart new_id current_user added
     = (db, Cart.get_cart current_user db).
Proof.
  intros Hc Hin Hname Hgid Hgi Hqi Hfree added new_id Hni.
  destruct (constraints_parts db Hc) as (_ & Hu & Hg & Hd).
  apply in_map_iff in Hgid as (gear & Hgear & Hgin).
  assert (Hfind : gear_by_id db (CartItemAdd.gear_item_id payload)
                  = Return (Some gear)).
  { rewrite (gear_by_id_is_find db _ Hg Hgi), <- Hgear.
    now rewrite (find_the_row Z.eqb GearItemORM.id Z.eqb_eq _ _ Hg Hgin). }
  set (row := CartItemORM.mk new_id (UserORM.id user)
                (CartItemAdd.gear_item_id payload)
                (CartItemAdd.quantity payload) now).
  assert (Eadded : added = Cart.with_cart_items db (cart_items db ++ [row])).
  { unfold added, Cart.add_to_cart.
    rewrite <- Hname, (user_by_username_the_row db user Hu Hin). cbn [bind].
    rewrite Hfind. cbn [bind].
    rewrite filter_none.
    - cbn [scalar_one_or_none bind]. unfold Cart.insert_cart_item.
      rewrite (bind_int_ok _ Hqi). reflexivity.
    - intros c Hc'. specialize (Hfree c Hc'). unfold cart_pair in Hfree.
      destruct (Z.eqb_spec (CartItemORM.user_id c) (UserORM.id user))
        as [E1 |]; [| reflexivity].
      destruct (Z.eqb_spec (CartItemORM.gear_item_id c)
                  (CartItemAdd.gear_item_id payload)) as [E2 |];
        [| reflexivity].
      congruence. }
  assert (Hfresh : forall c, In c (cart_items db) ->
            (CartItemORM.id c =? new_id) = false).
  { intros c Hc'. apply Z.eqb_neq. intros E.
    apply (next_rowid_fresh (map CartItemORM.id (cart_items db))).
    fold new_id. rewrite <- E. now apply in_map. }
  rewrite Eadded. split.
  - unfold cart_rows. simpl. rewrite filter_app, map_app. simpl.
    rewrite Z.eqb_refl. apply in_or_app. right. now left.
  - unfold Cart.remove_from_cart, Cart.own_cart_item.
    cbn [users cart_items Cart.with_cart_items].
    assert (user_by_username (Cart.with_cart_items db (cart_items db ++ [row]))
              (User.username current_user) = Return (Some user)) as ->
      by (rewrite <- Hname; apply (user_by_username_the_row _ user Hu Hin)).
    cbn [bind]. rewrite (bind_int_ok new_id Hni). cbn [bind].
    rewrite filter_app, filter_none.
    + simpl. rewrite !Z.eqb_refl. simpl.
      assert (Cart.delete_cart_item
                (Cart.with_cart_items db (cart_items db ++ [row])) row = db)
        as ->; [| reflexivity].
      unfold Cart.delete_cart_item. simpl. rewrite filter_app. simpl.
      rewrite Z.eqb_refl. simpl. rewrite app_nil_r, filter_all.
      * now destruct db.
      * intros c Hc'. now rewrite (Hfresh c Hc').
    + intros c Hc'. now rewrite (Hfresh c Hc').
Qed.

(** X22. [clear_cart_endpoint] by a caller who resolves deletes exactly the
    caller's cart rows, leaves the user and gear tables, and answers the
    empty cart with total 0.0; [get_cart] afterwards returns the empty cart,
    and clearing again changes nothing. *)
Theorem clear_cart_empties (current_user : User.t) (db : DB)
  (user : UserORM.t) :
  constraints db = true ->
  In user (users db) ->
  UserORM.username user = User.username current_user ->
  let empty := Return (CartResponse.mk [] 0%float) in
  exists db',
    Cart.clear_cart_endpoint current_user db = (db', empty)
    /\ cart_items db'
       = filter (fun c => negb (CartItemORM.user_id c =? UserORM.id user))
           (cart_items db)
    /\ users db' = users db /\ gear_items db' = gear_items db
    /\ Cart.get_cart current_user db' = empty
    /\ Cart.clear_cart_endpoint current_user db' = (db', empty).
Proof.
  intros Hc Hin Hname empty.
  destruct (constraints_parts db Hc) as (_ & Hu & Hg & Hd).
  set (db' := fold_left Cart.delete_cart_item (cart_rows db (UserORM.id user)) db).
  destruct (delete_rows (cart_rows db (UserORM.id user)) db) as (Eu & Eg & _).
  pose proof (delete_rows_of_user db (UserORM.id user) Hd) as Ec.
  fold db' in Eu, Eg, Ec.
  assert (Hnone : cart_rows db' (UserORM.id user) = []).
  { unfold cart_rows. rewrite Ec. apply filter_none. intros c Hc'.
    apply filter_In in Hc' as [_ Hc']. now apply negb_true_iff in Hc'. }
  assert (Hclear : forall d, users d = users db ->
            Cart.clear_cart_endpoint current_user d
            = (fold_left Cart.delete_cart_item (cart_rows d (UserORM.id user)) d,
               empty)).
  { intros d Ed. unfold Cart.clear_cart_endpoint, user_by_username.
    rewrite Ed. fold (user_by_username db (User.username current_user)).
    rewrite <- Hname, (user_by_username_the_row db user Hu Hin). reflexivity. }
  exists db'. split; [apply (Hclear db eq_refl) |].
  split; [exact Ec |]. split; [exact Eu |]. split; [exact Eg |]. split.
  - rewrite (get_cart_lines current_user db' user); rewrite ?Eu, ?Eg; auto.
    now rewrite Hnone.
  - rewrite (Hclear db' Eu), Hnone. reflexivity.
Qed.

(** X23. [remove_from_cart] of a cart item of the caller, by its id, a
    value of the INTEGER column (signed 64-bit) as every stored id is,
    deletes that row, whatever its quantity, and returns the caller's other
    lines with their total; for an id beyond that range the request raises
    before any lookup; [update_cart_item] with a quantity of zero or less
    does exactly what [remove_from_cart] does. *)
Theorem remove_from_cart_own (cid : Z) (current_user : User.t) (db : DB)
  (user : UserORM.t) (row : CartItemORM.t) :
  constraints db = true ->
  In user (users db) ->
  UserORM.username user = User.username current_user ->
  In row (cart_items db) ->
  CartItemORM.id row = cid ->
  CartItemORM.user_id row = UserORM.id user ->
  let others :=
    filter (fun l => negb (CartItemORM.id (fst l) =? cid))
      (resolved db (cart_rows db (UserORM.id user))) in
  Cart.remove_from_cart cid current_user db
  = (if in_int64 cid
     then (Cart.delete_cart_item db row,
           Return (CartResponse.mk (map line_response others)
                     (sum_prices others)))
     else (db, Raise OverflowError))
  /\ forall q, q <= 0 ->
       Cart.update_cart_item cid (CartItemUpdate.mk q) current_user db
       = Cart.remove_from_cart cid current_user db.
Proof.
  intros Hc Hin Hname Hrow Hid Hown others.
  destruct (constraints_parts db Hc) as (_ & Hu & Hg & _).
  unfold Cart.update_cart_item, Cart.remove_from_cart.
  rewrite <- Hname, (user_by_username_the_row db user Hu Hin). cbn [bind].
  destruct (in_int64 cid) eqn:Hi.
  - pose proof (own_cart_item_cases db cid user row Hc Hrow Hid Hi) as Hlook.
    rewrite Hown, Z.eqb_refl in Hlook.
    rewrite Hlook. cbn [bind committed]. split.
    + rewrite (get_cart_lines current_user (Cart.delete_cart_item db row) user
                 Hu Hg Hin Hname).
      rewrite cart_rows_delete, Hid. reflexivity.
    + intros q Hq. cbn [CartItemUpdate.quantity].
      destruct (Z.leb_spec q 0); [reflexivity | lia].
  - unfold Cart.own_cart_item. rewrite (bind_int_refused cid Hi).
    split; [reflexivity | intros q _; reflexivity].
Qed.

(** X24. When no user row has the caller's username, [get_cart] raises 404
    'User not found' and each of the four cart writers raises it and leaves
    the store as it is; when the caller resolves, [add_to_cart] raises 404
    'Gear item not found' for a gear item id of the INTEGER column (signed
    64-bit) that no gear row has and an [OverflowError] for an id beyond
    that range, and leaves the store as it is. *)
Theorem cart_not_found (now cid : Z) (payload : CartItemAdd.t)
  (update : CartItemUpdate.t) (current_user : User.t) (db : DB) :
  let no_user := Raise (HTTPException 404 "User not found") in
  (~ In (User.username current_user) (map UserORM.username (users db)) ->
   Cart.get_cart current_user db = no_user
   /\ Cart.add_to_cart now payload current_user db = (db, no_user)
   /\ Cart.update_cart_item cid update current_user db = (db, no_user)
   /\ Cart.remove_from_cart cid current_user db = (db, no_user)
   /\ Cart.clear_cart_endpoint current_user db = (db, no_user))
  /\ (constraints db = true ->
      In (User.username current_user) (map UserORM.username (users db)) ->
      (in_int64 (CartItemAdd.gear_item_id payload) = true ->
       ~ In (CartItemAdd.gear_item_id payload)
           (map GearItemORM.id (gear_items db)) ->
       Cart.add_to_cart now payload current_user db
       = (db, Raise (HTTPException 404 "Gear item not found")))
      /\ (in_int64 (CartItemAdd.gear_item_id payload) = false ->
          Cart.add_to_cart now payload current_user db
          = (db, Raise OverflowError))).
Proof.
  intros no_user. split.
  - intros Habs.
    unfold Cart.get_cart, Cart.add_to_cart, Cart.update_cart_item,
      Cart.remove_from_cart, Cart.clear_cart_endpoint, user_by_username.
    rewrite (filter_absent String.eqb UserORM.username String.eqb_eq _ _ Habs).
    repeat split.
  - intros Hc Hin.
    destruct (constraints_parts db Hc) as (_ & Hu & Hg & _).
    apply in_map_iff in Hin as (user & Hname & Hin).
    unfold Cart.add_to_cart.
    rewrite <- Hname, (user_by_username_the_row db user Hu Hin). cbn [bind].
    split.
    + intros Hi Habs. rewrite (gear_by_id_is_find db _ Hg Hi).
      now rewrite (find_absent Z.eqb GearItemORM.id Z.eqb_eq _ _ Habs).
    + intros Hi. now rewrite (gear_by_id_refused db _ Hi).
Qed.

(** ** Managing the catalog *)

Lemma real_value_not_nan (v : float) :
  is_nan v = false -> is_nan (real_value v) = false.
Proof.
  intros H. unfold real_value. now destruct (v =? 0)%float.
Qed.

Lemma real_value_idempotent (v : float) :
  real_value (real_value v) = real_value v.
Proof.
  unfold real_value. destruct (v =? 0)%float eqn:E; [reflexivity |].
  now rewrite E.
Qed.

(** X25. [create_gear_item] on a store that meets its constraints: a price
    that is not a number is refused with an IntegrityError and nothing is
    written; any other payload appends one row under an id no row had,
    leaves the user and cart tables and keeps the constraints; the response
    repeats the payload under the new id, while the row holds the price and
    the rating as the REAL columns keep them, a negative zero as zero and a
    rating that is not a number as NULL, so the two agree when price and
    rating are stored as given; [get_gear_item] of the new id returns the
    stored row, and every earlier item is returned as before (the ids being
    values of the INTEGER column). *)
Theorem create_gear_item_cases (now : Z) (payload : GearItemCreate.t)
  (who : User.t) (db : DB) :
  constraints db = true ->
  let result := Admin.create_gear_item now payload who db in
  let new_id := next_rowid (map GearItemORM.id (gear_items db)) in
  let item price rating :=
    GearItem.mk new_id (GearItemCreate.name payload)
      (GearItemCreate.category payload) (GearItemCreate.brand payload)
      price (GearItemCreate.in_stock payload) rating
      (GearItemCreate.description payload)
      (GearItemCreate.image_url payload) in
  (is_nan (GearItemCreate.price payload) = true ->
   result = (db, Raise IntegrityError))
  /\ (is_nan (GearItemCreate.price payload) = false ->
      exists db' row,
        result
        = (db', Return (item (GearItemCreate.price payload)
                          (GearItemCreate.rating payload)))
        /\ to_schema row
           = item (real_value (GearItemCreate.price payload))
               (stored_real (GearItemCreate.rating payload))
        /\ ~ In new_id (map GearItemORM.id (gear_items db))
        /\ gear_items db' = (gear_items db ++ [row])%list
        /\ users db' = users db /\ cart_items db' = cart_items db
        /\ constraints db' = true
        /\ (in_int64 new_id = true ->
            Catalog.get_gear_item new_id db' = Return (to_schema row))
        /\ forall m, In m (gear_items db) ->
             in_int64 (GearItemORM.id m) = true ->
             Catalog.get_gear_item (GearItemORM.id m) db'
             = Return (to_schema m)).
Proof.
  intros Hc result new_id item.
  destruct (constraints_parts db Hc) as (H1 & H2 & H3 & H4).
  unfold result, Admin.create_gear_item. split; intros ->; [reflexivity |].
  cbn [committed_with]. fold new_id.
  set (row := GearItemORM.mk new_id _ _ _ _ _ _ _ _ _).
  set (db' := Admin.with_gear_items db (gear_items db ++ [row])).
  assert (Hg' : distinct Z.eqb (map GearItemORM.id (gear_items db')) = true).
  { unfold db'. simpl. rewrite map_app. simpl.
    now apply distinct_fresh_rowid. }
  eexists db', row. split; [reflexivity |].
  split; [reflexivity |]. split; [apply next_rowid_fresh |].
  split; [reflexivity |]. split; [reflexivity |]. split; [reflexivity |].
  split; [| split].
  - unfold constraints. rewrite Hg'. cbn [users cart_items db' Admin.with_gear_items].
    now rewrite H1, H2, H4.
  - intros Hi. apply (get_gear_item_row db' row Hg'); [| exact Hi].
    unfold db'. simpl. apply in_or_app. right. now left.
  - intros m Hm Hi. apply (get_gear_item_row db' m Hg'); [| exact Hi].
    unfold db'. simpl. apply in_or_app. now left.
Qed.

Lemma patched_fields (m m' : GearItemORM.t) (payload : GearItemUpdate.t) :
  Admin.patched m payload = Return m' ->
  GearItemORM.id m' = GearItemORM.id m
  /\ GearItemORM.created_at m' = GearItemORM.created_at m
  /\ GearItemORM.name m'
     = match GearItemUpdate.name payload with
       | Some (Some v) => v
       | _ => GearItemORM.name m
       end
  /\ GearItemORM.category m'
     = match GearItemUpdate.category payload with
       | Some (Some v) => v
       | _ => GearItemORM.category m
       end
  /\ GearItemORM.brand m'
     = match GearItemUpdate.brand payload with
       | Some (Some v) => v
       | _ => GearItemORM.brand m
       end
  /\ GearItemORM.price m'
     = match GearItemUpdate.price payload with
       | Some (Some v) => real_value v
       | _ => GearItemORM.price m
       end
  /\ GearItemORM.in_stock m'
     = match GearItemUpdate.in_stock payload with
       | Some (Some v) => v
       | _ => GearItemORM.in_stock m
       end
  /\ GearItemORM.rating m'
     = match GearItemUpdate.rating payload with
       | Some v => stored_real v
       | None => GearItemORM.rating m
       end
  /\ GearItemORM.description m'
     = match GearItemUpdate.description payload with
       | Some v => v
       | None => GearItemORM.description m
       end
  /\ GearItemORM.image_url m'
     = match GearItemUpdate.image_url payload with
       | Some v => v
       | None => GearItemORM.image_url m
       end.
Proof.
  unfold Admin.patched, Admin.set_required, Admin.set_price, Admin.set_nullable.
  destruct payload as [[[n |] |] [[c |] |] [[b |] |] [[p |] |] [[s |] |] r d i];
    simpl; try discriminate;
    try (destruct (is_nan p); simpl; try discriminate);
    intros [= <-]; simpl; repeat split.
Qed.

Lemma patched_refused (m : GearItemORM.t) (payload : GearItemUpdate.t) :
  GearItemUpdate.name payload = Some None
  \/ GearItemUpdate.category payload = Some None
  \/ GearItemUpdate.brand payload = Some None
  \/ GearItemUpdate.price payload = Some None
  \/ GearItemUpdate.in_stock payload = Some None
  \/ (exists v, GearItemUpdate.price payload = Some (Some v)
                /\ is_nan v = true) ->
  Admin.patched m payload = Raise IntegrityError.
Proof.
  unfold Admin.patched, Admin.set_required, Admin.set_price.
  destruct payload as [[[n |] |] [[c |] |] [[b |] |] [[p |] |] [[s |] |] r d i];
    simpl;
    intros [H | [H | [H | [H | [H | (v & H & Hv)]]]]];
    try discriminate; try reflexivity;
    try (destruct (is_nan p); reflexivity);
    injection H as <-; now rewrite Hv.
Qed.

Lemma stored_real_idempotent (x : option float) :
  stored_real (stored_real x) = stored_real x.
Proof.
  destruct x as [v |]; simpl; [| reflexivity].
  destruct (is_nan v) eqn:E; simpl; [reflexivity |].
  now rewrite (real_value_not_nan v E), real_value_idempotent.
Qed.

Lemma patched_twice (m m' : GearItemORM.t) (payload : GearItemUpdate.t) :
  Admin.patched m payload = Return m' ->
  Admin.patched m' payload = Return m'.
Proof.
  unfold Admin.patched, Admin.set_required, Admin.set_price, Admin.set_nullable.
  destruct payload as [[[n |] |] [[c |] |] [[b |] |] [[p |] |] [[s |] |] r d i];
    simpl; try discriminate;
    try (destruct (is_nan p); simpl; try discriminate);
    intros [= <-]; simpl; destruct r as [r |], d as [d |], i as [i |];
    reflexivity.
Qed.

Lemma replace_row_lookup (db : DB) (m m' : GearItemORM.t) :
  distinct Z.eqb (map GearItemORM.id (gear_items db)) = true ->
  In m (gear_items db) ->
  GearItemORM.id m' = GearItemORM.id m ->
  let rows := map (fun g => if GearItemORM.id g =? GearItemORM.id m
                            then m' else g) (gear_items db) in
  distinct Z.eqb (map GearItemORM.id rows) = true
  /\ In m' rows
  /\ forall g, In g (gear_items db) -> GearItemORM.id g <> GearItemORM.id m ->
       In g rows.
Proof.
  intros Hg Hm Hid rows. split; [| split].
  - unfold rows. rewrite distinct_map_same_key; [exact Hg |].
    intros g _. destruct (Z.eqb_spec (GearItemORM.id g) (GearItemORM.id m));
      congruence.
  - apply in_map_iff. exists m. now rewrite Z.eqb_refl.
  - intros g Hin Hne. apply in_map_iff. exists g.
    apply Z.eqb_neq in Hne. now rewrite Hne.
Qed.

(** X26. [update_gear_item] on a store that meets its constraints: an
    [OverflowError] for an id beyond the INTEGER column (signed 64-bit) and
    404 'Item not found' for an id of the column that no row has, the store
    unchanged; for the row of the id, a patch the database refuses leaves
    the store as it is, and a patch it accepts replaces the row, returns
    the row as the table holds it afterwards, leaves the user and cart
    tables, keeps the constraints, makes [get_gear_item] return that row
    and the other items as before, and applied a second time changes
    nothing; the patch that sets no field returns the item and leaves the
    store as it is. *)
Theorem update_gear_item_cases (item_id : Z) (payload : GearItemUpdate.t)
  (who : User.t) (db : DB) :
  constraints db = true ->
  let result := Admin.update_gear_item item_id payload who db in
  (in_int64 item_id = false -> result = (db, Raise OverflowError))
  /\ (in_int64 item_id = true ->
      (~ In item_id (map GearItemORM.id (gear_items db)) ->
       result = (db, Raise (HTTPException 404 "Item not found")))
      /\ forall m, In m (gear_items db) -> GearItemORM.id m = item_id ->
           (forall e, Admin.patched m payload = Raise e ->
                      result = (db, Raise e))
           /\ (forall m', Admin.patched m payload = Return m' ->
                 exists db',
                   result = (db', Return (to_schema m'))
                   /\ users db' = users db /\ cart_items db' = cart_items db
                   /\ constraints db' = true
                   /\ Catalog.get_gear_item item_id db'
                      = Return (to_schema m')
                   /\ (forall g, In g (gear_items db) ->
                         GearItemORM.id g <> item_id ->
                         in_int64 (GearItemORM.id g) = true ->
                         Catalog.get_gear_item (GearItemORM.id g) db'
                         = Return (to_schema g))
                   /\ Admin.update_gear_item item_id payload who db'
                      = (db', Return (to_schema m')))
           /\ Admin.update_gear_item item_id empty_patch who db
              = (db, Return (to_schema m))).
Proof.
  intros Hc result.
  destruct (constraints_parts db Hc) as (H1 & H2 & Hg & H4).
  split.
  { intros Hi. unfold result, Admin.update_gear_item.
    now rewrite (gear_by_id_refused db _ Hi). }
  intros Hi. split.
  - intros Habs. unfold result, Admin.update_gear_item.
    rewrite (gear_by_id_is_find db _ Hg Hi).
    now rewrite (find_absent Z.eqb GearItemORM.id Z.eqb_eq _ _ Habs).
  - intros m Hm Hid. subst item_id.
    assert (Hupd : forall d p row,
              distinct Z.eqb (map GearItemORM.id (gear_items d)) = true ->
              In row (gear_items d) ->
              in_int64 (GearItemORM.id row) = true ->
              Admin.update_gear_item (GearItemORM.id row) p who d
              = committed_with d
                  (m' <- Admin.patched row p ;;
                   Return
                     (Admin.with_gear_items d
                        (map (fun g => if GearItemORM.id g =? GearItemORM.id row
                                       then m' else g) (gear_items d)), m'))
                  (fun m' => Return (to_schema m'))).
    { intros d p row Hd Hrow Hri. unfold Admin.update_gear_item.
      rewrite (gear_by_id_is_find d _ Hd Hri).
      now rewrite (find_the_row Z.eqb GearItemORM.id Z.eqb_eq _ _ Hd Hrow). }
    unfold result. rewrite !(Hupd db _ m Hg Hm Hi).
    split; [| split].
    + intros e ->. reflexivity.
    + intros m' Hpatch. rewrite Hpatch. cbn [bind committed_with].
      destruct (patched_fields m m' payload Hpatch) as (Eid & _).
      destruct (replace_row_lookup db m m' Hg Hm Eid) as (Hg' & Hin' & Hothers).
      set (db' := Admin.with_gear_items db _) in *.
      exists db'. split; [reflexivity |]. split; [reflexivity |].
      split; [reflexivity |]. split; [| split; [| split]].
      * unfold constraints. cbn [users cart_items db' Admin.with_gear_items gear_items].
        now rewrite H1, H2, H4, Hg'.
      * rewrite <- Eid. apply (get_gear_item_row db' m' Hg' Hin').
        now rewrite Eid.
      * intros g Hin Hne Hgi. apply (get_gear_item_row db' g Hg'); [| exact Hgi].
        now apply Hothers.
      * rewrite <- Eid.
        rewrite (Hupd db' payload m' Hg' Hin' ltac:(now rewrite Eid)).
        rewrite (patched_twice m m' payload Hpatch). cbn [bind committed_with].
        f_equal. unfold db', Admin.with_gear_items. cbn [users cart_items gear_items].
        f_equal. rewrite map_map. apply map_ext. intros g. rewrite Eid.
        destruct (Z.eqb_spec (GearItemORM.id g) (GearItemORM.id m)) as [E | E].
        -- now rewrite Eid, Z.eqb_refl.
        -- apply Z.eqb_neq in E. now rewrite E.
    + assert (Admin.patched m empty_patch = Return m) as -> by now destruct m.
      cbn [bind committed_with]. f_equal.
      assert (map (fun g => if GearItemORM.id g =? GearItemORM.id m then m else g)
                (gear_items db) = gear_items db) as ->.
      { rewrite <- (map_id (gear_items db)) at 2. apply map_ext_in.
        intros g Hin.
        destruct (Z.eqb_spec (GearItemORM.id g) (GearItemORM.id m)) as [E |];
          [| reflexivity].
        symmetry.
        apply (distinct_key_inj Z.eqb GearItemORM.id Z.eqb_eq _ g m Hg Hin Hm E). }
      now destruct db.
Qed.

Lemma find_filter {A : Type} (p r : A -> bool) (l : list A) :
  find p (filter r l) = find (fun x => r x && p x) l.
Proof.
  induction l as [| a l IH]; simpl; [reflexivity |].
  destruct (r a); simpl; [now destruct (p a) | exact IH].
Qed.

Lemma resolved_without (db db' : DB) (item_id : Z)
  (rows : list CartItemORM.t) :
  gear_items db'
  = filter (fun g => negb (GearItemORM.id g =? item_id)) (gear_items db) ->
  resolved db' rows
  = filter (fun l => negb (CartItemORM.gear_item_id (fst l) =? item_id))
      (resolved db rows).
Proof.
  intros E. induction rows as [| c rows IH]; simpl; [reflexivity |].
  unfold gear_of. rewrite E, find_filter.
  destruct (Z.eqb_spec (CartItemORM.gear_item_id c) item_id) as [Ec | Ec].
  - assert (find (fun x => negb (GearItemORM.id x =? item_id)
                           && (GearItemORM.id x
                               =? CartItemORM.gear_item_id c))
              (gear_items db) = None) as ->.
    { destruct (find _ (gear_items db)) eqn:Ef; [| reflexivity].
      apply find_some in Ef as [_ Ef]. apply andb_prop in Ef as [E1 E2].
      apply Z.eqb_eq in E2. rewrite E2, Ec, Z.eqb_refl in E1. discriminate. }
    destruct (find _ (gear_items db)); simpl;
      [rewrite Ec, Z.eqb_refl; simpl |]; exact IH.
  - assert (find (fun x => negb (GearItemORM.id x =? item_id)
                           && (GearItemORM.id x
                               =? CartItemORM.gear_item_id c))
              (gear_items db)
            = find (fun g => GearItemORM.id g =? CartItemORM.gear_item_id c)
                (gear_items db)) as ->.
    { clear - Ec. induction (gear_items db) as [| g l IHl]; simpl;
        [reflexivity |].
      destruct (Z.eqb_spec (GearItemORM.id g) (CartItemORM.gear_item_id c))
        as [Eg | Eg].
      - rewrite Eg. apply Z.eqb_neq in Ec. now rewrite Ec.
      - now rewrite andb_false_r. }
    destruct (find _ (gear_items db)); simpl; [| exact IH].
    apply Z.eqb_neq in Ec. rewrite Ec. simpl. now rewrite IH.
Qed.

(** X27. [delete_gear_item] on a store that meets its constraints: an
    [OverflowError] for an id beyond the INTEGER column (signed 64-bit) and
    404 'Item not found' for an id of the column that no row has, the store
    unchanged; otherwise the row is removed, the user table and the cart
    table are left as they are, so cart rows of the item stay behind, the
    constraints hold, [get_gear_item] of the id raises 404, and [get_cart]
    of every user returns their earlier lines without those of the deleted
    item, with the total over them. *)
Theorem delete_gear_item_cases (item_id : Z) (who : User.t) (db : DB) :
  constraints db = true ->
  let result := Admin.delete_gear_item item_id who db in
  (in_int64 item_id = false -> result = (db, Raise OverflowError))
  /\ (in_int64 item_id = true ->
      (~ In item_id (map GearItemORM.id (gear_items db)) ->
       result = (db, Raise (HTTPException 404 "Item not found")))
      /\ (In item_id (map GearItemORM.id (gear_items db)) ->
          exists db',
            result = (db', Return tt)
            /\ gear_items db'
               = filter (fun g => negb (GearItemORM.id g =? item_id))
                   (gear_items db)
            /\ users db' = users db
            /\ cart_items db' = cart_items db
            /\ constraints db' = true
            /\ Catalog.get_gear_item item_id db'
               = Raise (HTTPException 404 "Item not found")
            /\ forall current_user user,
                 In user (users db) ->
                 UserORM.username user = User.username current_user ->
                 let kept :=
                   filter (fun l => negb (CartItemORM.gear_item_id (fst l)
                                          =? item_id))
                     (resolved db (cart_rows db (UserORM.id user))) in
                 Cart.get_cart current_user db'
                 = Return (CartResponse.mk (map line_response kept)
                             (sum_prices kept)))).
Proof.
  intros Hc result.
  destruct (constraints_parts db Hc) as (H1 & H2 & Hg & H4).
  unfold result, Admin.delete_gear_item. split.
  { intros Hi. now rewrite (gear_by_id_refused db _ Hi). }
  intros Hi. rewrite (gear_by_id_is_find db _ Hg Hi). split.
  - intros Habs.
    now rewrite (find_absent Z.eqb GearItemORM.id Z.eqb_eq _ _ Habs).
  - intros Hin. apply in_map_iff in Hin as (m & <- & Hm).
    rewrite (find_the_row Z.eqb GearItemORM.id Z.eqb_eq _ _ Hg Hm).
    cbn [bind committed].
    set (db' := Admin.with_gear_items db _).
    assert (Hg' : distinct Z.eqb (map GearItemORM.id (gear_items db')) = true)
      by (unfold db'; simpl; now apply distinct_filter).
    exists db'. split; [reflexivity |]. split; [reflexivity |].
    split; [reflexivity |]. split; [reflexivity |].
    split; [| split].
    + unfold constraints. rewrite Hg'.
      cbn [users cart_items db' Admin.with_gear_items].
      now rewrite H1, H2, H4.
    + unfold Catalog.get_gear_item. rewrite (gear_by_id_is_find db' _ Hg' Hi).
      rewrite (find_absent Z.eqb GearItemORM.id Z.eqb_eq); [reflexivity |].
      intros Hin. apply in_map_iff in Hin as (g & Eg & Hin).
      unfold db' in Hin. simpl in Hin. apply filter_In in Hin as [_ Hin].
      rewrite Eg, Z.eqb_refl in Hin. discriminate.
    + intros current_user user Hu Hname.
      rewrite (get_cart_lines current_user db' user H2 Hg' Hu Hname).
      assert (cart_rows db' (UserORM.id user) = cart_rows db (UserORM.id user))
        as -> by reflexivity.
      now rewrite (resolved_without db db' (GearItemORM.id m)).
Qed.

(** X28. [create_gear_item], [update_gear_item], [delete_gear_item] and
    [admin_delete_user] keep the constraints of the store, whatever their
    arguments and whatever they answer. *)
Theorem admin_writers_keep_constraints (now item_id user_id : Z)
  (create : GearItemCreate.t) (update : GearItemUpdate.t)
  (who : User.t) (db db' : DB) :
  constraints db = true ->
  In db' [fst (Admin.create_gear_item now create who db);
          fst (Admin.update_gear_item item_id update who db);
          fst (Admin.delete_gear_item item_id who db);
          fst (Admin.admin_delete_user user_id who db)] ->
  constraints db' = true.
Proof.
  intros Hc Hdb.
  destruct (constraints_parts db Hc) as (H1 & H2 & Hg & H4).
  assert (Hgear : forall rows,
            distinct Z.eqb (map GearItemORM.id rows) = true ->
            constraints (Admin.with_gear_items db rows) = true).
  { intros rows Hr. unfold constraints. simpl. now rewrite H1, H2, H4, Hr. }
  destruct Hdb as [<- | [<- | [<- | [<- | []]]]].
  - unfold Admin.create_gear_item.
    destruct (is_nan _); simpl; [exact Hc |].
    apply Hgear. rewrite map_app. simpl. now apply distinct_fresh_rowid.
  - unfold Admin.update_gear_item.
    destruct (gear_by_id db item_id) as [[m |] | e] eqn:E; simpl;
      try exact Hc.
    destruct (Admin.patched m update) as [m' | e] eqn:Ep; simpl;
      [| exact Hc].
    destruct (patched_fields m m' update Ep) as (Eid & _).
    apply Hgear. rewrite distinct_map_same_key; [exact Hg |].
    intros g _. destruct (Z.eqb_spec (GearItemORM.id g) (GearItemORM.id m));
      congruence.
  - unfold Admin.delete_gear_item.
    destruct (gear_by_id db item_id) as [[m |] | e]; simpl; try exact Hc.
    apply Hgear. now apply distinct_filter.
  - unfold Admin.admin_delete_user.
    destruct (bind_int_cases user_id) as [[_ ->] | [_ ->]]; simpl;
      [| exact Hc].
    destruct (scalar_one_or_none _) as [[u |] | e]; simpl; try exact Hc.
    destruct (String.eqb _ _); simpl; [exact Hc |].
    destruct (_ && _)%bool; simpl; [exact Hc |].
    destruct (delete_rows (cart_rows db user_id) db) as (Eu & Eg & Ec).
    unfold constraints. cbn [users gear_items cart_items].
    fold (cart_rows db user_id). rewrite Eu, Eg, Ec.
    rewrite !distinct_filter by assumption. now rewrite Hg.
Qed.

(** X29. [update_gear_item] for the row of the id: a patch that sets name,
    category, brand, price or in_stock to null, or the price to a value that
    is not a number, is refused with an IntegrityError and the store is
    unchanged; a response keeps the id, leaves every field the patch does
    not set as the row had it, and gives each field the patch sets its new
    value as the table holds it: a price and a rating of negative zero come
    back as zero, a rating that is not a number as null, and rating,
    description and image_url set to null come back as null. *)
Theorem update_gear_item_fields (item_id : Z) (payload : GearItemUpdate.t)
  (who : User.t) (db : DB) (m : GearItemORM.t) :
  constraints db = true ->
  In m (gear_items db) ->
  GearItemORM.id m = item_id ->
  in_int64 item_id = true ->
  (GearItemUpdate.name payload = Some None
   \/ GearItemUpdate.category payload = Some None
   \/ GearItemUpdate.brand payload = Some None
   \/ GearItemUpdate.price payload = Some None
   \/ GearItemUpdate.in_stock payload = Some None
   \/ (exists v, GearItemUpdate.price payload = Some (Some v)
                 /\ is_nan v = true) ->
   Admin.update_gear_item item_id payload who db = (db, Raise IntegrityError))
  /\ forall db' item,
       Admin.update_gear_item item_id payload who db = (db', Return item) ->
       GearItem.id item = item_id
       /\ GearItem.name item
          = match GearItemUpdate.name payload with
            | Some (Some v) => v
            | _ => GearItemORM.name m
            end
       /\ GearItem.category item
          = match GearItemUpdate.category payload with
            | Some (Some v) => v
            | _ => GearItemORM.category m
            end
       /\ GearItem.brand item
          = match GearItemUpdate.brand payload with
            | Some (Some v) => v
            | _ => GearItemORM.brand m
            end
       /\ GearItem.price item
          = match GearItemUpdate.price payload with
            | Some (Some v) => real_value v
            | _ => GearItemORM.price m
            end
       /\ GearItem.in_stock item
          = match GearItemUpdate.in_stock payload with
            | Some (Some v) => v
            | _ => GearItemORM.in_stock m
            end
       /\ GearItem.rating item
          = match GearItemUpdate.rating payload with
            | Some v => stored_real v
            | None => GearItemORM.rating m
            end
       /\ GearItem.description item
          = match GearItemUpdate.description payload with
            | Some v => v
            | None => GearItemORM.description m
            end
       /\ GearItem.image_url item
          = match GearItemUpdate.image_url payload with
            | Some v => v
            | None => GearItemORM.image_url m
            end.
Proof.
  intros Hc Hm Hid Hi. subst item_id.
  destruct (constraints_parts db Hc) as (_ & _ & Hg & _).
  unfold Admin.update_gear_item.
  rewrite (gear_by_id_is_find db _ Hg Hi).
  rewrite (find_the_row Z.eqb GearItemORM.id Z.eqb_eq _ _ Hg Hm).
  cbn [bind]. split.
  - intros H. now rewrite (patched_refused m payload H).
  - intros db' item.
    destruct (Admin.patched m payload) as [m' | e] eqn:Ep; simpl;
      [| discriminate].
    intros [= _ <-].
    destruct (patched_fields m m' payload Ep)
      as (E0 & _ & E1 & E2 & E3 & E4 & E5 & E6 & E7 & E8).
    unfold to_schema. simpl. repeat split; assumption.
Qed.

Lemma update_gear_item_fields_witness :
  Admin.update_gear_item 1
    (GearItemUpdate.mk (Some None) None None None None None None None)
    admin demo_db
  = (demo_db, Raise IntegrityError).
Proof.
  apply (proj1 (update_gear_item_fields 1
                  (GearItemUpdate.mk (Some None) None None None None None None
                     None)
                  admin demo_db shure_sm58 eq_refl (or_introl eq_refl)
                  eq_refl eq_refl)).
  now left.
Defined.

(** ** The fallback route *)



(** ** The properties above on the small store *)

Lemma plain_decode_encode (now exp : Z) (subject : string) :
  subject <> "" -> now < exp ->
  plain_encode (Claims.mk (Some subject) (Some exp)) <> ""
  /\ exists payload,
       plain_decode now (plain_encode (Claims.mk (Some subject) (Some exp)))
       = Some payload
       /\ Claims.sub payload = Some subject.
Proof.
  intros Hs _. split; [exact Hs |]. eexists. split; reflexivity.
Qed.

Lemma login_cases_witness :
  Auth.login_for_access_token plain_verify plain_encode 9
    (OAuth2PasswordRequestForm.mk "user1" "#password1") demo_db
  = Return (Token.mk "user1" "bearer").
Proof.
  exact (proj2 (proj2 (login_cases plain_verify plain_encode 9
                         (OAuth2PasswordRequestForm.mk "user1" "#password1")
                         demo_db eq_refl)
                  (UserORM.mk 2 "user1" "#password1" false 0)
                  (or_intror (or_introl eq_refl)) eq_refl) eq_refl).
Defined.

Lemma login_then_current_user_witness :
  exists row,
    In row (users demo_db) /\ UserORM.username row = "user1"
    /\ Auth.get_current_user plain_decode 3000 (Some "user1") None demo_db
       = Return (User.mk (UserORM.username row) (UserORM.is_admin row) None).
Proof.
  destruct (login_then_current_user plain_verify plain_encode plain_decode
              plain_decode_encode 9 3000
              (OAuth2PasswordRequestForm.mk "user1" "#password1") demo_db
              (Token.mk "user1" "bearer") eq_refl ltac:(discriminate) eq_refl
              ltac:(lia))
    as (row & Hin & Hname & Hoauth & _).
  exists row. split; [exact Hin | split; [exact Hname | exact Hoauth]].
Defined.

Lemma register_case_variant_conflict_witness :
  let db' := fst (Auth.register_user plain_hash 5 "s"
                    (RegisterRequest.mk "alice" "secret1") demo_db) in
  Auth.register_user plain_hash 6 "t"
    (RegisterRequest.mk " ALICE " "another1") db'
  = (db', Raise (HTTPException 409 "Username already taken")).
Proof.
  apply (register_case_variant_conflict plain_hash 5 6 "s" "t"
           (RegisterRequest.mk "alice" "secret1")
           (RegisterRequest.mk " ALICE " "another1") demo_db _ "registered");
    [reflexivity | reflexivity | reflexivity | simpl; lia].
Defined.

Lemma register_repeat_beyond_ascii_witness :
  let payload :=
    RegisterRequest.mk (String (ascii_of_N 201) "ric") "secret1" in
  let db' := fst (Auth.register_user plain_hash 5 "s" payload demo_db) in
  Auth.register_user plain_hash 6 "t" payload db'
  = (db', Raise IntegrityError).
Proof.
  apply (register_repeat_beyond_ascii plain_hash 5 6 "s" "t"
           (RegisterRequest.mk (String (ascii_of_N 201) "ric") "secret1")
           demo_db _ "registered"); [reflexivity | discriminate].
Defined.

Lemma register_user_store_witness :
  constraints (fst (Auth.register_user plain_hash 5 "s"
                      (RegisterRequest.mk "alice" "secret1") demo_db))
  = true.
Proof.
  exact (proj1 (register_user_store plain_hash 5 "s"
                  (RegisterRequest.mk "alice" "secret1") demo_db eq_refl)).
Defined.

Lemma listing_items_witness :
  exists r,
    Catalog.list_gear None None None 1 2 demo_db = Return r
    /\ (List.length (PagedResponse.items r) <= Z.to_nat 2)%nat.
Proof.
  eexists. split; [reflexivity |].
  exact (proj1 (proj2 (listing_items None None None 1 2 admin demo_db _
                         (or_introl eq_refl)))).
Defined.

Lemma get_gear_item_cases_witness :
  Catalog.get_gear_item 9 demo_db
  = Raise (HTTPException 404 "Item not found")
  /\ Catalog.get_gear_item 9223372036854775808 demo_db = Raise OverflowError.
Proof.
  split.
  - apply (proj1 (get_gear_item_cases 9 demo_db eq_refl)); [reflexivity |].
    simpl. lia.
  - exact (proj1 (proj2 (get_gear_item_cases 9223372036854775808 demo_db
                           eq_refl)) eq_refl).
Defined.

Lemma pages_cover_witness :
  exists responses,
    map (fun p => Catalog.list_gear None None None (Z.of_nat p) 2 demo_db)
      (seq 1 3)
    = map Return responses
    /\ Permutation (List.concat (map PagedResponse.items responses))
         (map to_schema demo_gear).
Proof.
  destruct (pages_cover None None None 2 admin demo_db ltac:(lia) eq_refl _ _
              (or_introl (conj eq_refl eq_refl)))
    as (responses & E & _ & P).
  exists responses. split; [exact E | exact P].
Defined.

Lemma search_is_substring_witness :
  In shure_sm58 (matching_rows None (Some "SM5") demo_db).
Proof.
  apply (proj2 (search_is_substring None (Some "SM5") demo_db shure_sm58
                  ltac:(discriminate) eq_refl eq_refl)).
  split; [simpl; tauto | split; [discriminate |]].
  exists "Shure ", "SM5", "8". split; reflexivity.
Defined.

Lemma users_pagination_witness :
  Admin.admin_list_users None None 2 3 admin demo_db
  = Return (PagedUsersResponse.mk [UserInfo.mk 3 "user2" false] 4 2 3 2).
Proof.
  exact (proj1 (users_pagination None None 2 3 admin demo_db
                  ltac:(lia) ltac:(lia) eq_refl)).
Defined.

Lemma cart_writes_are_the_callers_witness :
  cart_rows (fst (Cart.clear_cart_endpoint user1 demo_db)) 3
  = cart_rows demo_db 3.
Proof.
  apply (proj2 (proj2
    (cart_writes_are_the_callers 0 0 (CartItemAdd.mk 1 1) (CartItemUpdate.mk 1)
       user1 demo_db _ (UserORM.mk 2 "user1" "#password1" false 0)
       eq_refl (or_intror (or_introl eq_refl)) eq_refl
       (or_intror (or_intror (or_intror (or_introl eq_refl))))))).
  simpl. lia.
Defined.

Lemma cart_handlers_keep_invariants_witness :
  constraints (fst (Cart.add_to_cart 1 (CartItemAdd.mk 1 2) admin demo_db))
  = true.
Proof.
  exact (proj1 (cart_handlers_keep_invariants 1 0 (CartItemAdd.mk 1 2)
                  (CartItemUpdate.mk 1) admin demo_db _ eq_refl eq_refl
                  (or_introl eq_refl))).
Defined.

Lemma add_to_cart_merges_witness :
  exists db' cart,
    Cart.add_to_cart 7 (CartItemAdd.mk 1 3) user1 demo_db = (db', Return cart)
    /\ cart_items db'
       = [CartItemORM.mk 1 2 1 5 0; CartItemORM.mk 2 3 2 1 0;
          CartItemORM.mk 3 3 99 4 0].
Proof.
  destruct (add_to_cart_merges 7 (CartItemAdd.mk 1 3) user1 demo_db
              (UserORM.mk 2 "user1" "#password1" false 0) eq_refl eq_refl
              (or_intror (or_introl eq_refl)) eq_refl (or_introl eq_refl)
              eq_refl)
    as [(Hnone & _) | (old & Hold & Hsum & _)]; [discriminate Hnone |].
  injection Hold as <-.
  destruct (Hsum eq_refl) as (db' & cart & row & E & _).
  exists db', cart. split; [exact E |].
  apply (f_equal fst) in E. simpl in E. now subst db'.
Defined.

Lemma add_then_remove_witness :
  Cart.remove_from_cart 4 admin
    (fst (Cart.add_to_cart 1 (CartItemAdd.mk 1 2) admin demo_db))
  = (demo_db, Cart.get_cart admin demo_db).
Proof.
  apply (proj2 (add_then_remove 1 (CartItemAdd.mk 1 2) admin demo_db
                  (UserORM.mk 1 "admin" "#admin" true 0) eq_refl
                  (or_introl eq_refl) eq_refl (or_introl eq_refl)
                  eq_refl eq_refl
                  ltac:(intros c Hc; simpl in Hc;
                        destruct Hc as [<- | [<- | [<- | []]]];
                        discriminate)
                  eq_refl)).
Defined.

Lemma clear_cart_empties_witness :
  exists db',
    Cart.clear_cart_endpoint user2 demo_db
    = (db', Return (CartResponse.mk [] 0%float))
    /\ cart_items db' = [CartItemORM.mk 1 2 1 2 0].
Proof.
  destruct (clear_cart_empties user2 demo_db
              (UserORM.mk 3 "user2" "#password2" false 0) eq_refl
              (or_intror (or_intror (or_introl eq_refl))) eq_refl)
    as (db' & E & Hrows & _).
  exists db'. split; [exact E | exact Hrows].
Defined.

Lemma remove_from_cart_own_witness :
  fst (Cart.remove_from_cart 2 user2 demo_db)
  = Cart.delete_cart_item demo_db (CartItemORM.mk 2 3 2 1 0).
Proof.
  exact (f_equal fst
           (proj1 (remove_from_cart_own 2 user2 demo_db
                     (UserORM.mk 3 "user2" "#password2" false 0)
                     (CartItemORM.mk 2 3 2 1 0) eq_refl
                     (or_intror (or_intror (or_introl eq_refl))) eq_refl
                     (or_intror (or_introl eq_refl)) eq_refl eq_refl))).
Defined.

Lemma create_gear_item_cases_witness :
  let payload price :=
    GearItemCreate.mk "MOTU M2" interface "MOTU" price true (Some 4.75%float)
      None None in
  let item price :=
    GearItem.mk 6 "MOTU M2" interface "MOTU" price true (Some 4.75%float)
      None None in
  exists db' row,
    Admin.create_gear_item 0 (payload (-0)%float) admin demo_db
    = (db', Return (item (-0)%float))
    /\ to_schema row = item 0%float
    /\ Catalog.get_gear_item 6 db' = Return (item 0%float).
Proof.
  intros payload item.
  destruct (proj2 (create_gear_item_cases 0 (payload (-0)%float) admin demo_db
                     eq_refl)
              eq_refl)
    as (db' & row & E & Hrow & _ & _ & _ & _ & _ & Hget & _).
  exists db', row. split; [exact E |]. split; [exact Hrow |].
  exact (eq_trans (Hget eq_refl) (f_equal Return Hrow)).
Defined.

Lemma update_gear_item_cases_witness :
  Admin.update_gear_item 1 empty_patch admin demo_db
  = (demo_db, Return (to_schema shure_sm58)).
Proof.
  exact (proj2 (proj2 (proj2 (proj2 (update_gear_item_cases 1 empty_patch admin
                                       demo_db eq_refl) eq_refl)
                         shure_sm58 (or_introl eq_refl) eq_refl))).
Defined.

Lemma delete_gear_item_cases_witness :
  Admin.delete_gear_item 9 admin demo_db
  = (demo_db, Raise (HTTPException 404 "Item not found")).
Proof.
  apply (proj1 (proj2 (delete_gear_item_cases 9 admin demo_db eq_refl)
                  eq_refl)).
  simpl. lia.
Defined.

Lemma admin_writers_keep_constraints_witness :
  constraints (fst (Admin.delete_gear_item 1 admin demo_db)) = true.
Proof.
  exact (admin_writers_keep_constraints 0 1 3
           (GearItemCreate.mk "MOTU M2" interface "MOTU" 899 true None None None)
           empty_patch admin demo_db _ eq_refl
           (or_intror (or_intror (or_introl eq_refl)))).
Defined.


